(** * Hydra-ROS visualizer utilities: marker builders

    A shallow embedding of [hydra_ros/src/visualizer/visualizer_utilities.cpp]
    and the properties of its marker builders.

    Conventions of the embedding.
    - A [double] that the code inspects for IEEE special values (the colormap
      ratio of [getRatio]) is a binary64 value of [SpecFloat]: zeros,
      infinities, NaN and finite numbers, with round-to-nearest arithmetic.
    - Coordinates, offsets and alphas, on which the code only adds and
      multiplies, are exact reals.  The angle at which an ellipse is sampled
      is the binary32 value that the code computes, read as a real.
    - [std::map] is a [gmap]; a range-for over it visits the keys in
      ascending order, which [in_key_order] spells out.
    - A C++ exception is a [Raise] in the [result] monad.
    - The one [while] loop runs on a budget of steps, so that a run that
      never leaves the loop can be told from one that returns.
    - Functions and types declared outside this file (color conversion, the
      z-offset helpers, the scene graph containers) are fields of the
      [Collaborators] class or plain records of what the builders read. *)

From Stdlib Require Import ZArith Reals Lra Lia List String Bool DecimalString.
From Stdlib Require Import Floats.SpecFloat.
From stdpp Require Import base option list gmap sorting.

Import ListNotations.

(** ** Exceptions *)

Inductive exn : Type :=
| bad_cast       (* dynamic_cast of a reference to the wrong attribute kind *)
| out_of_range   (* std::map::at, index lookups *)
| xmlrpc_error.  (* XmlRpc::XmlRpcException: a value read at the wrong type *)

Inductive result (A : Type) : Type :=
| Ok (a : A)
| Raise (e : exn).
Arguments Ok {A} a.
Arguments Raise {A} e.

#[global] Instance result_ret : MRet result := fun A a => Ok a.
#[global] Instance result_bind : MBind result :=
  fun A B f m => match m with Ok a => f a | Raise e => Raise e end.

(** ** IEEE binary64 *)

Module Binary64.
Definition double : Type := spec_float.
Definition prec : Z := 53.
Definition emax : Z := 1024.

Definition sub : double -> double -> double := SFsub prec emax.
Definition div : double -> double -> double := SFdiv prec emax.
Definition mul : double -> double -> double := SFmul prec emax.
Definition ltb : double -> double -> bool := SFltb.
Definition leb : double -> double -> bool := SFleb.

(* std::isfinite *)
Definition isfinite (v : double) : bool :=
  match v with
  | S754_zero _ | S754_finite _ _ _ => true
  | S754_infinity _ | S754_nan => false
  end.

Definition zero : double := S754_zero false.                 (* 0.0 *)
Definition one : double := S754_finite false (2 ^ 52) (-52). (* 1.0 *)
Definition of_Z (n : Z) : double := binary_normalize prec emax n 0 false.
Definition infinity : double := S754_infinity false.
Definition nan : double := S754_nan.
End Binary64.
Import Binary64.

(** ** Messages *)

Record Vector3d : Type := { vx : R; vy : R; vz : R }.        (* Eigen::Vector3d *)
Record Vector2d : Type := { ux : R; uy : R }.                (* Eigen::Vector2d *)
Record Matrix2d : Type := { m00 : R; m01 : R; m10 : R; m11 : R }.
Record Quaternion : Type := { qw : R; qx : R; qy : R; qz : R }.

Record Point : Type := { px : R; py : R; pz : R }.           (* geometry_msgs::Point *)
Record Pose : Type := { position : Point; orientation : Quaternion }.
Record ColorRGBA : Type := { cr : R; cg : R; cb : R; ca : R }.
Record Header : Type := { header_seq : Z; stamp : Z; frame_id : string }.

(* spark_dsg::Color: 8-bit channels *)
Record Color : Type := { red : Z; green : Z; blue : Z; alpha : Z }.
(* Color() *)
Definition Color_default : Color := {| red := 0; green := 0; blue := 0; alpha := 255 |}.

Inductive MarkerType : Type :=
| ARROW | CUBE | SPHERE | LINE_LIST | CUBE_LIST | SPHERE_LIST | TEXT_VIEW_FACING.
Inductive MarkerAction : Type := ADD | DELETE.

Record Marker : Type := {
  header : Header;
  ns : string;
  id : Z;
  type : MarkerType;
  action : MarkerAction;
  pose : Pose;
  scale : Vector3d;
  color : ColorRGBA;
  lifetime : Z;
  points : list Point;
  colors : list ColorRGBA;
  text : string
}.

Definition MarkerArray : Type := list Marker.

(* tf2::convert / tf2::toMsg of a vector into a point *)
Definition toPoint (v : Vector3d) : Point := {| px := vx v; py := vy v; pz := vz v |}.
Definition add_z (p : Point) (dz : R) : Point :=
  {| px := px p; py := py p; pz := (pz p + dz)%R |}.
Definition set_z (p : Point) (z : R) : Point := {| px := px p; py := py p; pz := z |}.

Definition zero_point : Point := {| px := 0; py := 0; pz := 0 |}.
Definition identity_quaternion : Quaternion := {| qw := 1; qx := 0; qy := 0; qz := 0 |}.
Definition zero_quaternion : Quaternion := {| qw := 0; qx := 0; qy := 0; qz := 0 |}.

(* a default-constructed [Marker] *)
Definition empty_marker : Marker := {|
  header := {| header_seq := 0; stamp := 0; frame_id := "" |};
  ns := ""; id := 0; type := ARROW; action := ADD;
  pose := {| position := zero_point; orientation := zero_quaternion |};
  scale := {| vx := 0; vy := 0; vz := 0 |};
  color := {| cr := 0; cg := 0; cb := 0; ca := 0 |};
  lifetime := 0; points := []; colors := []; text := ""
|}.

(** Field assignments on a marker. *)
Definition set_header (h : Header) (m : Marker) : Marker :=
  {| header := h; ns := ns m; id := id m; type := type m; action := action m;
     pose := pose m; scale := scale m; color := color m; lifetime := lifetime m;
     points := points m; colors := colors m; text := text m |}.
Definition set_ns (s : string) (m : Marker) : Marker :=
  {| header := header m; ns := s; id := id m; type := type m; action := action m;
     pose := pose m; scale := scale m; color := color m; lifetime := lifetime m;
     points := points m; colors := colors m; text := text m |}.
Definition set_id (i : Z) (m : Marker) : Marker :=
  {| header := header m; ns := ns m; id := i; type := type m; action := action m;
     pose := pose m; scale := scale m; color := color m; lifetime := lifetime m;
     points := points m; colors := colors m; text := text m |}.
Definition set_type (t : MarkerType) (m : Marker) : Marker :=
  {| header := header m; ns := ns m; id := id m; type := t; action := action m;
     pose := pose m; scale := scale m; color := color m; lifetime := lifetime m;
     points := points m; colors := colors m; text := text m |}.
Definition set_action (a : MarkerAction) (m : Marker) : Marker :=
  {| header := header m; ns := ns m; id := id m; type := type m; action := a;
     pose := pose m; scale := scale m; color := color m; lifetime := lifetime m;
     points := points m; colors := colors m; text := text m |}.
Definition set_pose (p : Pose) (m : Marker) : Marker :=
  {| header := header m; ns := ns m; id := id m; type := type m; action := action m;
     pose := p; scale := scale m; color := color m; lifetime := lifetime m;
     points := points m; colors := colors m; text := text m |}.
Definition set_scale (s : Vector3d) (m : Marker) : Marker :=
  {| header := header m; ns := ns m; id := id m; type := type m; action := action m;
     pose := pose m; scale := s; color := color m; lifetime := lifetime m;
     points := points m; colors := colors m; text := text m |}.
Definition set_color (c : ColorRGBA) (m : Marker) : Marker :=
  {| header := header m; ns := ns m; id := id m; type := type m; action := action m;
     pose := pose m; scale := scale m; color := c; lifetime := lifetime m;
     points := points m; colors := colors m; text := text m |}.
Definition set_text (s : string) (m : Marker) : Marker :=
  {| header := header m; ns := ns m; id := id m; type := type m; action := action m;
     pose := pose m; scale := scale m; color := color m; lifetime := lifetime m;
     points := points m; colors := colors m; text := s |}.
Definition set_lifetime (d : Z) (m : Marker) : Marker :=
  {| header := header m; ns := ns m; id := id m; type := type m; action := action m;
     pose := pose m; scale := scale m; color := color m; lifetime := d;
     points := points m; colors := colors m; text := text m |}.
Definition set_points (ps : list Point) (m : Marker) : Marker :=
  {| header := header m; ns := ns m; id := id m; type := type m; action := action m;
     pose := pose m; scale := scale m; color := color m; lifetime := lifetime m;
     points := ps; colors := colors m; text := text m |}.
Definition set_colors (cs : list ColorRGBA) (m : Marker) : Marker :=
  {| header := header m; ns := ns m; id := id m; type := type m; action := action m;
     pose := pose m; scale := scale m; color := color m; lifetime := lifetime m;
     points := points m; colors := cs; text := text m |}.

(* marker.points.push_back / marker.colors.push_back, several at a time *)
Definition push_points (ps : list Point) (m : Marker) : Marker :=
  set_points (points m ++ ps) m.
Definition push_colors (cs : list ColorRGBA) (m : Marker) : Marker :=
  set_colors (colors m ++ cs) m.

(* marker.scale.x = s (a line width) *)
Definition set_scale_x (s : R) (m : Marker) : Marker :=
  set_scale {| vx := s; vy := vy (scale m); vz := vz (scale m) |} m.
Definition set_scale_z (s : R) (m : Marker) : Marker :=
  set_scale {| vx := vx (scale m); vy := vy (scale m); vz := s |} m.

(* fillPoseWithIdentity *)
Definition fillPoseWithIdentity (m : Marker) : Marker :=
  set_pose {| position := zero_point; orientation := identity_quaternion |} m.

(* marker.pose.position.z += dz *)
Definition shift_pose_z (dz : R) (m : Marker) : Marker :=
  set_pose {| position := add_z (position (pose m)) dz;
              orientation := orientation (pose m) |} m.

(** ** Configuration snapshots

    Only the options that the builders of this file read.  An insertion
    skip is a count: the builders compare it with a [size_t] counter that
    never exceeds it. *)

Record LayerConfig : Type := {
  visualize : bool;
  marker_scale : R;
  marker_alpha : R;
  use_sphere_marker : bool;
  label_scale : R;
  label_height : R;
  add_label_jitter : bool;
  label_jitter_scale : R;
  bounding_box_alpha : R;
  bbox_wireframe_scale : R;
  bbox_wireframe_edge_scale : R;
  collapse_bounding_box : bool;
  boundary_wireframe_scale : R;
  boundary_alpha : R;
  boundary_ellipse_alpha : R;
  boundary_use_node_color : bool;
  collapse_boundary : bool;
  interlayer_edge_scale : R;
  interlayer_edge_alpha : R;
  interlayer_edge_use_color : bool;
  use_edge_source : bool;
  interlayer_edge_insertion_skip : nat;
  intralayer_edge_scale : R;
  intralayer_edge_alpha : R;
  intralayer_edge_insertion_skip : nat
}.

Record DynamicLayerConfig : Type := {
  dyn_visualize : bool;
  visualize_interlayer_edges : bool;
  dyn_interlayer_edge_insertion_skip : nat;
  z_offset_scale : R;
  node_scale : R;
  node_alpha : R;
  node_use_sphere : bool;
  edge_scale : R;
  edge_alpha : R;
  dyn_label_scale : R;
  dyn_label_height : R
}.

Record VisualizerConfig : Type := {
  places_colormap_min_distance : double;
  places_colormap_max_distance : double;
  mesh_edge_break_ratio : R;
  mesh_layer_offset : R;
  collapse_layers : bool
}.

(** ** The scene graph, as the builders read it *)

Abbreviation NodeId := Z (only parsing).   (* uint64 *)
Abbreviation LayerId := Z (only parsing).  (* int64 *)

Record BoundingBox : Type := {
  world_P_center : Vector3d;
  world_q_center : Quaternion;      (* Quaternionf(world_R_center) *)
  dimensions : Vector3d;
  corner_array : nat -> Vector3d    (* corners(), a std::array of 8 *)
}.

Record SemanticNodeAttributes : Type := {
  sem_position : Vector3d;
  name : string;
  sem_color : Color;
  bounding_box : BoundingBox;
  semantic_label : Z
}.

Record PlaceNodeAttributes : Type := {
  place_sem : SemanticNodeAttributes;
  distance : double;
  real_place : bool;
  frontier_scale : Vector3d;
  place_orientation : Quaternion
}.

Record Place2dNodeAttributes : Type := {
  place2d_sem : SemanticNodeAttributes;
  boundary : list Vector3d;
  ellipse_matrix_expand : Matrix2d;
  ellipse_centroid : Vector2d;
  pcl_mesh_connections : list nat
}.

(** The attribute object a node points to.  Place and 2D-place attributes
    derive from the semantic ones, which derive from the base class. *)
Inductive NodeAttributes : Type :=
| BaseAttrs (pos : Vector3d)
| SemanticAttrs (a : SemanticNodeAttributes)
| PlaceAttrs (a : PlaceNodeAttributes)
| Place2dAttrs (a : Place2dNodeAttributes).

Record SceneGraphNode : Type := {
  node_id : NodeId;
  node_layer : LayerId;
  attrs : NodeAttributes
}.

(* node.attributes<SemanticNodeAttributes>(): a dynamic_cast of a reference *)
Definition attributes_Semantic (n : SceneGraphNode) : result SemanticNodeAttributes :=
  match attrs n with
  | BaseAttrs _ => Raise bad_cast
  | SemanticAttrs a => Ok a
  | PlaceAttrs a => Ok (place_sem a)
  | Place2dAttrs a => Ok (place2d_sem a)
  end.

(* node.attributes<PlaceNodeAttributes>() *)
Definition attributes_Place (n : SceneGraphNode) : result PlaceNodeAttributes :=
  match attrs n with
  | PlaceAttrs a => Ok a
  | _ => Raise bad_cast
  end.

(* node.attributes<Place2dNodeAttributes>() *)
Definition attributes_Place2d (n : SceneGraphNode) : result Place2dNodeAttributes :=
  match attrs n with
  | Place2dAttrs a => Ok a
  | _ => Raise bad_cast
  end.

(* node.attributes().position: the base class, always there *)
Definition attributes_position (n : SceneGraphNode) : Vector3d :=
  match attrs n with
  | BaseAttrs p => p
  | SemanticAttrs a => sem_position a
  | PlaceAttrs a => sem_position (place_sem a)
  | Place2dAttrs a => sem_position (place2d_sem a)
  end.

Record SceneGraphEdge : Type := {
  edge_source : NodeId;
  edge_target : NodeId;
  weight : double       (* attributes().weight *)
}.

(* a static layer: nodes() and edges() in iteration order, and getNode(),
   the lookup of a node that an edge of the layer names *)
Record SceneGraphLayer : Type := {
  nodes : list SceneGraphNode;
  edges : list SceneGraphEdge;
  layer_getNode : NodeId -> SceneGraphNode
}.
Definition numNodes (l : SceneGraphLayer) : nat := length (nodes l).

(* a dynamic layer: nodes() is a vector of possibly null pointers *)
Record DynamicSceneGraphLayer : Type := {
  dyn_nodes : list (option SceneGraphNode);
  dyn_edges : list SceneGraphEdge;
  getPosition : NodeId -> Vector3d
}.

Record Mesh : Type := { mesh_points : list Vector3d }.
Definition numVertices (m : Mesh) : nat := length (mesh_points m).
Definition mesh_pos (m : Mesh) (i : nat) : Vector3d :=
  nth i (mesh_points m) {| vx := 0; vy := 0; vz := 0 |}.

(* the graph: getNode() resolves the ends of its edges *)
Record DynamicSceneGraph : Type := {
  getNode : NodeId -> SceneGraphNode;
  isDynamic : NodeId -> bool;
  interlayer_edges : list SceneGraphEdge;
  dynamic_interlayer_edges : list SceneGraphEdge;
  graph_mesh : option Mesh     (* mesh(): a shared pointer, possibly null *)
}.

(* callbacks handed in by the caller *)
Definition ColorFunction : Type := SceneGraphNode -> Color.
Definition EdgeColorFunction : Type :=
  SceneGraphNode -> SceneGraphNode -> SceneGraphEdge -> bool -> Color.
(* a std::function that may be empty *)
Definition FilterFunction : Type := option (SceneGraphNode -> bool).

(* filter && !filter(node) *)
Definition rejects (filter : FilterFunction) (n : SceneGraphNode) : bool :=
  match filter with
  | Some f => negb (f n)
  | None => false
  end.

(** ** Functions of other translation units *)

Class Collaborators : Type := {
  ColormapConfig : Type;
  (* dsg_utils::interpolateColorMap *)
  interpolateColorMap : ColormapConfig -> double -> Color;
  (* dsg_utils::makeColorMsg, with its optional alpha *)
  makeColorMsg : Color -> option R -> ColorRGBA;
  (* getZOffset(config, visualizer_config) *)
  getZOffset : LayerConfig -> VisualizerConfig -> R;
  (* getZOffset(z_offset_scale, visualizer_config) *)
  getZOffset_scale : R -> VisualizerConfig -> R;
  (* NodeSymbol(id).getLabel() *)
  getLabel : NodeId -> string;
  (* std::to_string on a layer id *)
  to_string : LayerId -> string;
  (* std::regex_search for O\((\d+)\): the digits of the first match *)
  regex_search_object_number : string -> option string
}.

(* marker.id = node.id: a 64-bit id stored in a 32-bit signed field *)
Definition to_int32 (n : Z) : Z :=
  ((n + 2 ^ 31) mod 2 ^ 32 - 2 ^ 31)%Z.

(* statements in sequence: [m |> f |> g] is g (f m) *)
Notation "m |> f" := (f m) (at level 45, left associativity, only parsing).

Section Builders.
Context `{Collaborators}.

(** ** Color resolution *)

Definition getRatio (min max value : double) : double :=
  let ratio := div (sub value min) (sub max min) in
  let ratio := if negb (isfinite ratio) then zero else ratio in
  let ratio := if ltb one ratio then one else ratio in
  let ratio := if ltb ratio zero then zero else ratio in
  ratio.

Definition getDistanceColor (config : VisualizerConfig) (colors : ColormapConfig)
    (distance : double) : Color :=
  if leb (places_colormap_max_distance config) (places_colormap_min_distance config)
  then Color_default
  else
    let ratio := getRatio (places_colormap_min_distance config)
                          (places_colormap_max_distance config) distance in
    interpolateColorMap colors ratio.

(** The ratio as the specification words it: the quotient, 0 when the
    quotient is not finite, otherwise clamped into [0, 1]. *)
Definition clamp01 (q : double) : double :=
  if ltb q zero then zero else if ltb one q then one else q.

Definition normalized_distance (min max d : double) : double :=
  let q := div (sub d min) (sub max min) in
  if isfinite q then clamp01 q else zero.

Definition in_unit_interval (r : double) : Prop :=
  leb zero r = true /\ leb r one = true.

(** ** Loops *)

(* a range-for whose body may throw *)
Fixpoint for_each {A S : Type} (l : list A) (body : S -> A -> result S) (s : S)
    : result S :=
  match l with
  | [] => Ok s
  | a :: l' => s' ← body s a; for_each l' body s'
  end.

(* std::map::at *)
Definition map_at {V : Type} (m : gmap Z V) (k : Z) : result V :=
  match m !! k with
  | Some v => Ok v
  | None => Raise out_of_range
  end.

(* the values of a std::map in iteration order: ascending keys *)
Definition key_le {V : Type} : relation (Z * V) := fun a b => (a.1 <= b.1)%Z.
#[global] Instance key_le_dec {V : Type} (a b : Z * V) : Decision (key_le a b).
Proof. unfold key_le. apply _. Defined.
Definition in_key_order {V : Type} (m : gmap Z V) : list V :=
  (merge_sort key_le (map_to_list m)).*2.

(** ** Delete markers *)

Definition makeDeleteMarker (header : Header) (id : Z) (ns : string) : Marker :=
  empty_marker |> set_header header |> set_action DELETE
               |> set_id (to_int32 id) |> set_ns ns.

(** ** Ellipse and polygon boundaries *)

Definition npts : nat := 20.

(* M_PI, the binary64 number next to pi: 0x400921FB54442D18 *)
Definition M_PI : double := S754_finite false 7074237752028440 (-51).

(* the conversion of a double to a float (binary32), to nearest even *)
Definition to_float (v : double) : spec_float :=
  match v with
  | S754_finite s m e => binary_round 24 128 s m e
  | _ => v
  end.

(* the number that a finite float stands for *)
Definition float_to_R (f : spec_float) : R :=
  match f with
  | S754_finite s m e =>
    (IZR (cond_Zopp s (Z.pos m))
     * (if (0 <=? e)%Z then IZR (2 ^ e) else / IZR (2 ^ (- e))))%R
  | _ => 0%R
  end.

(* float t = ix * 2 * M_PI / npts: the product and the quotient are taken in
   binary64 and the result is rounded to binary32 *)
Definition ellipse_angle (ix : nat) : R :=
  float_to_R
    (to_float (div (mul (of_Z (Z.of_nat ix * 2)) M_PI) (of_Z (Z.of_nat npts)))).

(* ellipse_matrix_expand * Vector2d(cos(t), sin(t)) + ellipse_centroid, at
   the height of the node; cos and sin are the functions of the math
   library at the number that the float [t] stands for *)
Definition ellipse_point (a : Place2dNodeAttributes) (t : R) : Point :=
  let M := ellipse_matrix_expand a in
  {| px := (m00 M * cos t + m01 M * sin t) + ux (ellipse_centroid a);
     py := (m10 M * cos t + m11 M * sin t) + uy (ellipse_centroid a);
     pz := vz (sem_position (place2d_sem a)) |}%R.

(* the state of the sampling loop: the marker and [last_point] *)
Definition ellipse_step (a : Place2dNodeAttributes) (col : ColorRGBA)
    (st : Marker * Point) (ix : nat) : Marker * Point :=
  let '(marker, last_point) := st in
  let marker := marker |> push_points [last_point] |> push_colors [col] in
  let t := ellipse_angle ix in
  let last_point := ellipse_point a t in
  (marker |> push_points [last_point] |> push_colors [col], last_point).

Definition ellipse_first_point (a : Place2dNodeAttributes) : Point :=
  {| px := m00 (ellipse_matrix_expand a) + ux (ellipse_centroid a);
     py := m10 (ellipse_matrix_expand a) + uy (ellipse_centroid a);
     pz := vz (sem_position (place2d_sem a)) |}%R.

Definition ellipse_node (config : LayerConfig) (marker : Marker) (node : SceneGraphNode)
    : result Marker :=
  a ← attributes_Place2d node;
  if (length (boundary a) <=? 1)%nat then Ok marker
  else
    let col := makeColorMsg (sem_color (place2d_sem a)) (Some (boundary_ellipse_alpha config)) in
    let last_point := ellipse_first_point a in
    Ok (fst (fold_left (ellipse_step a col) (seq 1 npts) (marker, last_point))).

Definition makeLayerEllipseBoundaries (header : Header) (config : LayerConfig)
    (layer : SceneGraphLayer) (visualizer_config : VisualizerConfig) (ns : string)
    : result Marker :=
  let marker :=
    empty_marker |> set_header header |> set_type LINE_LIST |> set_action ADD
                 |> set_id 0 |> set_ns ns
                 |> set_scale_x (boundary_wireframe_scale config)
                 |> fillPoseWithIdentity
                 |> shift_pose_z (if collapse_boundary config then 0%R
                                  else getZOffset config visualizer_config) in
  for_each (nodes layer) (ellipse_node config) marker.

Definition polygon_edges_node (config : LayerConfig) (visualizer_config : VisualizerConfig)
    (marker : Marker) (node : SceneGraphNode) : result Marker :=
  a ← attributes_Place2d node;
  if (length (boundary a) <=? 1)%nat then Ok marker
  else
    let pos := sem_position (place2d_sem a) in
    let node_point := add_z (toPoint pos) (getZOffset config visualizer_config) in
    let col := makeColorMsg (sem_color (place2d_sem a)) (Some (boundary_alpha config)) in
    Ok (fold_left
          (fun marker b =>
             let boundary_point := set_z (toPoint b) (vz pos) in
             marker |> push_points [boundary_point] |> push_colors [col]
                    |> push_points [node_point] |> push_colors [col])
          (boundary a) marker).

Definition makeLayerPolygonEdges (header : Header) (config : LayerConfig)
    (layer : SceneGraphLayer) (visualizer_config : VisualizerConfig) (ns : string)
    : result Marker :=
  let marker :=
    empty_marker |> set_header header |> set_type LINE_LIST |> set_action ADD
                 |> set_id 0 |> set_ns ns
                 |> set_scale_x (boundary_wireframe_scale config)
                 |> fillPoseWithIdentity in
  for_each (nodes layer) (polygon_edges_node config visualizer_config) marker.

Definition polygon_boundary_step (z : R) (col : ColorRGBA) (st : Marker * Point)
    (b : Vector3d) : Marker * Point :=
  let '(marker, last_point) := st in
  let marker := marker |> push_points [last_point] |> push_colors [col] in
  let last_point := set_z (toPoint b) z in
  (marker |> push_points [last_point] |> push_colors [col], last_point).

Definition polygon_boundary_node (config : LayerConfig) (marker : Marker)
    (node : SceneGraphNode) : result Marker :=
  a ← attributes_Place2d node;
  if (length (boundary a) <=? 1)%nat then Ok marker
  else
    let pos := sem_position (place2d_sem a) in
    let col :=
      if boundary_use_node_color config
      then makeColorMsg (sem_color (place2d_sem a)) (Some (boundary_alpha config))
      else makeColorMsg Color_default (Some (boundary_alpha config)) in
    (* boundary.back() *)
    let last_point := set_z (toPoint (List.last (boundary a) pos)) (vz pos) in
    Ok (fst (fold_left (polygon_boundary_step (vz pos) col) (boundary a)
                       (marker, last_point))).

Definition makeLayerPolygonBoundaries (header : Header) (config : LayerConfig)
    (layer : SceneGraphLayer) (visualizer_config : VisualizerConfig) (ns : string)
    : result Marker :=
  let marker :=
    empty_marker |> set_header header |> set_type LINE_LIST |> set_action ADD
                 |> set_id 0 |> set_ns ns
                 |> set_scale_x (boundary_wireframe_scale config)
                 |> fillPoseWithIdentity
                 |> shift_pose_z (if collapse_boundary config then 0%R
                                  else getZOffset config visualizer_config) in
  for_each (nodes layer) (polygon_boundary_node config) marker.

(** ** Bounding boxes *)

(* an Eigen::MatrixXf with three rows, read column by column *)
Record MatrixXf : Type := { cols : nat; column : nat -> Vector3d }.

(* Eigen::MatrixXf corners(3, 8) *)
Definition new_corners : MatrixXf :=
  {| cols := 8; column := fun _ => {| vx := 0; vy := 0; vz := 0 |} |}.

Definition getPointFromMatrix (matrix : MatrixXf) (col : Z) : Point :=
  toPoint (column matrix (Z.to_nat col)).

Definition remapping : list nat := [0; 1; 3; 2; 4; 5; 7; 6]%nat.

Definition fillCornersFromBbox (bbox : BoundingBox) (corners : MatrixXf) : MatrixXf :=
  {| cols := cols corners;
     column := fun i =>
       if (i <? 8)%nat then corner_array bbox (nth i remapping 0%nat)
       else column corners i |}.

(* if (c != neighbor) { push c; push neighbor } *)
Definition add_wire (corners : MatrixXf) (col : ColorRGBA) (c neighbor : Z)
    (marker : Marker) : Marker :=
  if bool_decide (c <> neighbor) then
    marker |> push_points [getPointFromMatrix corners c] |> push_colors [col]
           |> push_points [getPointFromMatrix corners neighbor] |> push_colors [col]
  else marker.

Definition addWireframeToMarker (corners : MatrixXf) (col : ColorRGBA) (marker : Marker)
    : Marker :=
  fold_left
    (fun marker c =>
       (* edges are 1-bit pertubations *)
       let x_neighbor := Z.lor c 1 in
       let y_neighbor := Z.lor c 2 in
       let z_neighbor := Z.lor c 4 in
       marker |> add_wire corners col c x_neighbor
              |> add_wire corners col c y_neighbor
              |> add_wire corners col c z_neighbor)
    (map Z.of_nat (seq 0 (cols corners))) marker.

Definition addEdgesToCorners (corners : MatrixXf) (node_centroid : Point)
    (col : ColorRGBA) (marker : Marker) : Marker :=
  marker |> push_colors (repeat col 8)
         (* top box corners are 4, 5, 6, 7 *)
         |> push_points [node_centroid; getPointFromMatrix corners 4]
         |> push_points [node_centroid; getPointFromMatrix corners 5]
         |> push_points [node_centroid; getPointFromMatrix corners 6]
         |> push_points [node_centroid; getPointFromMatrix corners 7].

Definition edges_to_bbox_node (config : LayerConfig) (visualizer_config : VisualizerConfig)
    (func : ColorFunction) (filter : FilterFunction)
    (marker : Marker) (node : SceneGraphNode) : result Marker :=
  if rejects filter node then Ok marker
  else
    a ← attributes_Semantic node;
    let col := makeColorMsg (func node) (Some (bounding_box_alpha config)) in
    let corners := fillCornersFromBbox (bounding_box a) new_corners in
    let node_centroid :=
      add_z (toPoint (sem_position a)) (getZOffset config visualizer_config) in
    let center_point :=
      add_z (toPoint (sem_position a))
            (mesh_edge_break_ratio visualizer_config
             * getZOffset config visualizer_config)%R in
    Ok (marker |> push_points [node_centroid] |> push_colors [col]
               |> push_points [center_point] |> push_colors [col]
               |> addEdgesToCorners corners center_point col).

Definition makeEdgesToBoundingBoxes (header : Header) (config : LayerConfig)
    (layer : SceneGraphLayer) (visualizer_config : VisualizerConfig) (ns : string)
    (func : ColorFunction) (filter : FilterFunction) : result Marker :=
  let marker :=
    empty_marker |> set_header header |> set_type LINE_LIST |> set_action ADD
                 |> set_id 0 |> set_ns ns
                 |> set_scale_x (bbox_wireframe_edge_scale config)
                 |> fillPoseWithIdentity in
  for_each (nodes layer) (edges_to_bbox_node config visualizer_config func filter) marker.

Definition wireframe_node (config : LayerConfig) (func : ColorFunction)
    (filter : FilterFunction) (marker : Marker) (node : SceneGraphNode)
    : result Marker :=
  if rejects filter node then Ok marker
  else
    a ← attributes_Semantic node;
    let col := makeColorMsg (func node) (Some (bounding_box_alpha config)) in
    let corners := fillCornersFromBbox (bounding_box a) new_corners in
    Ok (addWireframeToMarker corners col marker).

Definition makeLayerWireframeBoundingBoxes (header : Header) (config : LayerConfig)
    (layer : SceneGraphLayer) (visualizer_config : VisualizerConfig) (ns : string)
    (func : ColorFunction) (filter : FilterFunction) : result Marker :=
  let marker :=
    empty_marker |> set_header header |> set_type LINE_LIST |> set_action ADD
                 |> set_id 0 |> set_ns ns
                 |> set_scale_x (bbox_wireframe_scale config)
                 |> fillPoseWithIdentity
                 |> shift_pose_z (if collapse_bounding_box config then 0%R
                                  else getZOffset config visualizer_config) in
  for_each (nodes layer) (wireframe_node config func filter) marker.

Definition makeBoundingBoxMarker (header : Header) (config : LayerConfig)
    (node : SceneGraphNode) (visualizer_config : VisualizerConfig) (ns : string)
    (func : ColorFunction) : result Marker :=
  let marker :=
    empty_marker |> set_header header |> set_type CUBE |> set_action ADD
                 |> set_id (to_int32 (node_id node)) |> set_ns ns
                 |> set_color (makeColorMsg (func node) (Some (bounding_box_alpha config))) in
  a ← attributes_Semantic node;
  let bbox := bounding_box a in
  Ok (marker |> set_pose {| position := toPoint (world_P_center bbox);
                            orientation := world_q_center bbox |}
             |> shift_pose_z (if collapse_bounding_box config then 0%R
                              else getZOffset config visualizer_config)
             |> set_scale (dimensions bbox)).

(** ** Labels *)

(* marker.pose.position = p, the orientation untouched *)
Definition set_position (p : Point) (m : Marker) : Marker :=
  set_pose {| position := p; orientation := orientation (pose m) |} m.

(** [draw] is the sample that the process-wide generator hands out, a value
    of the uniform distribution on [-1, 1]; it is read only when
    [add_label_jitter] is set. *)
Definition makeTextMarker (header : Header) (config : LayerConfig)
    (node : SceneGraphNode) (visualizer_config : VisualizerConfig) (ns : string)
    (draw : R) : Marker :=
  let marker :=
    empty_marker |> set_header header |> set_ns ns
                 |> set_id (to_int32 (node_id node))
                 |> set_type TEXT_VIEW_FACING |> set_action ADD
                 |> set_lifetime 0 in
  (* try { name = ...name; } catch (const std::exception&) {} *)
  let name_ :=
    match attributes_Semantic node with
    | Ok a => name a
    | Raise _ => ""%string
    end in
  let marker :=
    marker |> set_text (if String.eqb name_ "" then getLabel (node_id node) else name_)
           |> set_scale_z (label_scale config)
           |> set_color (makeColorMsg Color_default None)
           |> fillPoseWithIdentity
           |> set_position (toPoint (attributes_position node))
           |> shift_pose_z (getZOffset config visualizer_config + label_height config)%R in
  if add_label_jitter config then
    let z_jitter := (label_jitter_scale config * draw)%R in
    marker |> shift_pose_z z_jitter
  else marker.

(** ** Ellipsoids and centroids *)

Definition ellipsoid_node (header : Header) (config : LayerConfig)
    (visualizer_config : VisualizerConfig) (ns : string) (color_func : ColorFunction)
    (st : Z * list Marker) (node : SceneGraphNode) : result (Z * list Marker) :=
  let '(id, markers) := st in
  a ← attributes_Place node;
  if real_place a then Ok st
  else
    let marker :=
      empty_marker |> set_header header |> set_type SPHERE |> set_action ADD
                   |> set_id (to_int32 id) |> set_ns ns
                   |> set_scale (frontier_scale a)
                   |> set_pose {| position := toPoint (sem_position (place_sem a));
                                  orientation := place_orientation a |}
                   |> shift_pose_z (getZOffset config visualizer_config)
                   |> set_color (makeColorMsg (color_func node) (Some (marker_alpha config))) in
    let desired_color := color_func node in
    let marker := marker |> push_colors [makeColorMsg desired_color (Some (marker_alpha config))] in
    Ok ((id + 1)%Z, markers ++ [marker]).

Definition makeEllipsoidMarkers (header : Header) (config : LayerConfig)
    (layer : SceneGraphLayer) (visualizer_config : VisualizerConfig) (ns : string)
    (color_func : ColorFunction) : result (list Marker) :=
  st ← for_each (nodes layer)
         (ellipsoid_node header config visualizer_config ns color_func) (0%Z, []);
  Ok (snd st).

Definition centroid_base (header : Header) (config : LayerConfig) (ns : string) : Marker :=
  empty_marker |> set_header header
               |> set_type (if use_sphere_marker config then SPHERE_LIST else CUBE_LIST)
               |> set_action ADD |> set_id 0 |> set_ns ns
               |> set_scale {| vx := marker_scale config; vy := marker_scale config;
                               vz := marker_scale config |}
               |> fillPoseWithIdentity.

Definition makeCentroidMarkers (header : Header) (config : LayerConfig)
    (layer : SceneGraphLayer) (visualizer_config : VisualizerConfig) (ns : string)
    (color_func : ColorFunction) (filter : FilterFunction) : Marker :=
  fold_left
    (fun marker node =>
       if rejects filter node then marker
       else
         let node_centroid :=
           add_z (toPoint (attributes_position node))
                 (getZOffset config visualizer_config) in
         let desired_color := color_func node in
         marker |> push_points [node_centroid]
                |> push_colors [makeColorMsg desired_color (Some (marker_alpha config))])
    (nodes layer) (centroid_base header config ns).

Definition place_centroid_node (config : LayerConfig) (visualizer_config : VisualizerConfig)
    (color_func : ColorFunction) (marker : Marker) (node : SceneGraphNode)
    : result Marker :=
  a ← attributes_Place node;
  if negb (real_place a) then Ok marker
  else
    let node_centroid :=
      add_z (toPoint (sem_position (place_sem a))) (getZOffset config visualizer_config) in
    let desired_color := color_func node in
    Ok (marker |> push_points [node_centroid]
               |> push_colors [makeColorMsg desired_color (Some (marker_alpha config))]).

Definition makePlaceCentroidMarkers (header : Header) (config : LayerConfig)
    (layer : SceneGraphLayer) (visualizer_config : VisualizerConfig) (ns : string)
    (color_func : ColorFunction) : result Marker :=
  for_each (nodes layer) (place_centroid_node config visualizer_config color_func)
           (centroid_base header config ns).

(** ** Inter-layer edges *)

Definition makeNewEdgeList (header : Header) (config : LayerConfig) (ns_prefix : string)
    (source target : LayerId) : Marker :=
  empty_marker |> set_header header |> set_type LINE_LIST |> set_action ADD
               |> set_id 0
               |> set_ns (ns_prefix ++ to_string source ++ "_" ++ to_string target)%string
               |> set_scale_x (interlayer_edge_scale config)
               |> fillPoseWithIdentity.

Definition shouldVisualize (graph : DynamicSceneGraph) (node : SceneGraphNode)
    (configs : gmap Z LayerConfig) (dynamic_configs : gmap Z DynamicLayerConfig) : bool :=
  if isDynamic graph (node_id node) then
    match dynamic_configs !! node_layer node with
    | Some c => dyn_visualize c && visualize_interlayer_edges c
    | None => false
    end
  else
    match configs !! node_layer node with
    | Some c => visualize c
    | None => false
    end.

Definition getConfigLayer (graph : DynamicSceneGraph) (source target : SceneGraphNode)
    : LayerId :=
  if isDynamic graph (node_id source) then node_layer source else node_layer target.

(** The two maps of an aggregation pass. *)
Record EdgeState : Type := {
  layer_markers : gmap Z Marker;
  num_since_last_insertion : gmap Z nat
}.

Definition no_edges : EdgeState :=
  {| layer_markers := ∅; num_since_last_insertion := ∅ |}.

(* num_since_last_insertion[layer], read *)
Definition since (st : EdgeState) (l : LayerId) : nat :=
  default 0%nat (num_since_last_insertion st !! l).

Definition set_since (l : LayerId) (n : nat) (st : EdgeState) : EdgeState :=
  {| layer_markers := layer_markers st;
     num_since_last_insertion := <[l := n]> (num_since_last_insertion st) |}.

Definition set_marker (l : LayerId) (m : Marker) (st : EdgeState) : EdgeState :=
  {| layer_markers := <[l := m]> (layer_markers st);
     num_since_last_insertion := num_since_last_insertion st |}.

Definition dynamic_edge_step (header : Header) (graph : DynamicSceneGraph)
    (configs : gmap Z LayerConfig) (dynamic_configs : gmap Z DynamicLayerConfig)
    (visualizer_config : VisualizerConfig) (ns_prefix : string)
    (st : EdgeState) (edge : SceneGraphEdge) : result EdgeState :=
  let source := getNode graph (edge_source edge) in
  let target := getNode graph (edge_target edge) in
  if negb (shouldVisualize graph source configs dynamic_configs) then Ok st
  else if negb (shouldVisualize graph target configs dynamic_configs) then Ok st
  else
    config ← map_at dynamic_configs (getConfigLayer graph source target);
    let num_between_insertions := dyn_interlayer_edge_insertion_skip config in
    st ← (if bool_decide (layer_markers st !! node_layer source = None) then
            source_config ← map_at configs (node_layer source);
            Ok (st |> set_marker (node_layer source)
                        (makeNewEdgeList header source_config ns_prefix
                                         (node_layer source) (node_layer target)
                         |> set_color (makeColorMsg Color_default (Some (edge_alpha config))))
                   (* make sure we always draw at least one edge *)
                   |> set_since (node_layer source) num_between_insertions)
          else Ok st);
    if (num_between_insertions <=? since st (node_layer source))%nat then
      let st := set_since (node_layer source) 0 st in
      marker ← map_at (layer_markers st) (node_layer source);
      source_config ← map_at configs (node_layer source);
      let source_point :=
        add_z (toPoint (attributes_position source))
              (getZOffset source_config visualizer_config) in
      let marker := marker |> push_points [source_point] in
      target_config ← map_at configs (node_layer target);
      let target_point :=
        add_z (toPoint (attributes_position target))
              (getZOffset target_config visualizer_config) in
      let marker := marker |> push_points [target_point] in
      Ok (set_marker (node_layer source) marker st)
    else
      Ok (set_since (node_layer source) (S (since st (node_layer source))) st).

Definition dynamic_edge_pass (header : Header) (graph : DynamicSceneGraph)
    (configs : gmap Z LayerConfig) (dynamic_configs : gmap Z DynamicLayerConfig)
    (visualizer_config : VisualizerConfig) (ns_prefix : string)
    (es : list SceneGraphEdge) : result EdgeState :=
  for_each es
    (dynamic_edge_step header graph configs dynamic_configs visualizer_config ns_prefix)
    no_edges.

Definition makeDynamicGraphEdgeMarkers (header : Header) (graph : DynamicSceneGraph)
    (configs : gmap Z LayerConfig) (dynamic_configs : gmap Z DynamicLayerConfig)
    (visualizer_config : VisualizerConfig) (ns_prefix : string) : result MarkerArray :=
  st ← dynamic_edge_pass header graph configs dynamic_configs visualizer_config
         ns_prefix (dynamic_interlayer_edges graph);
  Ok (in_key_order (layer_markers st)).

Definition graph_edge_step (header : Header) (graph : DynamicSceneGraph)
    (configs : gmap Z LayerConfig) (visualizer_config : VisualizerConfig)
    (ns_prefix : string) (filter : FilterFunction)
    (st : EdgeState) (edge : SceneGraphEdge) : result EdgeState :=
  let source := getNode graph (edge_source edge) in
  let target := getNode graph (edge_target edge) in
  if rejects filter source then Ok st
  else if rejects filter target then Ok st
  else
    match configs !! node_layer source, configs !! node_layer target with
    | Some source_config, Some target_config =>
      if negb (visualize source_config) then Ok st
      else if negb (visualize target_config) then Ok st
      else
        let num_between_insertions := interlayer_edge_insertion_skip source_config in
        (* parent is always source *)
        let st :=
          if bool_decide (layer_markers st !! node_layer source = None) then
            st |> set_marker (node_layer source)
                    (makeNewEdgeList header source_config ns_prefix
                                     (node_layer source) (node_layer target))
               (* make sure we always draw at least one edge *)
               |> set_since (node_layer source) num_between_insertions
          else st in
        if (num_between_insertions <=? since st (node_layer source))%nat then
          let st := set_since (node_layer source) 0 st in
          marker ← map_at (layer_markers st) (node_layer source);
          let source_point :=
            add_z (toPoint (attributes_position source))
                  (getZOffset source_config visualizer_config) in
          let marker := marker |> push_points [source_point] in
          let target_point :=
            add_z (toPoint (attributes_position target))
                  (getZOffset target_config visualizer_config) in
          let marker := marker |> push_points [target_point] in
          edge_color ←
            (if interlayer_edge_use_color source_config then
               if use_edge_source source_config then
                 a ← attributes_Semantic source; Ok (sem_color a)
               else
                 a ← attributes_Semantic target; Ok (sem_color a)
             else Ok Color_default);
          let marker :=
            marker
            |> push_colors [makeColorMsg edge_color (Some (intralayer_edge_alpha source_config))]
            |> push_colors [makeColorMsg edge_color (Some (intralayer_edge_alpha source_config))] in
          Ok (set_marker (node_layer source) marker st)
        else
          Ok (set_since (node_layer source) (S (since st (node_layer source))) st)
    | _, _ => Ok st
    end.

Definition graph_edge_pass (header : Header) (graph : DynamicSceneGraph)
    (configs : gmap Z LayerConfig) (visualizer_config : VisualizerConfig)
    (ns_prefix : string) (filter : FilterFunction) (es : list SceneGraphEdge)
    : result EdgeState :=
  for_each es (graph_edge_step header graph configs visualizer_config ns_prefix filter)
    no_edges.

Definition makeGraphEdgeMarkers (header : Header) (graph : DynamicSceneGraph)
    (configs : gmap Z LayerConfig) (visualizer_config : VisualizerConfig)
    (ns_prefix : string) (filter : FilterFunction) : result MarkerArray :=
  st ← graph_edge_pass header graph configs visualizer_config ns_prefix filter
         (interlayer_edges graph);
  Ok (in_key_order (layer_markers st)).

(** ** Mesh-connection fans *)

(* the loop over the mesh connections: the state is the running count [i]
   and the marker *)
Definition mesh_fan_step (config : LayerConfig) (visualizer_config : VisualizerConfig)
    (mesh : Mesh) (center_point : Point) (node_color : Color)
    (st : nat * Marker) (midx : nat) : nat * Marker :=
  let '(i, marker) := st in
  let i := S i in
  if negb ((i - 1) mod (interlayer_edge_insertion_skip config + 1) =? 0)%nat
  then (i, marker)
  else if (numVertices mesh <=? midx)%nat then (i, marker)
  else
    let vertex := toPoint (mesh_pos mesh midx) in
    let vertex :=
      if negb (collapse_layers visualizer_config)
      then add_z vertex (mesh_layer_offset visualizer_config) else vertex in
    let marker := marker |> push_points [center_point] |> push_points [vertex] in
    let marker :=
      if interlayer_edge_use_color config then
        marker |> push_colors [makeColorMsg node_color (Some (interlayer_edge_alpha config))]
               |> push_colors [makeColorMsg node_color (Some (interlayer_edge_alpha config))]
      else
        marker |> push_colors [makeColorMsg Color_default (Some (interlayer_edge_alpha config))]
               |> push_colors [makeColorMsg Color_default (Some (interlayer_edge_alpha config))] in
    (i, marker).

Definition mesh_edges_node (config : LayerConfig) (visualizer_config : VisualizerConfig)
    (mesh : Mesh) (marker : Marker) (node : SceneGraphNode) : result Marker :=
  a ← attributes_Place2d node;
  let mesh_edge_indices := pcl_mesh_connections a in
  if bool_decide (mesh_edge_indices = []) then Ok marker
  else
    let pos := sem_position (place2d_sem a) in
    let center_point :=
      add_z (toPoint pos)
            (mesh_edge_break_ratio visualizer_config
             * getZOffset config visualizer_config)%R in
    let centroid_location := add_z (toPoint pos) (getZOffset config visualizer_config) in
    (* make first edge *)
    let marker := marker |> push_points [centroid_location] |> push_points [center_point] in
    let marker :=
      if interlayer_edge_use_color config then
        marker |> push_colors [makeColorMsg (sem_color (place2d_sem a))
                                            (Some (interlayer_edge_alpha config))]
               |> push_colors [makeColorMsg (sem_color (place2d_sem a))
                                            (Some (interlayer_edge_alpha config))]
      else
        marker |> push_colors [makeColorMsg Color_default (Some (interlayer_edge_alpha config))]
               |> push_colors [makeColorMsg Color_default (Some (interlayer_edge_alpha config))] in
    Ok (snd (fold_left
               (mesh_fan_step config visualizer_config mesh center_point
                              (sem_color (place2d_sem a)))
               mesh_edge_indices (0%nat, marker))).

Definition makeMeshEdgesMarker (header : Header) (config : LayerConfig)
    (visualizer_config : VisualizerConfig) (graph : DynamicSceneGraph)
    (layer : SceneGraphLayer) (ns : string) : result Marker :=
  let marker :=
    empty_marker |> set_header header |> set_type LINE_LIST |> set_action ADD
                 |> set_id 0 |> set_ns ns
                 |> set_scale_x (interlayer_edge_scale config)
                 |> fillPoseWithIdentity in
  match graph_mesh graph with
  | None => Ok marker
  | Some mesh =>
    for_each (nodes layer) (mesh_edges_node config visualizer_config mesh) marker
  end.

(** ** GVD wireframe *)

(* a color callback that may throw *)
Definition ThrowingColorFunction : Type := SceneGraphNode -> result Color.

Definition makeGvdWireframe (header : Header) (config : LayerConfig)
    (layer : SceneGraphLayer) (ns : string) (color_func : ThrowingColorFunction)
    (marker_id : Z) : result MarkerArray :=
  let edges_marker :=
    empty_marker |> set_header header |> set_type LINE_LIST
                 |> set_id (to_int32 marker_id) |> set_ns (ns ++ "_edges")%string
                 |> set_action ADD
                 |> set_scale_x (intralayer_edge_scale config)
                 |> fillPoseWithIdentity in
  let nodes_marker :=
    empty_marker |> set_header header |> set_type SPHERE_LIST
                 |> set_id (to_int32 marker_id) |> set_ns (ns ++ "_nodes")%string
                 |> set_action ADD
                 |> set_scale {| vx := intralayer_edge_scale config;
                                 vy := intralayer_edge_scale config;
                                 vz := intralayer_edge_scale config |}
                 |> fillPoseWithIdentity in
  if bool_decide (nodes layer = []) then Ok []
  else
    nodes_marker ←
      for_each (nodes layer)
        (fun m node =>
           let node_centroid := toPoint (attributes_position node) in
           desired_color ← color_func node;
           Ok (m |> push_points [node_centroid]
                 |> push_colors [makeColorMsg desired_color (Some (marker_alpha config))]))
        nodes_marker;
    if bool_decide (edges layer = []) then Ok [nodes_marker]
    else
      edges_marker ←
        for_each (edges layer)
          (fun m edge =>
             let source_node := layer_getNode layer (edge_source edge) in
             let target_node := layer_getNode layer (edge_target edge) in
             let m := m |> push_points [toPoint (attributes_position source_node)]
                        |> push_points [toPoint (attributes_position target_node)] in
             source_color ← color_func source_node;
             let m := m |> push_colors [makeColorMsg source_color
                                                     (Some (marker_alpha config))] in
             target_color ← color_func target_node;
             Ok (m |> push_colors [makeColorMsg target_color
                                                (Some (marker_alpha config))]))
          edges_marker;
      Ok [nodes_marker; edges_marker].

(* the overload that colors by the distance of a place *)
Definition makeGvdWireframe_cmap (header : Header) (config : LayerConfig)
    (visualizer_config : VisualizerConfig) (layer : SceneGraphLayer) (ns : string)
    (colors : ColormapConfig) (marker_id : Z) : result MarkerArray :=
  makeGvdWireframe header config layer ns
    (fun node =>
       a ← attributes_Place node;
       Ok (getDistanceColor visualizer_config colors (distance a)))
    marker_id.

(** ** Intra-layer edges *)

(** How the [while] loop of [makeLayerEdgeMarkers] can end. *)
Inductive loop_outcome : Type :=
| Returned (marker : Marker)
| StillRunning        (* the step budget ran out *)
| AdvancedPastEnd.    (* std::advance moved the iterator beyond end() *)

(** [cursor] is the position of [edge_iter] in [layer.edges()]; the position
    [length (edges layer)] is [end()]. *)
Fixpoint layer_edge_loop (steps : nat) (config : LayerConfig) (layer : SceneGraphLayer)
    (visualizer_config : VisualizerConfig) (color_func : EdgeColorFunction)
    (filter : FilterFunction) (cursor : nat) (marker : Marker) : loop_outcome :=
  match steps with
  | O => StillRunning
  | S steps =>
    if (cursor =? length (edges layer))%nat then Returned marker
    else match edges layer !! cursor with
    | None => AdvancedPastEnd
    | Some edge =>
      let source_node := layer_getNode layer (edge_source edge) in
      let target_node := layer_getNode layer (edge_target edge) in
      if rejects filter source_node || rejects filter target_node then
        (* continue *)
        layer_edge_loop steps config layer visualizer_config color_func filter
                        cursor marker
      else
        let source_point :=
          add_z (toPoint (attributes_position source_node))
                (getZOffset config visualizer_config) in
        let marker := marker |> push_points [source_point] in
        let target_point :=
          add_z (toPoint (attributes_position target_node))
                (getZOffset config visualizer_config) in
        let marker := marker |> push_points [target_point] in
        let marker :=
          marker
          |> push_colors [makeColorMsg (color_func source_node target_node edge true)
                                       (Some (intralayer_edge_alpha config))]
          |> push_colors [makeColorMsg (color_func source_node target_node edge false)
                                       (Some (intralayer_edge_alpha config))] in
        let cursor := (cursor + (intralayer_edge_insertion_skip config + 1))%nat in
        if (length (edges layer) <? cursor)%nat then AdvancedPastEnd
        else layer_edge_loop steps config layer visualizer_config color_func filter
                             cursor marker
    end
  end.

Definition makeLayerEdgeMarkers (steps : nat) (header : Header) (config : LayerConfig)
    (layer : SceneGraphLayer) (visualizer_config : VisualizerConfig) (ns : string)
    (color_func : EdgeColorFunction) (filter : FilterFunction) : loop_outcome :=
  let marker :=
    empty_marker |> set_header header |> set_type LINE_LIST |> set_id 0 |> set_ns ns
                 |> set_action ADD
                 |> set_scale_x (intralayer_edge_scale config)
                 |> fillPoseWithIdentity in
  layer_edge_loop steps config layer visualizer_config color_func filter 0 marker.

(* the overload with one color for all edges *)
Definition makeLayerEdgeMarkers_color (steps : nat) (header : Header)
    (config : LayerConfig) (layer : SceneGraphLayer)
    (visualizer_config : VisualizerConfig) (col : Color) (ns : string)
    (filter : FilterFunction) : loop_outcome :=
  makeLayerEdgeMarkers steps header config layer visualizer_config ns
    (fun _ _ _ _ => col) filter.

(* the overload that colors an edge by its weight *)
Definition makeLayerEdgeMarkers_cmap (steps : nat) (header : Header)
    (config : LayerConfig) (layer : SceneGraphLayer)
    (visualizer_config : VisualizerConfig) (cmap : ColormapConfig) (ns : string)
    (filter : FilterFunction) : loop_outcome :=
  makeLayerEdgeMarkers steps header config layer visualizer_config ns
    (fun _ _ edge _ => getDistanceColor visualizer_config cmap (weight edge)) filter.

(** ** Dynamic layers *)

Definition makeDynamicCentroidMarkers (header : Header) (config : DynamicLayerConfig)
    (layer : DynamicSceneGraphLayer) (layer_offset_scale : R)
    (visualizer_config : VisualizerConfig) (ns : string)
    (color_func : ColorFunction) (marker_id : Z) : Marker :=
  let marker :=
    empty_marker |> set_header header
                 |> set_type (if node_use_sphere config then SPHERE_LIST else CUBE_LIST)
                 |> set_action ADD |> set_ns ns |> set_id (to_int32 marker_id)
                 |> set_scale {| vx := node_scale config; vy := node_scale config;
                                 vz := node_scale config |}
                 |> fillPoseWithIdentity in
  fold_left
    (fun marker node =>
       match node with
       | None => marker
       | Some node =>
         let node_centroid :=
           add_z (toPoint (attributes_position node))
                 (getZOffset_scale layer_offset_scale visualizer_config) in
         marker |> push_points [node_centroid]
                |> push_colors [makeColorMsg (color_func node) (Some (node_alpha config))]
       end)
    (dyn_nodes layer) marker.

(* the overload with one color for all nodes *)
Definition makeDynamicCentroidMarkers_color (header : Header)
    (config : DynamicLayerConfig) (layer : DynamicSceneGraphLayer)
    (visualizer_config : VisualizerConfig) (col : Color) (ns : string)
    (marker_id : Z) : Marker :=
  makeDynamicCentroidMarkers header config layer (z_offset_scale config)
    visualizer_config ns (fun _ => col) marker_id.

Definition makeDynamicEdgeMarkers (header : Header) (config : DynamicLayerConfig)
    (layer : DynamicSceneGraphLayer) (visualizer_config : VisualizerConfig)
    (col : Color) (ns : string) (marker_id : Z) : Marker :=
  let marker :=
    empty_marker |> set_header header |> set_type LINE_LIST |> set_ns ns
                 |> set_id (to_int32 marker_id) |> set_action ADD
                 |> set_scale_x (edge_scale config)
                 |> set_color (makeColorMsg col (Some (edge_alpha config)))
                 |> fillPoseWithIdentity in
  fold_left
    (fun marker edge =>
       let source_point :=
         add_z (toPoint (getPosition layer (edge_source edge)))
               (getZOffset_scale (z_offset_scale config) visualizer_config) in
       let marker := marker |> push_points [source_point] in
       let target_point :=
         add_z (toPoint (getPosition layer (edge_target edge)))
               (getZOffset_scale (z_offset_scale config) visualizer_config) in
       marker |> push_points [target_point])
    (dyn_edges layer) marker.

(* size_t arithmetic: a - b modulo 2^64 *)
Definition size_t_sub (a b : Z) : Z := ((a - b) mod 2 ^ 64)%Z.

Definition dyn_numNodes (layer : DynamicSceneGraphLayer) : Z :=
  Z.of_nat (length (dyn_nodes layer)).

(** Modelled from the spec: the dynamic layer's index-to-position lookup by
    sequence order, [getPositionByIndex], which spark_dsg defines.  It yields
    the position of the node stored at that index; an index that holds no
    node has no position, and the lookup throws. *)
Definition getPositionByIndex (layer : DynamicSceneGraphLayer) (node_index : Z)
    : result Vector3d :=
  match dyn_nodes layer !! Z.to_nat node_index with
  | Some (Some node) => Ok (attributes_position node)
  | _ => Raise out_of_range
  end.

Definition makeDynamicLabelMarker (header : Header) (config : DynamicLayerConfig)
    (layer : DynamicSceneGraphLayer) (visualizer_config : VisualizerConfig)
    (ns : string) (marker_id : Z) : result Marker :=
  let marker :=
    empty_marker |> set_header header |> set_type TEXT_VIEW_FACING |> set_ns ns
                 |> set_id (to_int32 marker_id) |> set_action ADD
                 |> set_lifetime 0
                 |> set_text "Agent"
                 |> set_scale_z (dyn_label_scale config)
                 |> set_color (makeColorMsg Color_default None) in
  latest_position ← getPositionByIndex layer (size_t_sub (dyn_numNodes layer) 1);
  Ok (marker |> fillPoseWithIdentity
             |> set_position (toPoint latest_position)
             |> shift_pose_z (getZOffset_scale (z_offset_scale config) visualizer_config
                              + dyn_label_height config)%R).

(** ** Labels named through the parameter store *)

#[local] Set Warnings "-register-all".
Inductive XmlRpcValue : Type :=
| TypeInvalid
| TypeInt (n : Z)
| TypeString (s : string)
| TypeArray (items : list XmlRpcValue)
| TypeStruct (members : list (string * XmlRpcValue))
| TypeOther.

(* what the builder reads of the node handle: the value stored under
   /label_names, if any *)
Record NodeHandle : Type := { label_names_param : option XmlRpcValue }.

Definition member (key : string) (members : list (string * XmlRpcValue))
    : option XmlRpcValue :=
  snd <$> List.find (fun kv => String.eqb (fst kv) key) members.

(* static_cast<int>(value): a value without a type becomes the integer 0,
   a value of another type throws *)
Definition as_int (v : XmlRpcValue) : result Z :=
  match v with
  | TypeInt n => Ok n
  | TypeInvalid => Ok 0%Z
  | _ => Raise xmlrpc_error
  end.
(* static_cast<std::string>(value): a value without a type becomes the empty
   string, a value of another type throws *)
Definition as_string (v : XmlRpcValue) : result string :=
  match v with
  | TypeString s => Ok s
  | TypeInvalid => Ok ""%string
  | _ => Raise xmlrpc_error
  end.

(* the search through label_names; [Some text] once a label matched *)
Fixpoint find_label_name (semantic_label : Z) (items : list XmlRpcValue)
    : result (option string) :=
  match items with
  | [] => Ok None
  | item :: items =>
    match item with
    | TypeStruct members =>
      match member "label" members, member "name" members with
      | Some label, Some name_ =>
        label_id ← as_int label;
        name_ ← as_string name_;
        if (label_id =? semantic_label)%Z then Ok (Some name_)
        else find_label_name semantic_label items
      | _, _ => find_label_name semantic_label items
      end
    | _ => find_label_name semantic_label items
    end
  end.

(** The marker and the parameter that [nh.setParam] writes. *)
Definition makeTextMarkerNoHeight (header : Header) (config : LayerConfig)
    (node : SceneGraphNode) (ns : string) (nh : NodeHandle)
    : result (Marker * (string * string)) :=
  let marker :=
    empty_marker |> set_header header |> set_ns ns
                 |> set_id (to_int32 (node_id node))
                 |> set_type TEXT_VIEW_FACING |> set_action ADD
                 |> set_lifetime 0 in
  a ← attributes_Semantic node;
  let semantic_label := semantic_label a in
  let unique_id := name a in
  let unique_id :=
    match regex_search_object_number unique_id with
    | Some digits => digits
    | None => unique_id
    end in
  let label_names := default TypeInvalid (label_names_param nh) in
  found ←
    match label_names with
    | TypeArray items => find_label_name semantic_label items
    | _ => Ok None
    end;
  let label_text := default "Unknown"%string found in
  let marker :=
    marker |> set_text (label_text ++ "(" ++ unique_id ++ ")")%string
           |> set_scale_z (label_scale config)
           |> set_color (makeColorMsg Color_default None) in
  let param_key := ("/semantic_labels/" ++ unique_id)%string in
  Ok (marker |> fillPoseWithIdentity
             |> set_position (toPoint (attributes_position node))
             |> shift_pose_z (label_height config),
      (param_key, label_text)).

End Builders.

(** * Vocabulary of the properties *)

(** ** Wireframes *)

(* the corner pairs that the loop body joins at corner [c] *)
Definition corner_wires (c : Z) : list (Z * Z) :=
  filter (fun p => p.1 <> p.2) [(c, Z.lor c 1); (c, Z.lor c 2); (c, Z.lor c 4)].

(* the corner pairs joined for a matrix of [n] columns, in emission order *)
Definition wireframe_pairs (n : nat) : list (Z * Z) :=
  flat_map corner_wires (map Z.of_nat (seq 0 n)).

(* the two vertices of a line segment between two corners *)
Definition segment_points (corners : MatrixXf) (p : Z * Z) : list Point :=
  [getPointFromMatrix corners p.1; getPointFromMatrix corners p.2].

(* an edge without its direction *)
Definition undirected (p : Z * Z) : Z * Z := (Z.min p.1 p.2, Z.max p.1 p.2).

(* in how many of the three sign bits two corner indices differ *)
Definition bits_differing (a b : Z) : nat :=
  length (filter (fun i => Z.testbit a i <> Z.testbit b i) [0; 1; 2]%Z).

Definition corner_indices : list Z := map Z.of_nat (seq 0 8).


(** ** Ellipse boundaries *)

Definition is_place2d (n : SceneGraphNode) : Prop :=
  exists a, attrs n = Place2dAttrs a.

(* the 2D-place attributes with more than one boundary point, in node order *)
Definition places_with_boundary (l : list SceneGraphNode) : list Place2dNodeAttributes :=
  flat_map
    (fun n =>
       match attrs n with
       | Place2dAttrs a => if (length (boundary a) <=? 1)%nat then [] else [a]
       | _ => []
       end) l.

(* the sampled points of one ellipse: sample 0 is the first point, sample
   [ix] the point at the angle that the float ix * 2 * M_PI / npts stands
   for *)
Definition ellipse_sample (a : Place2dNodeAttributes) (ix : nat) : Point :=
  match ix with
  | O => ellipse_first_point a
  | S _ => ellipse_point a (ellipse_angle ix)
  end.

(* the line segments of one ellipse: from each sample to the next *)
Definition ellipse_segments (a : Place2dNodeAttributes) : list (Point * Point) :=
  map (fun ix => (ellipse_sample a (ix - 1), ellipse_sample a ix)) (seq 1 npts).

(* the vertices of a list of segments, two per segment *)
Definition segment_vertices (segs : list (Point * Point)) : list Point :=
  flat_map (fun s => [s.1; s.2]) segs.


(* a chain of segments that returns to where it started: every segment
   starts where the one before it ended, and the last ends at the start of
   the first *)
Definition closed_chain (segs : list (Point * Point)) : Prop :=
  (forall i s t, segs !! i = Some s -> segs !! S i = Some t -> s.2 = t.1)
  /\ exists first final,
       head segs = Some first /\ last segs = Some final /\ final.2 = first.1.


(** * Sample inputs *)

(** One choice of the outside functions: colors scaled to the unit
    interval, no vertical separation of layers, decimal layer names. *)
Definition sample_collaborators : Collaborators := {|
  ColormapConfig := unit;
  interpolateColorMap := fun _ _ => Color_default;
  makeColorMsg := fun c a =>
    {| cr := IZR (red c) / 255; cg := IZR (green c) / 255; cb := IZR (blue c) / 255;
       ca := default (IZR (alpha c) / 255)%R a |}%R;
  getZOffset := fun _ _ => 0%R;
  getZOffset_scale := fun _ _ => 0%R;
  getLabel := fun _ => "n"%string;
  to_string := fun l => DecimalString.NilZero.string_of_int (Z.to_int l);
  regex_search_object_number := fun _ => None
|}.

Definition sample_header : Header := {| header_seq := 0; stamp := 0; frame_id := "world" |}.

Definition sample_layer_config (show : bool) (skip : nat) : LayerConfig := {|
  visualize := show; marker_scale := 1; marker_alpha := 1; use_sphere_marker := true;
  label_scale := 1; label_height := 1; add_label_jitter := false;
  label_jitter_scale := 0; bounding_box_alpha := 1; bbox_wireframe_scale := 1;
  bbox_wireframe_edge_scale := 1; collapse_bounding_box := false;
  boundary_wireframe_scale := 1; boundary_alpha := 1; boundary_ellipse_alpha := 1;
  boundary_use_node_color := true; collapse_boundary := false;
  interlayer_edge_scale := 1; interlayer_edge_alpha := 1;
  interlayer_edge_use_color := false; use_edge_source := true;
  interlayer_edge_insertion_skip := skip;
  intralayer_edge_scale := 1; intralayer_edge_alpha := 1;
  intralayer_edge_insertion_skip := skip
|}.

Definition sample_visualizer_config : VisualizerConfig := {|
  places_colormap_min_distance := of_Z 0;
  places_colormap_max_distance := of_Z 10;
  mesh_edge_break_ratio := 1 / 2;
  mesh_layer_offset := 0;
  collapse_layers := false
|}.

Definition origin : Vector3d := {| vx := 0; vy := 0; vz := 0 |}.

Definition sample_bbox : BoundingBox := {|
  world_P_center := origin;
  world_q_center := identity_quaternion;
  dimensions := {| vx := 1; vy := 1; vz := 1 |};
  corner_array := fun _ => origin
|}.

Definition sample_semantic (p : Vector3d) : SemanticNodeAttributes := {|
  sem_position := p; name := ""; sem_color := Color_default;
  bounding_box := sample_bbox; semantic_label := 0
|}.

(* a 2D place at the origin with the given boundary and mesh connections *)
Definition sample_place2d (b : list Vector3d) (conns : list nat) : Place2dNodeAttributes := {|
  place2d_sem := sample_semantic origin;
  boundary := b;
  ellipse_matrix_expand := {| m00 := 2; m01 := 0; m10 := 0; m11 := 1 |};
  ellipse_centroid := {| ux := 0; uy := 0 |};
  pcl_mesh_connections := conns
|}.

Definition sample_node (i : NodeId) (l : LayerId) (a : NodeAttributes) : SceneGraphNode :=
  {| node_id := i; node_layer := l; attrs := a |}.
Arguments sample_node (i l)%_Z_scope a.

(* three 2D places with 0, 1 and 4 boundary points *)
Definition three_places : SceneGraphLayer := {|
  nodes := [ sample_node 1 20 (Place2dAttrs (sample_place2d [] []));
             sample_node 2 20 (Place2dAttrs (sample_place2d [origin] []));
             sample_node 3 20
               (Place2dAttrs (sample_place2d [origin; origin; origin; origin] [])) ];
  edges := [];
  layer_getNode := fun i => sample_node i 20 (BaseAttrs origin)
|}.



(** ** Density reduction *)

(* draw one, skip the next [s - 1]: the items at positions 0, s, 2 s, ... *)
Definition every_nth {A : Type} (s : nat) (l : list A) : list A :=
  (filter (fun p => p.1 mod s = 0)%nat (imap pair l)).*2.

(* the quotient rounded up *)
Definition ceil_div (n d : nat) : nat := ((n + (d - 1)) / d)%nat.


(** ** Inter-layer edges *)

Section EdgeVocabulary.
Context `{Collaborators}.

Definition source_layer (graph : DynamicSceneGraph) (e : SceneGraphEdge) : LayerId :=
  node_layer (getNode graph (edge_source e)).
Definition target_layer (graph : DynamicSceneGraph) (e : SceneGraphEdge) : LayerId :=
  node_layer (getNode graph (edge_target e)).

(* an inter-layer edge qualifies when the filter accepts both ends and both
   layers are configured and visible *)
Definition qualifies (graph : DynamicSceneGraph) (configs : gmap Z LayerConfig)
    (filter : FilterFunction) (e : SceneGraphEdge) : bool :=
  negb (rejects filter (getNode graph (edge_source e)))
  && negb (rejects filter (getNode graph (edge_target e)))
  && match configs !! source_layer graph e, configs !! target_layer graph e with
     | Some sc, Some tc => visualize sc && visualize tc
     | _, _ => false
     end.

(* the qualifying edges whose source is in layer [l], in iteration order *)
Definition qualifying_from (graph : DynamicSceneGraph) (configs : gmap Z LayerConfig)
    (filter : FilterFunction) (l : LayerId) (es : list SceneGraphEdge)
    : list SceneGraphEdge :=
  base.filter (fun e => qualifies graph configs filter e = true
                        /\ source_layer graph e = l) es.

(* the two vertices drawn for an edge: each end lifted by the offset of its
   own layer *)
Definition edge_segment (graph : DynamicSceneGraph) (configs : gmap Z LayerConfig)
    (visualizer_config : VisualizerConfig) (e : SceneGraphEdge) : list Point :=
  match configs !! source_layer graph e, configs !! target_layer graph e with
  | Some sc, Some tc =>
    [add_z (toPoint (attributes_position (getNode graph (edge_source e))))
           (getZOffset sc visualizer_config);
     add_z (toPoint (attributes_position (getNode graph (edge_target e))))
           (getZOffset tc visualizer_config)]
  | _, _ => []
  end.

(* the color of a drawn edge: the one cast that may throw *)
Definition edge_color (graph : DynamicSceneGraph) (sc : LayerConfig)
    (e : SceneGraphEdge) : result Color :=
  if interlayer_edge_use_color sc then
    if use_edge_source sc then
      a ← attributes_Semantic (getNode graph (edge_source e)); Ok (sem_color a)
    else
      a ← attributes_Semantic (getNode graph (edge_target e)); Ok (sem_color a)
  else Ok Color_default.

Definition source_point (graph : DynamicSceneGraph) (visualizer_config : VisualizerConfig)
    (sc : LayerConfig) (e : SceneGraphEdge) : Point :=
  add_z (toPoint (attributes_position (getNode graph (edge_source e))))
        (getZOffset sc visualizer_config).
Definition target_point (graph : DynamicSceneGraph) (visualizer_config : VisualizerConfig)
    (tc : LayerConfig) (e : SceneGraphEdge) : Point :=
  add_z (toPoint (attributes_position (getNode graph (edge_target e))))
        (getZOffset tc visualizer_config).

(** What the aggregation pass has built for the source layer [l] once it
    has gone through the edges [es]: no batch while no edge of [l]
    qualified; afterwards one batch, named after the first qualifying edge,
    that holds every (k+1)-th qualifying edge of [l], and a counter. *)
Definition batch_state (header : Header) (graph : DynamicSceneGraph)
    (configs : gmap Z LayerConfig) (visualizer_config : VisualizerConfig)
    (ns_prefix : string) (filter : FilterFunction)
    (l : LayerId) (es : list SceneGraphEdge) (st : EdgeState) : Prop :=
  let q := qualifying_from graph configs filter l es in
  match q with
  | [] => layer_markers st !! l = None
  | e0 :: _ =>
    exists m sc,
      configs !! l = Some sc
      /\ layer_markers st !! l = Some m
      /\ points m
         = flat_map (edge_segment graph configs visualizer_config)
                    (every_nth (S (interlayer_edge_insertion_skip sc)) q)
      /\ length (colors m) = length (points m)
      /\ since st l = ((length q - 1) mod S (interlayer_edge_insertion_skip sc))%nat
      /\ ns m = (ns_prefix ++ to_string l ++ "_" ++ to_string (target_layer graph e0))%string
  end.

End EdgeVocabulary.


(** ** Dynamic inter-layer edges *)

Section DynamicEdgeVocabulary.
Context `{Collaborators}.

(* a dynamic inter-layer edge qualifies when both ends should be shown *)
Definition dyn_qualifies (graph : DynamicSceneGraph) (configs : gmap Z LayerConfig)
    (dynamic_configs : gmap Z DynamicLayerConfig) (e : SceneGraphEdge) : bool :=
  shouldVisualize graph (getNode graph (edge_source e)) configs dynamic_configs
  && shouldVisualize graph (getNode graph (edge_target e)) configs dynamic_configs.

(* the dynamic layer whose configuration rules an edge *)
Definition config_layer (graph : DynamicSceneGraph) (e : SceneGraphEdge) : Z :=
  getConfigLayer graph (getNode graph (edge_source e)) (getNode graph (edge_target e)).

Definition dyn_qualifying_from (graph : DynamicSceneGraph) (configs : gmap Z LayerConfig)
    (dynamic_configs : gmap Z DynamicLayerConfig) (l : Z) (es : list SceneGraphEdge)
    : list SceneGraphEdge :=
  base.filter (fun e => dyn_qualifies graph configs dynamic_configs e = true
                        /\ source_layer graph e = l) es.

(* every qualifying edge that leaves layer [l] is ruled by an insertion
   skip of [k] *)
Definition uniform_skip (graph : DynamicSceneGraph) (configs : gmap Z LayerConfig)
    (dynamic_configs : gmap Z DynamicLayerConfig) (l : Z) (k : nat)
    (es : list SceneGraphEdge) : Prop :=
  Forall
    (fun e => forall c, dynamic_configs !! config_layer graph e = Some c ->
                        dyn_interlayer_edge_insertion_skip c = k)
    (dyn_qualifying_from graph configs dynamic_configs l es).

(** The batch of source layer [l] in the dynamic pass, when the skip is [k]. *)
Definition dyn_batch_state (graph : DynamicSceneGraph)
    (configs : gmap Z LayerConfig) (dynamic_configs : gmap Z DynamicLayerConfig)
    (visualizer_config : VisualizerConfig) (ns_prefix : string)
    (l : Z) (k : nat) (es : list SceneGraphEdge) (st : EdgeState) : Prop :=
  let q := dyn_qualifying_from graph configs dynamic_configs l es in
  match q with
  | [] => layer_markers st !! l = None
  | e0 :: _ =>
    exists m,
      layer_markers st !! l = Some m
      /\ points m
         = flat_map (edge_segment graph configs visualizer_config) (every_nth (S k) q)
      /\ colors m = []
      /\ since st l = ((length q - 1) mod S k)%nat
      /\ ns m = (ns_prefix ++ to_string l ++ "_" ++ to_string (target_layer graph e0))%string
      /\ length (points m) = (2 * length (every_nth (S k) q))%nat
  end.

End DynamicEdgeVocabulary.


(** ** Sample graphs *)

(* nodes 1 to 5 in layer 4, the others in layer 3; five edges from layer 4
   to layer 3 *)
Definition five_edge_graph : DynamicSceneGraph := {|
  getNode := fun i =>
    if (i <=? 5)%Z then sample_node i 4 (BaseAttrs origin)
    else sample_node i 3 (BaseAttrs origin);
  isDynamic := fun _ => false;
  interlayer_edges :=
    map (fun i => {| edge_source := i; edge_target := (i + 5)%Z; weight := zero |})
        [1; 2; 3; 4; 5]%Z;
  dynamic_interlayer_edges := [];
  graph_mesh := None
|}.

(* layers 3 and 4 shown, one edge in three drawn *)
Definition skip_two_configs : gmap Z LayerConfig :=
  <[3%Z := sample_layer_config true 2]> (<[4%Z := sample_layer_config true 2]> ∅).

(* a trajectory node 100 in the dynamic layer 2, tied to five places of
   layer 3 *)
Definition agent_graph : DynamicSceneGraph := {|
  getNode := fun i =>
    if (i =? 100)%Z then sample_node i 2 (BaseAttrs origin)
    else sample_node i 3 (BaseAttrs origin);
  isDynamic := fun i => (i =? 100)%Z;
  interlayer_edges := [];
  dynamic_interlayer_edges :=
    map (fun i => {| edge_source := i; edge_target := 100%Z; weight := zero |})
        [1; 2; 3; 4; 5]%Z;
  graph_mesh := None
|}.

Definition sample_dynamic_config (skip : nat) : DynamicLayerConfig := {|
  dyn_visualize := true; visualize_interlayer_edges := true;
  dyn_interlayer_edge_insertion_skip := skip;
  z_offset_scale := 0; node_scale := 1; node_alpha := 1; node_use_sphere := true;
  edge_scale := 1; edge_alpha := 1; dyn_label_scale := 1; dyn_label_height := 1
|}.

Definition agent_configs : gmap Z LayerConfig :=
  <[2%Z := sample_layer_config true 0]> (<[3%Z := sample_layer_config true 0]> ∅).
Definition agent_dynamic_configs : gmap Z DynamicLayerConfig :=
  <[2%Z := sample_dynamic_config 2]> ∅.


(** ** Batches *)

(* the vertices of a drawn edge sit side by side in the batch *)
Definition placed_in (segment : list Point) (m : Marker) : Prop :=
  exists before after, points m = before ++ segment ++ after.

Section BatchVocabulary.
Context `{Collaborators}.

(** One batch per pair of layers: two qualifying edges whose pairs of
    (source layer, target layer) differ never share a batch. *)
Definition one_batch_per_layer_pair (header : Header) (graph : DynamicSceneGraph)
    (configs : gmap Z LayerConfig) (visualizer_config : VisualizerConfig)
    (ns_prefix : string) (filter : FilterFunction) : Prop :=
  forall arr,
    makeGraphEdgeMarkers header graph configs visualizer_config ns_prefix filter = Ok arr ->
    forall e1 e2,
      e1 ∈ interlayer_edges graph -> e2 ∈ interlayer_edges graph ->
      qualifies graph configs filter e1 = true ->
      qualifies graph configs filter e2 = true ->
      (source_layer graph e1, target_layer graph e1)
        <> (source_layer graph e2, target_layer graph e2) ->
      forall m, m ∈ arr ->
        ~ (placed_in (edge_segment graph configs visualizer_config e1) m
           /\ placed_in (edge_segment graph configs visualizer_config e2) m).

End BatchVocabulary.

(* node 1 of layer 4 is the parent of node 2 in layer 3 and of node 3 in
   layer 20 *)
Definition two_children_graph : DynamicSceneGraph := {|
  getNode := fun i =>
    if (i =? 1)%Z then sample_node i 4 (BaseAttrs origin)
    else if (i =? 2)%Z then sample_node i 3 (BaseAttrs origin)
    else sample_node i 20 (BaseAttrs origin);
  isDynamic := fun _ => false;
  interlayer_edges :=
    [ {| edge_source := 1; edge_target := 2; weight := zero |};
      {| edge_source := 1; edge_target := 3; weight := zero |} ]%Z;
  dynamic_interlayer_edges := [];
  graph_mesh := None
|}.

(* the same family with the nodes apart: the parent at the origin, the child
   of layer 3 on the x axis, the child of layer 20 on the y axis *)
Definition spread_children_graph : DynamicSceneGraph := {|
  getNode := fun i =>
    if (i =? 1)%Z then sample_node i 4 (BaseAttrs origin)
    else if (i =? 2)%Z then sample_node i 3 (BaseAttrs {| vx := 1; vy := 0; vz := 0 |})
    else sample_node i 20 (BaseAttrs {| vx := 0; vy := 1; vz := 0 |});
  isDynamic := fun _ => false;
  interlayer_edges :=
    [ {| edge_source := 1; edge_target := 2; weight := zero |};
      {| edge_source := 1; edge_target := 3; weight := zero |} ]%Z;
  dynamic_interlayer_edges := [];
  graph_mesh := None
|}.

(* the edge of [spread_children_graph] to the child in layer 20 *)
Definition far_child_edge : SceneGraphEdge :=
  {| edge_source := 1; edge_target := 3; weight := zero |}%Z.

(* the layers 3, 4 and 20 shown, every second edge drawn *)
Definition skip_one_configs : gmap Z LayerConfig :=
  <[3%Z := sample_layer_config true 1]>
    (<[4%Z := sample_layer_config true 1]>
       (<[20%Z := sample_layer_config true 1]> ∅)).

Definition all_shown_configs : gmap Z LayerConfig :=
  <[3%Z := sample_layer_config true 0]>
    (<[4%Z := sample_layer_config true 0]>
       (<[20%Z := sample_layer_config true 0]> ∅)).


(** ** Sample layers *)

(* one edge between two nodes of layer 3 *)
Definition one_edge_layer : SceneGraphLayer := {|
  nodes := [sample_node 1 3 (BaseAttrs origin); sample_node 2 3 (BaseAttrs origin)];
  edges := [ {| edge_source := 1; edge_target := 2; weight := zero |} ]%Z;
  layer_getNode := fun i => sample_node i 3 (BaseAttrs origin)
|}.

(* three edges along a path of four nodes *)
Definition three_edge_layer : SceneGraphLayer := {|
  nodes := map (fun i => sample_node i 3 (BaseAttrs origin)) [1; 2; 3; 4]%Z;
  edges := map (fun i => {| edge_source := i; edge_target := (i + 1)%Z; weight := zero |})
               [1; 2; 3]%Z;
  layer_getNode := fun i => sample_node i 3 (BaseAttrs origin)
|}.

(* a filter that turns node 1 down *)
Definition without_node_1 : FilterFunction :=
  Some (fun n => negb (node_id n =? 1)%Z).

Definition plain_edge_color : EdgeColorFunction := fun _ _ _ _ => Color_default.

(* a layer that holds a plain node next to a 2D place *)
Definition mixed_layer : SceneGraphLayer := {|
  nodes := [ sample_node 1 20
               (Place2dAttrs (sample_place2d [origin; origin; origin] []));
             sample_node 2 20 (BaseAttrs origin) ];
  edges := [];
  layer_getNode := fun i => sample_node i 20 (BaseAttrs origin)
|}.


(** ** Mesh-connection fans *)

Section MeshFanVocabulary.
Context `{Collaborators}.

(* the break point above the node and the node's own anchor *)
Definition fan_center (config : LayerConfig) (visualizer_config : VisualizerConfig)
    (a : Place2dNodeAttributes) : Point :=
  add_z (toPoint (sem_position (place2d_sem a)))
        (mesh_edge_break_ratio visualizer_config * getZOffset config visualizer_config)%R.
Definition fan_centroid (config : LayerConfig) (visualizer_config : VisualizerConfig)
    (a : Place2dNodeAttributes) : Point :=
  add_z (toPoint (sem_position (place2d_sem a))) (getZOffset config visualizer_config).

(* a mesh vertex as it is drawn *)
Definition mesh_vertex (visualizer_config : VisualizerConfig) (mesh : Mesh) (midx : nat)
    : Point :=
  if negb (collapse_layers visualizer_config)
  then add_z (toPoint (mesh_pos mesh midx)) (mesh_layer_offset visualizer_config)
  else toPoint (mesh_pos mesh midx).

(* the spokes of a fan: one segment from the break point to every sampled
   connection that is a vertex of the mesh *)
Definition fan_vertices (config : LayerConfig) (visualizer_config : VisualizerConfig)
    (mesh : Mesh) (center_point : Point) (conns : list nat) : list Point :=
  flat_map (fun midx => [center_point; mesh_vertex visualizer_config mesh midx])
    (base.filter (fun midx => (midx < numVertices mesh)%nat)
       (every_nth (interlayer_edge_insertion_skip config + 1) conns)).

End MeshFanVocabulary.

Definition empty_mesh : Mesh := {| mesh_points := [] |}.

(* a mesh of two vertices and a place tied to the vertices 0, 7 and 1 *)
Definition two_vertex_mesh : Mesh := {| mesh_points := [origin; origin] |}.
Definition connected_place_layer : SceneGraphLayer := {|
  nodes := [sample_node 1 20 (Place2dAttrs (sample_place2d [] [0; 7; 1]%nat))];
  edges := [];
  layer_getNode := fun i => sample_node i 20 (BaseAttrs origin)
|}.
Definition graph_with_mesh (m : option Mesh) : DynamicSceneGraph := {|
  getNode := fun i => sample_node i 20 (BaseAttrs origin);
  isDynamic := fun _ => false;
  interlayer_edges := [];
  dynamic_interlayer_edges := [];
  graph_mesh := m
|}.


(* a trajectory of three slots, the middle one vacated *)
Definition sample_trajectory : DynamicSceneGraphLayer := {|
  dyn_nodes := [ Some (sample_node 1 2 (BaseAttrs origin)); None;
                 Some (sample_node 3 2 (BaseAttrs {| vx := 1; vy := 2; vz := 3 |})) ];
  dyn_edges := [];
  getPosition := fun _ => origin
|}.


(** ** Well-formed batches *)

(* no per-vertex colors, one color for all, or one color per vertex *)
Definition colors_fit (m : Marker) : Prop :=
  length (colors m) = 0%nat \/ length (colors m) = 1%nat
  \/ length (colors m) = length (points m).

(* a list of independent line segments: consecutive pairs of vertices *)
Definition line_list_batch (m : Marker) : Prop :=
  type m = LINE_LIST /\ Nat.Even (length (points m)) /\ colors_fit m.

(* what a builder that may throw or not return hands back, if anything *)
Definition produced {A : Type} (P : A -> Prop) (r : result A) : Prop :=
  match r with
  | Ok a => P a
  | Raise _ => True
  end.
Definition returned (P : Marker -> Prop) (o : loop_outcome) : Prop :=
  match o with
  | Returned m => P m
  | StillRunning | AdvancedPastEnd => True
  end.

(* the invariants of the loops: a line list whose vertices come in pairs,
   with one color per vertex or with none *)
Definition colored_pairs (m : Marker) : Prop :=
  type m = LINE_LIST
  /\ Nat.even (length (points m)) = true
  /\ length (colors m) = length (points m).
Definition plain_pairs (m : Marker) : Prop :=
  type m = LINE_LIST /\ Nat.even (length (points m)) = true /\ colors m = [].
Definition color_per_point (m : Marker) : Prop :=
  length (colors m) = length (points m).

(* every batch of an aggregation pass keeps its invariant *)
Definition all_colored_pairs (st : EdgeState) : Prop :=
  forall l m, layer_markers st !! l = Some m -> colored_pairs m.
Definition all_plain_pairs (st : EdgeState) : Prop :=
  forall l m, layer_markers st !! l = Some m -> plain_pairs m.

(** ** Polygons *)

(* the boundary of a 2D place as it is drawn: at the height of the node *)
Definition polygon_points (a : Place2dNodeAttributes) : list Point :=
  map (fun b => set_z (toPoint b) (vz (sem_position (place2d_sem a)))) (boundary a).

(* the sides of a polygon: into every corner from the corner before it, and
   into the first corner from the last *)
Definition polygon_sides (ps : list Point) : list (Point * Point) :=
  match last ps with
  | Some p => zip (p :: ps) ps
  | None => []
  end.

(* the number of boundary points of the places that are drawn *)
Definition boundary_points_drawn (l : list SceneGraphNode) : nat :=
  sum_list_with (fun a => length (boundary a)) (places_with_boundary l).

Section PolygonVocabulary.
Context `{Collaborators}.

(* where a place is drawn: its position lifted by the offset of its layer *)
Definition place_anchor (config : LayerConfig) (visualizer_config : VisualizerConfig)
    (a : Place2dNodeAttributes) : Point :=
  add_z (toPoint (sem_position (place2d_sem a))) (getZOffset config visualizer_config).

End PolygonVocabulary.

(* four corners of a square, and a layer of places with 0, 1 and 4 corners *)
Definition square : list Vector3d :=
  [ {| vx := 0; vy := 0; vz := 5 |}; {| vx := 1; vy := 0; vz := 5 |};
    {| vx := 1; vy := 1; vz := 5 |}; {| vx := 0; vy := 1; vz := 5 |} ]%R.
Definition square_places : SceneGraphLayer := {|
  nodes := [ sample_node 1 20 (Place2dAttrs (sample_place2d [] []));
             sample_node 2 20 (Place2dAttrs (sample_place2d [origin] []));
             sample_node 3 20 (Place2dAttrs (sample_place2d square [])) ];
  edges := [];
  layer_getNode := fun i => sample_node i 20 (BaseAttrs origin)
|}.

(** ** Nodes that pass the filter *)

Definition accepted (filter : FilterFunction) (l : list SceneGraphNode)
    : list SceneGraphNode :=
  base.filter (fun n => rejects filter n = false) l.

Definition is_semantic (n : SceneGraphNode) : Prop :=
  exists a, attributes_Semantic n = Ok a.

Section BoundingBoxVocabulary.
Context `{Collaborators}.

(* the corner of a node's bounding box, numbered as the box numbers them *)
Definition bbox_corner (n : SceneGraphNode) (i : nat) : Point :=
  match attributes_Semantic n with
  | Ok a => toPoint (corner_array (bounding_box a) i)
  | Raise _ => zero_point
  end.

(* where the node is drawn, and the break point between it and its box *)
Definition node_anchor (config : LayerConfig) (visualizer_config : VisualizerConfig)
    (n : SceneGraphNode) : Point :=
  add_z (toPoint (attributes_position n)) (getZOffset config visualizer_config).
Definition break_point (config : LayerConfig) (visualizer_config : VisualizerConfig)
    (n : SceneGraphNode) : Point :=
  add_z (toPoint (attributes_position n))
        (mesh_edge_break_ratio visualizer_config * getZOffset config visualizer_config)%R.

(* the five segments from a node to its box *)
Definition bbox_spokes (config : LayerConfig) (visualizer_config : VisualizerConfig)
    (n : SceneGraphNode) : list (Point * Point) :=
  let c := break_point config visualizer_config n in
  (node_anchor config visualizer_config n, c)
  :: map (fun i => (c, bbox_corner n i)) [4; 5; 7; 6]%nat.

(* the columns of the corner matrix of a node *)
Definition node_corners (n : SceneGraphNode) : MatrixXf :=
  match attributes_Semantic n with
  | Ok a => fillCornersFromBbox (bounding_box a) new_corners
  | Raise _ => new_corners
  end.

Definition bbox_color (config : LayerConfig) (func : ColorFunction) (n : SceneGraphNode)
    : ColorRGBA :=
  makeColorMsg (func n) (Some (bounding_box_alpha config)).

End BoundingBoxVocabulary.

(* a box whose corner [i] sits at height [i], and a layer of two objects and
   a plain node *)
Definition numbered_bbox : BoundingBox := {|
  world_P_center := origin;
  world_q_center := identity_quaternion;
  dimensions := {| vx := 1; vy := 1; vz := 1 |};
  corner_array := fun i => {| vx := 0; vy := 0; vz := INR i |}
|}.
Definition boxed_object : SemanticNodeAttributes := {|
  sem_position := origin; name := "O(7)"; sem_color := Color_default;
  bounding_box := numbered_bbox; semantic_label := 3
|}.
Definition object_layer : SceneGraphLayer := {|
  nodes := [ sample_node 1 2 (SemanticAttrs boxed_object);
             sample_node 2 2 (BaseAttrs origin);
             sample_node 3 2 (SemanticAttrs boxed_object) ];
  edges := [];
  layer_getNode := fun i => sample_node i 2 (BaseAttrs origin)
|}.
(* a filter that lets the objects through *)
Definition objects_only : FilterFunction :=
  Some (fun n => negb (node_id n =? 2)%Z).


(** ** Places and frontiers *)

Definition is_place (n : SceneGraphNode) : Prop :=
  exists a, attrs n = PlaceAttrs a.

(* whether a node is a place that is marked as real *)
Definition place_is_real (n : SceneGraphNode) : bool :=
  match attrs n with
  | PlaceAttrs a => real_place a
  | _ => false
  end.

Definition real_places (l : list SceneGraphNode) : list SceneGraphNode :=
  base.filter (fun n => place_is_real n = true) l.
Definition frontier_places (l : list SceneGraphNode) : list SceneGraphNode :=
  base.filter (fun n => place_is_real n = false) l.

(* the position of a marker *)
Definition marker_position (m : Marker) : Point := position (pose m).

Definition sample_place (real : bool) : PlaceNodeAttributes := {|
  place_sem := sample_semantic origin; distance := zero; real_place := real;
  frontier_scale := {| vx := 1; vy := 1; vz := 1 |};
  place_orientation := identity_quaternion
|}.
(* two real places around two frontiers *)
Definition places_and_frontiers : SceneGraphLayer := {|
  nodes := [ sample_node 1 3 (PlaceAttrs (sample_place true));
             sample_node 2 3 (PlaceAttrs (sample_place false));
             sample_node 3 3 (PlaceAttrs (sample_place false));
             sample_node 4 3 (PlaceAttrs (sample_place true)) ];
  edges := [];
  layer_getNode := fun i => sample_node i 3 (BaseAttrs origin)
|}.

(** ** Labels *)

Section LabelVocabulary.
Context `{Collaborators}.

(* the identifier in a label: the digits of the object number when the name
   has one, the whole name otherwise *)
Definition unique_id_of (a : SemanticNodeAttributes) : string :=
  match regex_search_object_number (name a) with
  | Some digits => digits
  | None => name a
  end.

End LabelVocabulary.

(* an entry of /label_names that names the label [lab] *)
Definition names_label (item : XmlRpcValue) (lab : Z) (s : string) : Prop :=
  exists members,
    item = TypeStruct members
    /\ member "label" members = Some (TypeInt lab)
    /\ member "name" members = Some (TypeString s).

(* an entry that the search steps over: not a struct with both members, or
   one that names another label *)
Definition passed_over (lab : Z) (item : XmlRpcValue) : Prop :=
  match item with
  | TypeStruct members =>
    match member "label" members, member "name" members with
    | Some l, Some n => exists z s, l = TypeInt z /\ n = TypeString s /\ z <> lab
    | _, _ => True
    end
  | _ => True
  end.

(* an entry with both members of which one has the wrong type: a label that
   is no integer, or an integer label with a name that is no string *)
Definition wrongly_typed (item : XmlRpcValue) : Prop :=
  exists members l n,
    item = TypeStruct members
    /\ member "label" members = Some l
    /\ member "name" members = Some n
    /\ match l, n with
       | (TypeString _ | TypeArray _ | TypeStruct _ | TypeOther), _ => True
       | TypeInt _, (TypeInt _ | TypeArray _ | TypeStruct _ | TypeOther) => True
       | _, _ => False
       end.

Definition label_entry (lab : Z) (s : string) : XmlRpcValue :=
  TypeStruct [("label"%string, TypeInt lab); ("name"%string, TypeString s)].

(* chair is 3, table is 5, and an entry whose name is a number *)
Definition sample_label_names : XmlRpcValue :=
  TypeArray [ TypeString "comment"; label_entry 5 "table"; label_entry 3 "chair";
              TypeStruct [("label"%string, TypeInt 9); ("name"%string, TypeInt 9)] ].
Definition bad_label_names : XmlRpcValue :=
  TypeArray [ TypeStruct [("label"%string, TypeInt 9); ("name"%string, TypeInt 9)];
              label_entry 3 "chair" ].


(** ** Order and colors of the batches *)

(* every color twice: one for each end of a segment *)
Definition both_ends (cs : list ColorRGBA) : list ColorRGBA :=
  flat_map (fun c => [c; c]) cs.

(* layers 3 and 4 hidden *)
Definition hidden_configs : gmap Z LayerConfig :=
  <[3%Z := sample_layer_config false 0]> (<[4%Z := sample_layer_config false 0]> ∅).

(* the agent's layer 2 has a dynamic configuration and no static one *)
Definition places_only_configs : gmap Z LayerConfig :=
  <[3%Z := sample_layer_config true 0]> ∅.
(* the agent 100 of layer 2 as the source of an edge to place 1 *)
Definition agent_source_graph : DynamicSceneGraph := {|
  getNode := fun i =>
    if (i =? 100)%Z then sample_node i 2 (BaseAttrs origin)
    else sample_node i 3 (BaseAttrs origin);
  isDynamic := fun i => (i =? 100)%Z;
  interlayer_edges := [];
  dynamic_interlayer_edges :=
    [ {| edge_source := 100; edge_target := 1; weight := zero |} ]%Z;
  graph_mesh := None
|}.

Section DynamicEndVocabulary.
Context `{Collaborators}.

(* an edge with an end in a dynamic layer *)
Definition has_dynamic_end (graph : DynamicSceneGraph) (e : SceneGraphEdge) : bool :=
  isDynamic graph (node_id (getNode graph (edge_source e)))
  || isDynamic graph (node_id (getNode graph (edge_target e))).

(* every batch belongs to a layer with a static configuration *)
Definition batches_configured (configs : gmap Z LayerConfig) (st : EdgeState) : Prop :=
  forall l, is_Some (layer_markers st !! l) -> is_Some (configs !! l).

End DynamicEndVocabulary.


(** ** GVD wireframes *)

Section GvdVocabulary.
Context `{Collaborators}.

(* the two ends of an edge of a layer, where the nodes are *)
Definition gvd_segment (layer : SceneGraphLayer) (e : SceneGraphEdge) : list Point :=
  [toPoint (attributes_position (layer_getNode layer (edge_source e)));
   toPoint (attributes_position (layer_getNode layer (edge_target e)))].

End GvdVocabulary.

(* a layer of two places joined by an edge *)
Definition two_place_layer : SceneGraphLayer := {|
  nodes := [ sample_node 1 3 (PlaceAttrs (sample_place true));
             sample_node 2 3 (PlaceAttrs (sample_place true)) ];
  edges := [ {| edge_source := 1; edge_target := 2; weight := zero |} ]%Z;
  layer_getNode := fun i => sample_node i 3 (PlaceAttrs (sample_place true))
|}.

(** ** Dynamic layers *)

(* the nodes of a dynamic layer that are still there, oldest first *)
Definition present_nodes (layer : DynamicSceneGraphLayer) : list SceneGraphNode :=
  omap Datatypes.id (dyn_nodes layer).

(* a trajectory of two slots, the last one vacated *)
Definition vacated_trajectory : DynamicSceneGraphLayer := {|
  dyn_nodes := [ Some (sample_node 1 2 (BaseAttrs origin)); None ];
  dyn_edges := [];
  getPosition := fun _ => origin
|}.

Section DynamicLayerVocabulary.
Context `{Collaborators}.

Definition dynamic_anchor (layer_offset_scale : R) (visualizer_config : VisualizerConfig)
    (n : SceneGraphNode) : Point :=
  add_z (toPoint (attributes_position n))
        (getZOffset_scale layer_offset_scale visualizer_config).

Definition dynamic_segment (config : DynamicLayerConfig) (layer : DynamicSceneGraphLayer)
    (visualizer_config : VisualizerConfig) (e : SceneGraphEdge) : list Point :=
  [add_z (toPoint (getPosition layer (edge_source e)))
         (getZOffset_scale (z_offset_scale config) visualizer_config);
   add_z (toPoint (getPosition layer (edge_target e)))
         (getZOffset_scale (z_offset_scale config) visualizer_config)].

End DynamicLayerVocabulary.

(** ** Intra-layer edges *)

Section LayerEdgeVocabulary.
Context `{Collaborators}.

(* the two vertices of an edge of a layer, both lifted by the offset of the
   layer *)
Definition layer_segment (config : LayerConfig) (layer : SceneGraphLayer)
    (visualizer_config : VisualizerConfig) (e : SceneGraphEdge) : list Point :=
  [add_z (toPoint (attributes_position (layer_getNode layer (edge_source e))))
         (getZOffset config visualizer_config);
   add_z (toPoint (attributes_position (layer_getNode layer (edge_target e))))
         (getZOffset config visualizer_config)].

End LayerEdgeVocabulary.


(** ** Colors of inter-layer edges *)

Section EdgeColorVocabulary.
Context `{Collaborators}.

(* the node whose color an edge takes when edges are colored *)
Definition color_source (graph : DynamicSceneGraph) (sc : LayerConfig)
    (e : SceneGraphEdge) : SceneGraphNode :=
  if use_edge_source sc then getNode graph (edge_source e)
  else getNode graph (edge_target e).

(* the color of every edge can be resolved *)
Definition colors_resolve (graph : DynamicSceneGraph) (configs : gmap Z LayerConfig)
    (es : list SceneGraphEdge) : Prop :=
  forall e sc,
    e ∈ es -> configs !! source_layer graph e = Some sc ->
    interlayer_edge_use_color sc = true -> is_semantic (color_source graph sc e).

End EdgeColorVocabulary.

(* layers 3 and 4 shown, edges in the color of their source *)
Definition colored_edge_config : LayerConfig := {|
  visualize := true; marker_scale := 1; marker_alpha := 1; use_sphere_marker := true;
  label_scale := 1; label_height := 1; add_label_jitter := false;
  label_jitter_scale := 0; bounding_box_alpha := 1; bbox_wireframe_scale := 1;
  bbox_wireframe_edge_scale := 1; collapse_bounding_box := false;
  boundary_wireframe_scale := 1; boundary_alpha := 1; boundary_ellipse_alpha := 1;
  boundary_use_node_color := true; collapse_boundary := false;
  interlayer_edge_scale := 1; interlayer_edge_alpha := 1;
  interlayer_edge_use_color := true; use_edge_source := true;
  interlayer_edge_insertion_skip := 0;
  intralayer_edge_scale := 1; intralayer_edge_alpha := 1;
  intralayer_edge_insertion_skip := 0
|}.
Definition colored_edge_configs : gmap Z LayerConfig :=
  <[3%Z := colored_edge_config]> (<[4%Z := colored_edge_config]> ∅).

(** ** Mesh fans of a layer *)

(* the places of a layer that are tied to the mesh, in node order *)
Definition connected_places (l : list SceneGraphNode) : list Place2dNodeAttributes :=
  flat_map
    (fun n =>
       match attrs n with
       | Place2dAttrs a => if bool_decide (pcl_mesh_connections a = []) then [] else [a]
       | _ => []
       end) l.

Section LayerFanVocabulary.
Context `{Collaborators}.

(* the fan of a place: the stem from the place to its break point, then the
   spokes *)
Definition fan_of (config : LayerConfig) (visualizer_config : VisualizerConfig)
    (mesh : Mesh) (a : Place2dNodeAttributes) : list Point :=
  [fan_centroid config visualizer_config a; fan_center config visualizer_config a]
  ++ fan_vertices config visualizer_config mesh (fan_center config visualizer_config a)
       (pcl_mesh_connections a).

End LayerFanVocabulary.


(** * Properties *)

(** ** Comparisons of binary64 values *)

Lemma SFcompare_antisym (a b : spec_float) :
  SFcompare b a = CompOpp <$> SFcompare a b.
Proof.
  destruct a as [sa| sa | |sa ma ea], b as [sb|sb| |sb mb eb]; simpl;
    try reflexivity;
    try (destruct sa; reflexivity);
    try (destruct sb; reflexivity);
    try (destruct sa, sb; reflexivity).
  destruct sa, sb; simpl; try reflexivity;
    rewrite (Z.compare_antisym eb ea);
    destruct (eb ?= ea)%Z; simpl; try reflexivity;
    rewrite (Pos.compare_cont_antisym ma mb Eq); simpl;
    destruct (Pos.compare_cont Eq ma mb); reflexivity.
Qed.

Lemma not_ltb_leb (a b : double) :
  isfinite a = true -> isfinite b = true -> ltb b a = false -> leb a b = true.
Proof.
  unfold ltb, leb, SFltb, SFleb. intros Ha Hb.
  rewrite (SFcompare_antisym a b).
  destruct (SFcompare a b) as [[]|] eqn:E; simpl; try congruence.
  destruct a, b; simpl in *; congruence.
Qed.

Lemma ltb_one_not_negative (q : double) :
  ltb one q = true -> ltb q zero = false.
Proof.
  destruct q as [s|s| |s m e]; try destruct s; simpl;
    solve [discriminate | reflexivity].
Qed.

Section ColorProperties.
Context `{Collaborators}.

Lemma getRatio_normalized (lo hi d : double) :
  getRatio lo hi d = normalized_distance lo hi d.
Proof.
  unfold getRatio, normalized_distance, clamp01.
  destruct (isfinite (div (sub d lo) (sub hi lo))) eqn:Hfin; simpl.
  - destruct (ltb one (div (sub d lo) (sub hi lo))) eqn:Hgt.
    + rewrite (ltb_one_not_negative _ Hgt). reflexivity.
    + reflexivity.
  - reflexivity.
Qed.

Lemma clamp01_in_unit_interval (q : double) :
  isfinite q = true -> in_unit_interval (clamp01 q).
Proof.
  intros Hfin. unfold clamp01, in_unit_interval.
  destruct (ltb q zero) eqn:Hneg; [split; reflexivity|].
  destruct (ltb one q) eqn:Hgt; [split; reflexivity|].
  split; apply not_ltb_leb; auto.
Qed.

Lemma normalized_distance_in_unit_interval (lo hi d : double) :
  in_unit_interval (normalized_distance lo hi d).
Proof.
  unfold normalized_distance.
  destruct (isfinite (div (sub d lo) (sub hi lo))) eqn:Hfin.
  - apply clamp01_in_unit_interval, Hfin.
  - split; reflexivity.
Qed.

(** C1. [getDistanceColor] is a total function.  When the maximum distance is
    not above the minimum it is the default color, whatever the distance;
    otherwise it is the colormap interpolated at the quotient
    (d - min) / (max - min), with 0 in place of a quotient that is not
    finite and the quotient clamped into the interval from 0 to 1. *)
Theorem getDistanceColor_normalizes
    (config : VisualizerConfig) (colors : ColormapConfig) (d : double) :
  let lo := places_colormap_min_distance config in
  let hi := places_colormap_max_distance config in
  getDistanceColor config colors d =
    (if leb hi lo then Color_default
     else interpolateColorMap colors (normalized_distance lo hi d))
  /\ in_unit_interval (normalized_distance lo hi d).
Proof.
  intros lo hi. split.
  - unfold getDistanceColor. fold lo hi.
    destruct (leb hi lo); [reflexivity|].
    simpl. rewrite getRatio_normalized. reflexivity.
  - apply normalized_distance_in_unit_interval.
Qed.

(* 5 between 0 and 10 is one half; an infinite or NaN distance gives 0 *)
Example getRatio_half :
  getRatio (of_Z 0) (of_Z 10) (of_Z 5) = S754_finite false (2 ^ 52) (-53).
Proof. vm_compute. reflexivity. Qed.

Example getRatio_above : getRatio (of_Z 0) (of_Z 10) (of_Z 25) = one.
Proof. vm_compute. reflexivity. Qed.

Example getRatio_below : getRatio (of_Z 2) (of_Z 10) (of_Z 1) = zero.
Proof. vm_compute. reflexivity. Qed.

Example getRatio_infinite : getRatio (of_Z 0) (of_Z 10) infinity = zero.
Proof. vm_compute. reflexivity. Qed.

Example getRatio_nan : getRatio (of_Z 0) (of_Z 10) nan = zero.
Proof. vm_compute. reflexivity. Qed.

End ColorProperties.

(** ** Vertices and colors of a marker under construction *)

Lemma points_push_points ps m : points (push_points ps m) = points m ++ ps.
Proof. reflexivity. Qed.
Lemma points_push_colors cs m : points (push_colors cs m) = points m.
Proof. reflexivity. Qed.
Lemma colors_push_points ps m : colors (push_points ps m) = colors m.
Proof. reflexivity. Qed.
Lemma colors_push_colors cs m : colors (push_colors cs m) = colors m ++ cs.
Proof. reflexivity. Qed.

Create Rewrite HintDb marker_fields.
#[global] Hint Rewrite points_push_points points_push_colors
  colors_push_points colors_push_colors : marker_fields.

(** A decidable statement holds when its decision procedure says so. *)
Ltac decide_by_computation :=
  match goal with
  | |- ?P => refine (@bool_decide_unpack P _ _); vm_compute; exact I
  end.

(** ** Wireframes *)

Section WireframeProperties.
Context `{Collaborators}.

Lemma add_wire_points corners col c n m :
  points (add_wire corners col c n m)
  = points m ++ flat_map (segment_points corners) (filter (fun p => p.1 <> p.2) [(c, n)]).
Proof.
  unfold add_wire. rewrite filter_cons, filter_nil. simpl.
  case_bool_decide; case_decide; try contradiction; simpl.
  - rewrite <- app_assoc. reflexivity.
  - rewrite app_nil_r. reflexivity.
Qed.

Lemma add_wire_colors corners col c n m :
  colors (add_wire corners col c n m)
  = colors m ++ repeat col (2 * length (filter (fun p => p.1 <> p.2) [(c, n)])).
Proof.
  unfold add_wire. rewrite filter_cons, filter_nil. simpl.
  case_bool_decide; case_decide; try contradiction; simpl.
  - rewrite <- app_assoc. reflexivity.
  - rewrite app_nil_r. reflexivity.
Qed.

Lemma addWireframe_corner_points corners col c m :
  points (m |> add_wire corners col c (Z.lor c 1)
            |> add_wire corners col c (Z.lor c 2)
            |> add_wire corners col c (Z.lor c 4))
  = points m ++ flat_map (segment_points corners) (corner_wires c).
Proof.
  rewrite !add_wire_points. unfold corner_wires.
  change [(c, Z.lor c 1); (c, Z.lor c 2); (c, Z.lor c 4)]
    with ([(c, Z.lor c 1)] ++ [(c, Z.lor c 2)] ++ [(c, Z.lor c 4)]).
  rewrite !filter_app, !flat_map_app, <- !app_assoc. reflexivity.
Qed.

Lemma addWireframe_corner_colors corners col c m :
  colors (m |> add_wire corners col c (Z.lor c 1)
            |> add_wire corners col c (Z.lor c 2)
            |> add_wire corners col c (Z.lor c 4))
  = colors m ++ repeat col (2 * length (corner_wires c)).
Proof.
  rewrite !add_wire_colors. unfold corner_wires.
  change [(c, Z.lor c 1); (c, Z.lor c 2); (c, Z.lor c 4)]
    with ([(c, Z.lor c 1)] ++ [(c, Z.lor c 2)] ++ [(c, Z.lor c 4)]).
  rewrite !filter_app, !length_app, <- !app_assoc, <- !repeat_app.
  f_equal. f_equal. lia.
Qed.

Lemma addWireframeToMarker_points corners col m :
  points (addWireframeToMarker corners col m)
  = points m ++ flat_map (segment_points corners) (wireframe_pairs (cols corners)).
Proof.
  unfold addWireframeToMarker, wireframe_pairs.
  generalize (map Z.of_nat (seq 0 (cols corners))) as cs. intros cs. revert m.
  induction cs as [|c cs IH]; intros m; simpl.
  - rewrite app_nil_r. reflexivity.
  - rewrite IH, addWireframe_corner_points, flat_map_app, <- app_assoc. reflexivity.
Qed.

Lemma addWireframeToMarker_colors corners col m :
  colors (addWireframeToMarker corners col m)
  = colors m ++ repeat col (2 * length (wireframe_pairs (cols corners))).
Proof.
  unfold addWireframeToMarker, wireframe_pairs.
  generalize (map Z.of_nat (seq 0 (cols corners))) as cs. intros cs. revert m.
  induction cs as [|c cs IH]; intros m; simpl.
  - rewrite app_nil_r. reflexivity.
  - rewrite IH, addWireframe_corner_colors, length_app, <- app_assoc, <- repeat_app.
    f_equal. f_equal. lia.
Qed.

Lemma corner_index_cases (a : Z) : (0 <= a < 8)%Z -> a ∈ corner_indices.
Proof.
  intros Ha. unfold corner_indices.
  replace a with (Z.of_nat (Z.to_nat a)) by lia.
  apply (list_elem_of_fmap_2 Z.of_nat), elem_of_seq. lia.
Qed.

Lemma wireframe_pairs_one_bit_table :
  Forall (fun a => Forall (fun b =>
    ((a, b) ∈ wireframe_pairs 8 \/ (b, a) ∈ wireframe_pairs 8)
    <-> bits_differing a b = 1%nat) corner_indices) corner_indices.
Proof.
  decide_by_computation.
Qed.

(** C2. For every bounding box the wireframe builder joins exactly the
    twelve corner pairs of [wireframe_pairs 8]: no pair joins a corner to
    itself, no undirected edge appears twice, every joined index is one of
    the eight corners, and two corners are joined exactly when their indices
    differ in one of the three sign bits. *)
Theorem wireframe_is_twelve_one_bit_edges
    (bbox : BoundingBox) (col : ColorRGBA) (m : Marker) :
  let corners := fillCornersFromBbox bbox new_corners in
  points (addWireframeToMarker corners col m)
    = points m ++ flat_map (segment_points corners) (wireframe_pairs 8)
  /\ length (wireframe_pairs 8) = 12%nat
  /\ Forall (fun p => p.1 <> p.2) (wireframe_pairs 8)
  /\ NoDup (map undirected (wireframe_pairs 8))
  /\ Forall (fun p => (0 <= p.1 < 8)%Z /\ (0 <= p.2 < 8)%Z) (wireframe_pairs 8)
  /\ forall a b : Z, (0 <= a < 8)%Z -> (0 <= b < 8)%Z ->
       ((a, b) ∈ wireframe_pairs 8 \/ (b, a) ∈ wireframe_pairs 8)
       <-> bits_differing a b = 1%nat.
Proof.
  intros corners. split; [|split; [|split; [|split; [|split]]]].
  - apply addWireframeToMarker_points.
  - reflexivity.
  - decide_by_computation.
  - decide_by_computation.
  - decide_by_computation.
  - intros a b Ha Hb.
    pose proof wireframe_pairs_one_bit_table as T.
    rewrite Forall_forall in T.
    specialize (T a (corner_index_cases a Ha)).
    rewrite Forall_forall in T.
    exact (T b (corner_index_cases b Hb)).
Qed.

Example wireframe_pairs_listing :
  wireframe_pairs 8
  = [(0, 1); (0, 2); (0, 4); (1, 3); (1, 5); (2, 3); (2, 6); (3, 7);
     (4, 5); (4, 6); (5, 7); (6, 7)]%Z.
Proof. reflexivity. Qed.

End WireframeProperties.

(** ** Loops that may throw *)

Lemma for_each_app {A S : Type} (l1 l2 : list A) (body : S -> A -> result S) (s : S) :
  for_each (l1 ++ l2) body s = (s' ← for_each l1 body s; for_each l2 body s').
Proof.
  revert s. induction l1 as [|a l1 IH]; intros s; simpl; [reflexivity|].
  destruct (body s a); simpl; [apply IH | reflexivity].
Qed.

(** ** Ellipse boundaries *)

Section EllipseProperties.
Context `{Collaborators}.

Lemma ellipse_step_sample a col m j :
  ellipse_step a col (m, ellipse_sample a j) (S j)
  = (m |> push_points [ellipse_sample a j] |> push_colors [col]
       |> push_points [ellipse_sample a (S j)] |> push_colors [col],
     ellipse_sample a (S j)).
Proof. reflexivity. Qed.

Lemma ellipse_loop_points a col :
  forall n j m,
    let st := fold_left (ellipse_step a col) (seq (S j) n) (m, ellipse_sample a j) in
    points st.1
      = points m ++ segment_vertices
          (map (fun ix => (ellipse_sample a (ix - 1), ellipse_sample a ix)) (seq (S j) n))
    /\ colors st.1 = colors m ++ repeat col (2 * n)
    /\ st.2 = ellipse_sample a (j + n).
Proof.
  induction n as [|n IH]; intros j m; cbn zeta.
  - cbn [seq fold_left map segment_vertices flat_map repeat Nat.mul fst snd].
    rewrite !app_nil_r, Nat.add_0_r. auto.
  - cbn [seq fold_left]. rewrite ellipse_step_sample.
    destruct (IH (S j)
      (m |> push_points [ellipse_sample a j] |> push_colors [col]
         |> push_points [ellipse_sample a (S j)] |> push_colors [col]))
      as (Hp & Hc & Hl).
    rewrite Hp, Hc, Hl.
    autorewrite with marker_fields.
    cbn [map segment_vertices flat_map fst snd repeat Nat.add app].
    replace (S j - 1)%nat with j by lia.
    replace (2 * S n)%nat with (2 + 2 * n)%nat by lia.
    rewrite <- !app_assoc, Nat.add_succ_r. auto.
Qed.

Lemma ellipse_node_place2d config m n a :
  attrs n = Place2dAttrs a ->
  exists m',
    ellipse_node config m n = Ok m'
    /\ points m' = points m ++ segment_vertices
                     (flat_map ellipse_segments (places_with_boundary [n]))
    /\ colors m' = colors m
         ++ repeat (makeColorMsg (sem_color (place2d_sem a))
                                 (Some (boundary_ellipse_alpha config)))
                   (2 * (length (places_with_boundary [n]) * npts)).
Proof.
  intros Ha. unfold ellipse_node, attributes_Place2d, places_with_boundary.
  cbn [flat_map]. rewrite Ha. cbn [mbind result_bind].
  destruct (length (boundary a) <=? 1)%nat.
  - exists m. cbn. rewrite !app_nil_r. auto.
  - eexists. split; [reflexivity|].
    pose proof (ellipse_loop_points a
      (makeColorMsg (sem_color (place2d_sem a)) (Some (boundary_ellipse_alpha config)))
      npts 0%nat m) as (Hp & Hc & _).
    change (ellipse_sample a 0) with (ellipse_first_point a) in Hp, Hc.
    rewrite Hp, Hc. cbn [app flat_map length]. rewrite app_nil_r.
    replace (1 * npts)%nat with npts by lia. auto.
Qed.


Lemma length_segment_vertices segs :
  length (segment_vertices segs) = (2 * length segs)%nat.
Proof.
  unfold segment_vertices. induction segs as [|s segs IH]; simpl; [reflexivity|].
  rewrite IH. lia.
Qed.







End EllipseProperties.

Section EllipseClaim.
Context `{Collaborators}.




End EllipseClaim.



(** ** Density reduction *)

Lemma every_nth_snoc {A : Type} (s : nat) (l : list A) (e : A) :
  every_nth s (l ++ [e])
  = every_nth s l ++ (if decide (length l mod s = 0)%nat then [e] else []).
Proof.
  unfold every_nth. rewrite imap_app, filter_app, fmap_app. f_equal.
  cbn [imap]. rewrite filter_cons, filter_nil. cbn [fst compose].
  rewrite Nat.add_0_r.
  destruct (decide (length l mod s = 0)%nat); reflexivity.
Qed.

Lemma every_nth_nil {A : Type} (s : nat) : every_nth s (@nil A) = [].
Proof. reflexivity. Qed.

Lemma every_nth_head {A : Type} (s : nat) (e : A) (l : list A) :
  exists rest, every_nth s (e :: l) = e :: rest.
Proof.
  unfold every_nth. cbn [imap]. rewrite filter_cons. cbn [fst].
  rewrite Nat.Div0.mod_0_l.
  destruct (decide (0 = 0)%nat) as [_|F]; [|contradiction].
  eexists. reflexivity.
Qed.

Lemma ceil_div_succ (n k : nat) :
  ceil_div (S n) (S k)
  = (ceil_div n (S k) + (if decide (n mod S k = 0)%nat then 1 else 0))%nat.
Proof.
  unfold ceil_div. replace (S k - 1)%nat with k by lia.
  pose proof (Nat.div_mod_eq n (S k)) as Hn.
  pose proof (Nat.mod_upper_bound n (S k) ltac:(lia)) as Hr.
  set (q := (n / S k)%nat) in *. set (r := (n mod S k)%nat) in *.
  clearbody q r.
  destruct (decide (r = 0)%nat) as [Hz|Hnz].
  - replace (S n + k)%nat with (r + (q + 1) * S k)%nat by nia.
    replace (n + k)%nat with (r + k + q * S k)%nat by nia.
    rewrite !Nat.div_add by lia.
    rewrite Hz. cbn [Nat.add].
    rewrite (Nat.div_small k (S k)), (Nat.div_small 0 (S k)) by lia. lia.
  - replace (S n + k)%nat with (r + (q + 1) * S k)%nat by nia.
    replace (n + k)%nat with (r - 1 + (q + 1) * S k)%nat by nia.
    rewrite !Nat.div_add by lia.
    rewrite (Nat.div_small r (S k)), (Nat.div_small (r - 1) (S k)) by lia. lia.
Qed.

Lemma every_nth_length {A : Type} (k : nat) (l : list A) :
  length (every_nth (S k) l) = ceil_div (length l) (S k).
Proof.
  induction l as [|e l IH] using rev_ind.
  - unfold ceil_div. cbn [length every_nth]. replace (S k - 1)%nat with k by lia.
    cbn [Nat.add]. symmetry. apply Nat.div_small. lia.
  - rewrite every_nth_snoc, !length_app, IH. cbn [length].
    replace (length l + 1)%nat with (S (length l)) by lia.
    rewrite ceil_div_succ.
    destruct (decide (length l mod S k = 0)%nat); reflexivity.
Qed.

(* the counter of edges since the last one drawn, after [n >= 1] qualifying
   edges, is [(n - 1) mod (k + 1)] *)
Lemma counter_full (n k : nat) :
  (1 <= n)%nat -> (k <= (n - 1) mod S k)%nat -> (n mod S k = 0)%nat.
Proof.
  intros Hn Hc.
  pose proof (Nat.div_mod_eq (n - 1) (S k)) as Hd.
  pose proof (Nat.mod_upper_bound (n - 1) (S k) ltac:(lia)) as Hr.
  symmetry. apply (Nat.mod_unique n (S k) (S ((n - 1) / S k))); nia.
Qed.

Lemma counter_not_full (n k : nat) :
  (1 <= n)%nat -> ((n - 1) mod S k < k)%nat ->
  (n mod S k = S ((n - 1) mod S k))%nat.
Proof.
  intros Hn Hc.
  pose proof (Nat.div_mod_eq (n - 1) (S k)) as Hd.
  symmetry. apply (Nat.mod_unique n (S k) ((n - 1) / S k)); nia.
Qed.

Example every_nth_five_skip_two : every_nth 3 [10; 11; 12; 13; 14]%nat = [10; 13]%nat.
Proof. reflexivity. Qed.

(** ** Inter-layer edges *)

Section EdgeProperties.
Context `{Collaborators}.
Context (header : Header) (graph : DynamicSceneGraph) (configs : gmap Z LayerConfig)
  (visualizer_config : VisualizerConfig) (ns_prefix : string) (filter : FilterFunction).

Abbreviation step := (graph_edge_step header graph configs visualizer_config ns_prefix filter).
Abbreviation pass := (graph_edge_pass header graph configs visualizer_config ns_prefix filter).
Abbreviation state_of := (batch_state header graph configs visualizer_config ns_prefix filter).

Lemma graph_edge_pass_snoc es e :
  pass (es ++ [e]) = (st ← pass es; step st e).
Proof.
  unfold graph_edge_pass. rewrite for_each_app.
  destruct (for_each es _ no_edges) as [st|x]; cbn; [|reflexivity].
  destruct (step st e); reflexivity.
Qed.

Lemma since_set_since l n st : since (set_since l n st) l = n.
Proof. unfold since, set_since. cbn. rewrite lookup_insert_eq. reflexivity. Qed.

Lemma since_set_since_ne l l' n st : l <> l' -> since (set_since l n st) l' = since st l'.
Proof. intros. unfold since, set_since. cbn. rewrite lookup_insert_ne by done. reflexivity. Qed.

Lemma since_set_marker l l' m st : since (set_marker l m st) l' = since st l'.
Proof. reflexivity. Qed.

Lemma markers_set_since l n st : layer_markers (set_since l n st) = layer_markers st.
Proof. reflexivity. Qed.

Lemma markers_set_marker l m st :
  layer_markers (set_marker l m st) = <[l := m]> (layer_markers st).
Proof. reflexivity. Qed.

(* an edge that does not qualify leaves the state as it is *)
Lemma step_not_qualifying st e :
  qualifies graph configs filter e = false -> step st e = Ok st.
Proof.
  unfold qualifies, graph_edge_step, source_layer, target_layer. intros Hq.
  destruct (rejects filter (getNode graph (edge_source e))); [reflexivity|].
  destruct (rejects filter (getNode graph (edge_target e))); [reflexivity|].
  cbn in Hq.
  destruct (configs !! node_layer (getNode graph (edge_source e))) as [sc|];
    [|reflexivity].
  destruct (configs !! node_layer (getNode graph (edge_target e))) as [tc|];
    [|reflexivity].
  destruct (visualize sc); [|reflexivity].
  destruct (visualize tc); [discriminate|reflexivity].
Qed.

(* what a qualifying edge does to the state *)
Lemma step_qualifying st e :
  qualifies graph configs filter e = true ->
  exists sc tc,
    configs !! source_layer graph e = Some sc
    /\ configs !! target_layer graph e = Some tc
    /\ let l := source_layer graph e in
       let k := interlayer_edge_insertion_skip sc in
       let m0 := default (makeNewEdgeList header sc ns_prefix l (target_layer graph e))
                         (layer_markers st !! l) in
       let c := match layer_markers st !! l with
                | None => k
                | Some _ => since st l
                end in
       step st e =
         if (k <=? c)%nat then
           col ← edge_color graph sc e;
           Ok {| layer_markers :=
                   <[l := m0 |> push_points [source_point graph visualizer_config sc e]
                             |> push_points [target_point graph visualizer_config tc e]
                             |> push_colors [makeColorMsg col (Some (intralayer_edge_alpha sc))]
                             |> push_colors [makeColorMsg col (Some (intralayer_edge_alpha sc))]]>
                     (layer_markers st);
                 num_since_last_insertion := <[l := 0%nat]> (num_since_last_insertion st) |}
         else
           Ok {| layer_markers := <[l := m0]> (layer_markers st);
                 num_since_last_insertion := <[l := S c]> (num_since_last_insertion st) |}.
Proof.
  unfold qualifies, graph_edge_step, source_layer, target_layer, edge_color,
    source_point, target_point.
  intros Hq.
  destruct (rejects filter (getNode graph (edge_source e))); [discriminate|].
  destruct (rejects filter (getNode graph (edge_target e))); [discriminate|].
  cbn in Hq.
  destruct (configs !! node_layer (getNode graph (edge_source e))) as [sc|] eqn:Es;
    [|discriminate].
  destruct (configs !! node_layer (getNode graph (edge_target e))) as [tc|] eqn:Et;
    [|discriminate].
  exists sc, tc. split; [reflexivity|]. split; [reflexivity|].
  destruct (visualize sc); [|discriminate].
  destruct (visualize tc); [|discriminate].
  cbn [negb]. cbv zeta.
  set (l := node_layer (getNode graph (edge_source e))).
  destruct (layer_markers st !! l) as [m|] eqn:Em.
  - rewrite bool_decide_eq_false_2 by congruence.
    destruct (interlayer_edge_insertion_skip sc <=? since st l)%nat eqn:Ek.
    + unfold map_at. rewrite markers_set_since. rewrite Em. cbn [mbind result_bind default].
      unfold set_marker, set_since. cbn [layer_markers num_since_last_insertion].
      reflexivity.
    + unfold set_since. cbn [layer_markers default]. rewrite (insert_id _ _ _ Em).
      reflexivity.
  - rewrite bool_decide_eq_true_2 by reflexivity.
    rewrite since_set_since, Nat.leb_refl.
    unfold map_at, set_marker, set_since.
    cbn [layer_markers num_since_last_insertion].
    rewrite lookup_insert_eq. cbn [mbind result_bind default].
    match goal with
    | |- mbind _ ?c = _ => destruct c as [col|x]
    end; cbn [mbind result_bind]; [|reflexivity].
    rewrite !insert_insert_eq. reflexivity.
Qed.

Lemma edge_segment_qualifying e sc tc :
  configs !! source_layer graph e = Some sc ->
  configs !! target_layer graph e = Some tc ->
  edge_segment graph configs visualizer_config e = [source_point graph visualizer_config sc e; target_point graph visualizer_config tc e].
Proof. intros Es Et. unfold edge_segment. rewrite Es, Et. reflexivity. Qed.

Lemma qualifying_from_snoc l es e :
  qualifying_from graph configs filter l (es ++ [e])
  = qualifying_from graph configs filter l es
    ++ (if decide (qualifies graph configs filter e = true /\ source_layer graph e = l)
        then [e] else []).
Proof.
  unfold qualifying_from. rewrite filter_app, filter_cons, filter_nil. reflexivity.
Qed.

(* a step touches no layer other than the source layer of its edge *)
Lemma step_other_layer st e st' l :
  step st e = Ok st' ->
  source_layer graph e <> l ->
  layer_markers st' !! l = layer_markers st !! l /\ since st' l = since st l.
Proof.
  intros Hstep Hne.
  destruct (qualifies graph configs filter e) eqn:Hq.
  - destruct (step_qualifying st e Hq) as (sc & tc & _ & _ & Hs). cbv zeta in Hs.
    rewrite Hs in Hstep. clear Hs.
    destruct (_ <=? _)%nat.
    + destruct (edge_color graph sc e) as [col|x]; cbn in Hstep; [|discriminate].
      inversion Hstep; subst; clear Hstep. unfold since. cbn.
      rewrite !lookup_insert_ne by exact Hne. auto.
    + inversion Hstep; subst; clear Hstep. unfold since. cbn.
      rewrite !lookup_insert_ne by exact Hne. auto.
  - rewrite (step_not_qualifying st e Hq) in Hstep. inversion Hstep; subst. auto.
Qed.

Lemma every_nth_singleton {A : Type} (s : nat) (e : A) : every_nth s [e] = [e].
Proof.
  change [e] with ([] ++ [e]) at 1. rewrite every_nth_snoc, every_nth_nil.
  cbn [length]. rewrite Nat.Div0.mod_0_l. reflexivity.
Qed.

Lemma step_preserves l es st e st' :
  state_of l es st -> step st e = Ok st' -> state_of l (es ++ [e]) st'.
Proof.
  intros Hinv Hstep. unfold batch_state in *. cbv zeta in *.
  rewrite qualifying_from_snoc.
  destruct (decide (qualifies graph configs filter e = true /\ source_layer graph e = l))
    as [[Hq Hl]|Hno].
  - destruct (step_qualifying st e Hq) as (sc & tc & Es & Et & Hs). cbv zeta in Hs.
    rewrite Hs in Hstep. clear Hs. rewrite Hl in *.
    destruct (qualifying_from graph configs filter l es) as [|e0 q] eqn:Eq.
    + (* the first qualifying edge of the layer *)
      rewrite Hinv in Hstep. rewrite Nat.leb_refl in Hstep.
      destruct (edge_color graph sc e) as [col|x]; cbn in Hstep; [|discriminate].
      inversion Hstep; subst st'; clear Hstep.
      cbn [app]. eexists _, sc. split; [exact Es|].
      cbn [layer_markers]. rewrite lookup_insert_eq. split; [reflexivity|].
      autorewrite with marker_fields.
      rewrite every_nth_singleton. cbn [flat_map length].
      rewrite (edge_segment_qualifying e sc tc) by congruence.
      unfold since. cbn [num_since_last_insertion]. rewrite lookup_insert_eq.
      rewrite Nat.sub_diag, Nat.Div0.mod_0_l.
      repeat split; reflexivity.
    + (* a later one *)
      destruct Hinv as (m & sc' & Es' & Em & Hp & Hc & Hs & Hn).
      assert (sc' = sc) by congruence. subst sc'.
      rewrite Em in Hstep. cbn [default] in Hstep.
      set (k := interlayer_edge_insertion_skip sc) in *.
      set (n := length (e0 :: q)) in *.
      assert (1 <= n)%nat as Hn1 by (unfold n; cbn [length]; lia).
      cbn [app]. change (e0 :: q ++ [e]) with ((e0 :: q) ++ [e]).
      rewrite Hs in Hstep.
      destruct (Nat.leb_spec k ((n - 1) mod S k)) as [Hfull|Hnot].
      * destruct (edge_color graph sc e) as [col|x]; cbn in Hstep; [|discriminate].
        inversion Hstep; subst st'; clear Hstep.
        eexists _, sc. split; [exact Es|].
        cbn [layer_markers]. rewrite lookup_insert_eq. split; [reflexivity|].
        autorewrite with marker_fields.
        rewrite every_nth_snoc. fold n. fold k.
        destruct (decide (n mod S k = 0)%nat) as [_|F];
          [|exfalso; apply F, counter_full; assumption].
        rewrite flat_map_app. cbn [flat_map].
        rewrite (edge_segment_qualifying e sc tc) by congruence.
        rewrite Hp, !length_app, <- !app_assoc, Hc, Hp, app_nil_r.
        unfold since. cbn [num_since_last_insertion]. rewrite lookup_insert_eq.
        fold n. cbn [length default].
        replace (n + 1 - 1)%nat with n by lia.
        rewrite (counter_full n k Hn1 Hfull).
        repeat split; try reflexivity; try assumption.
      * inversion Hstep; subst st'; clear Hstep.
        eexists m, sc. split; [exact Es|].
        cbn [layer_markers]. rewrite lookup_insert_eq. split; [reflexivity|].
        rewrite every_nth_snoc. fold n. fold k.
        destruct (decide (n mod S k = 0)%nat) as [F|_];
          [rewrite (counter_not_full n k Hn1 Hnot) in F; discriminate|].
        rewrite app_nil_r.
        unfold since. cbn [num_since_last_insertion]. rewrite lookup_insert_eq.
        rewrite (length_app (e0 :: q)). fold n. cbn [length].
        replace (n + 1 - 1)%nat with n by lia.
        rewrite (counter_not_full n k Hn1 Hnot).
        repeat split; assumption || reflexivity.
  - rewrite app_nil_r.
    assert (layer_markers st' !! l = layer_markers st !! l /\ since st' l = since st l)
      as [Em Ec].
    { destruct (qualifies graph configs filter e) eqn:Hq.
      - apply (step_other_layer st e st' l Hstep). intros Hl. apply Hno. auto.
      - rewrite (step_not_qualifying st e Hq) in Hstep. inversion Hstep; subst. auto. }
    rewrite Em, Ec. exact Hinv.
Qed.

Lemma pass_state l es st :
  pass es = Ok st -> state_of l es st.
Proof.
  revert st. induction es as [|e es IH] using rev_ind; intros st Hpass.
  - inversion Hpass; subst. unfold batch_state. cbn. apply lookup_empty.
  - rewrite graph_edge_pass_snoc in Hpass.
    destruct (pass es) as [st0|x]; cbn in Hpass; [|discriminate].
    apply (step_preserves l es st0 e st (IH st0 eq_refl) Hpass).
Qed.
End EdgeProperties.

(** ** Dynamic inter-layer edges *)

Section DynamicEdgeProperties.
Context `{Collaborators}.
Context (header : Header) (graph : DynamicSceneGraph) (configs : gmap Z LayerConfig)
  (dynamic_configs : gmap Z DynamicLayerConfig)
  (visualizer_config : VisualizerConfig) (ns_prefix : string).

Abbreviation dstep :=
  (dynamic_edge_step header graph configs dynamic_configs visualizer_config ns_prefix).
Abbreviation dpass :=
  (dynamic_edge_pass header graph configs dynamic_configs visualizer_config ns_prefix).
Abbreviation dstate_of :=
  (dyn_batch_state graph configs dynamic_configs visualizer_config ns_prefix).

Lemma dynamic_edge_pass_snoc es e :
  dpass (es ++ [e]) = (st ← dpass es; dstep st e).
Proof.
  unfold dynamic_edge_pass. rewrite for_each_app.
  destruct (for_each es _ no_edges) as [st|x]; cbn; [|reflexivity].
  destruct (dstep st e); reflexivity.
Qed.

Lemma dstep_not_qualifying st e :
  dyn_qualifies graph configs dynamic_configs e = false -> dstep st e = Ok st.
Proof.
  unfold dyn_qualifies, dynamic_edge_step. intros Hq.
  destruct (shouldVisualize graph (getNode graph (edge_source e)) _ _); [|reflexivity].
  destruct (shouldVisualize graph (getNode graph (edge_target e)) _ _);
    [discriminate|reflexivity].
Qed.

(* what a qualifying edge does to the state, when the step returns *)
Lemma dstep_qualifying st e st' :
  dyn_qualifies graph configs dynamic_configs e = true ->
  dstep st e = Ok st' ->
  exists config,
    dynamic_configs !! config_layer graph e = Some config
    /\ let l := source_layer graph e in
       let k := dyn_interlayer_edge_insertion_skip config in
       let c := match layer_markers st !! l with
                | None => k
                | Some _ => since st l
                end in
       ((k <= c)%nat
        /\ exists sc tc,
             configs !! l = Some sc /\ configs !! target_layer graph e = Some tc
             /\ st' =
                {| layer_markers :=
                     <[l := default
                              (makeNewEdgeList header sc ns_prefix l (target_layer graph e)
                               |> set_color (makeColorMsg Color_default (Some (edge_alpha config))))
                              (layer_markers st !! l)
                            |> push_points [source_point graph visualizer_config sc e]
                            |> push_points [target_point graph visualizer_config tc e]]>
                       (layer_markers st);
                   num_since_last_insertion := <[l := 0%nat]> (num_since_last_insertion st) |})
       \/ ((c < k)%nat
           /\ is_Some (layer_markers st !! l)
           /\ st' = {| layer_markers := layer_markers st;
                       num_since_last_insertion :=
                         <[l := S c]> (num_since_last_insertion st) |}).
Proof.
  unfold dyn_qualifies, dynamic_edge_step, config_layer, source_layer, target_layer,
    source_point, target_point.
  intros Hq.
  destruct (shouldVisualize graph (getNode graph (edge_source e)) _ _); [|discriminate].
  destruct (shouldVisualize graph (getNode graph (edge_target e)) _ _); [|discriminate].
  cbn [negb]. unfold map_at.
  destruct (dynamic_configs !! getConfigLayer graph _ _) as [config|];
    cbn [mbind result_bind]; [|intros ?; discriminate].
  intros Hstep. exists config. split; [reflexivity|]. cbv zeta.
  set (l := node_layer (getNode graph (edge_source e))) in *.
  set (k := dyn_interlayer_edge_insertion_skip config) in *.
  destruct (layer_markers st !! l) as [m|] eqn:Em.
  - rewrite bool_decide_eq_false_2 in Hstep by congruence.
    cbn [mbind result_bind] in Hstep.
    destruct (Nat.leb_spec k (since st l)) as [Hfull|Hnot].
    + left. split; [exact Hfull|].
      rewrite markers_set_since, Em in Hstep.
      cbn [mbind result_bind] in Hstep.
      destruct (configs !! l) as [sc|]; cbn [mbind result_bind] in Hstep; [|discriminate].
      destruct (configs !! node_layer (getNode graph (edge_target e))) as [tc|];
        cbn [mbind result_bind] in Hstep; [|discriminate].
      exists sc, tc. split; [reflexivity|]. split; [reflexivity|].
      inversion Hstep. reflexivity.
    + right. split; [exact Hnot|]. split; [eexists; reflexivity|].
      inversion Hstep. reflexivity.
  - rewrite bool_decide_eq_true_2 in Hstep by reflexivity.
    destruct (configs !! l) as [sc|] eqn:Es; cbn [mbind result_bind] in Hstep;
      [|discriminate].
    rewrite since_set_since, Nat.leb_refl in Hstep.
    unfold set_marker, set_since in Hstep.
    cbn [layer_markers num_since_last_insertion] in Hstep.
    rewrite lookup_insert_eq in Hstep. cbn [mbind result_bind] in Hstep.
    destruct (configs !! node_layer (getNode graph (edge_target e))) as [tc|];
      cbn [mbind result_bind] in Hstep; [|discriminate].
    left. split; [lia|]. exists sc, tc. split; [reflexivity|]. split; [reflexivity|].
    rewrite !insert_insert_eq in Hstep. inversion Hstep. reflexivity.
Qed.

Lemma dyn_qualifying_from_snoc l es e :
  dyn_qualifying_from graph configs dynamic_configs l (es ++ [e])
  = dyn_qualifying_from graph configs dynamic_configs l es
    ++ (if decide (dyn_qualifies graph configs dynamic_configs e = true
                   /\ source_layer graph e = l)
        then [e] else []).
Proof.
  unfold dyn_qualifying_from. rewrite filter_app, filter_cons, filter_nil. reflexivity.
Qed.

Lemma dstep_other_layer st e st' l :
  dstep st e = Ok st' ->
  source_layer graph e <> l ->
  layer_markers st' !! l = layer_markers st !! l /\ since st' l = since st l.
Proof.
  intros Hstep Hne.
  destruct (dyn_qualifies graph configs dynamic_configs e) eqn:Hq.
  - destruct (dstep_qualifying st e st' Hq Hstep) as (config & _ & Hs). cbv zeta in Hs.
    destruct Hs as [(_ & sc & tc & _ & _ & ->)|(_ & _ & ->)];
      unfold since; cbn; rewrite ?lookup_insert_ne by exact Hne; auto.
  - rewrite (dstep_not_qualifying st e Hq) in Hstep. inversion Hstep; subst. auto.
Qed.

Lemma dstep_preserves l k es st e st' :
  uniform_skip graph configs dynamic_configs l k (es ++ [e]) ->
  dstate_of l k es st -> dstep st e = Ok st' -> dstate_of l k (es ++ [e]) st'.
Proof.
  intros Hk Hinv Hstep. unfold dyn_batch_state, uniform_skip in *. cbv zeta in *.
  rewrite dyn_qualifying_from_snoc in *.
  destruct (decide (dyn_qualifies graph configs dynamic_configs e = true
                    /\ source_layer graph e = l)) as [[Hq Hl]|Hno].
  - destruct (dstep_qualifying st e st' Hq Hstep) as (config & Ec & Hs). cbv zeta in Hs.
    rewrite Forall_app in Hk. destruct Hk as [_ Hk]. apply Forall_inv in Hk.
    rewrite (Hk config Ec) in Hs. clear Hk. rewrite Hl in *.
    destruct (dyn_qualifying_from graph configs dynamic_configs l es) as [|e0 q] eqn:Eq.
    + rewrite Hinv in Hs.
      destruct Hs as [(_ & sc & tc & Es & Et & ->)|(Hlt & _)]; [|lia].
      cbn [app]. eexists. cbn [layer_markers]. rewrite lookup_insert_eq.
      split; [reflexivity|]. cbn [default]. autorewrite with marker_fields.
      rewrite every_nth_singleton. cbn [flat_map length].
      rewrite (edge_segment_qualifying graph configs visualizer_config e sc tc)
        by congruence.
      unfold since. cbn [num_since_last_insertion]. rewrite lookup_insert_eq.
      rewrite Nat.sub_diag, Nat.Div0.mod_0_l.
      repeat split; reflexivity.
    + destruct Hinv as (m & Em & Hp & Hc & Hsn & Hn & Hlen).
      rewrite Em in Hs. cbn [from_option Datatypes.id] in Hs.
      set (n := length (e0 :: q)) in *.
      assert (1 <= n)%nat as Hn1 by (unfold n; cbn [length]; lia).
      cbn [app]. change (e0 :: q ++ [e]) with ((e0 :: q) ++ [e]).
      rewrite Hsn in Hs.
      destruct Hs as [(Hfull & sc & tc & Es & Et & ->)|(Hnot & _ & ->)].
      * eexists. cbn [layer_markers]. rewrite lookup_insert_eq.
        split; [reflexivity|]. autorewrite with marker_fields.
        rewrite every_nth_snoc. fold n.
        destruct (decide (n mod S k = 0)%nat) as [_|F];
          [|exfalso; apply F, counter_full; assumption].
        rewrite flat_map_app. cbn [flat_map].
        rewrite (edge_segment_qualifying graph configs visualizer_config e sc tc)
          by congruence.
        rewrite !length_app, Hlen. rewrite Hp, <- !app_assoc, app_nil_r.
        unfold since. cbn [num_since_last_insertion]. rewrite lookup_insert_eq.
        fold n. cbn [length default].
        replace (n + 1 - 1)%nat with n by lia.
        rewrite (counter_full n k Hn1 Hfull).
        repeat split; try reflexivity; try assumption. lia.
      * exists m. cbn [layer_markers]. split; [exact Em|].
        rewrite every_nth_snoc. fold n.
        destruct (decide (n mod S k = 0)%nat) as [F|_];
          [rewrite (counter_not_full n k Hn1 Hnot) in F; discriminate|].
        rewrite app_nil_r.
        unfold since. cbn [num_since_last_insertion]. rewrite lookup_insert_eq.
        rewrite (length_app (e0 :: q)). fold n. cbn [length default].
        replace (n + 1 - 1)%nat with n by lia.
        rewrite (counter_not_full n k Hn1 Hnot).
        repeat split; assumption || reflexivity.
  - rewrite app_nil_r.
    assert (layer_markers st' !! l = layer_markers st !! l /\ since st' l = since st l)
      as [Em Ec].
    { destruct (dyn_qualifies graph configs dynamic_configs e) eqn:Hq.
      - apply (dstep_other_layer st e st' l Hstep). intros Hl. apply Hno. auto.
      - rewrite (dstep_not_qualifying st e Hq) in Hstep. inversion Hstep; subst. auto. }
    rewrite Em, Ec. exact Hinv.
Qed.

Lemma dpass_state l k es st :
  uniform_skip graph configs dynamic_configs l k es ->
  dpass es = Ok st -> dstate_of l k es st.
Proof.
  revert st. induction es as [|e es IH] using rev_ind; intros st Hk Hpass.
  - inversion Hpass; subst. unfold dyn_batch_state. cbn. apply lookup_empty.
  - rewrite dynamic_edge_pass_snoc in Hpass.
    destruct (dpass es) as [st0|x]; cbn in Hpass; [|discriminate].
    apply (dstep_preserves l k es st0 e st Hk); [|exact Hpass].
    apply IH; [|reflexivity].
    unfold uniform_skip in *. rewrite dyn_qualifying_from_snoc in Hk.
    rewrite Forall_app in Hk. destruct Hk as [Hk _]. exact Hk.
Qed.

End DynamicEdgeProperties.

(** ** Density reduction on inter-layer edges *)

Lemma every_nth_subset {A : Type} (s : nat) (l : list A) (x : A) :
  x ∈ every_nth s l -> x ∈ l.
Proof.
  unfold every_nth. intros Hx.
  apply list_elem_of_fmap in Hx as ([i y] & -> & Hin).
  apply list_elem_of_filter in Hin as [_ Hin].
  apply list_elem_of_lookup in Hin as [j Hj].
  rewrite list_lookup_imap in Hj.
  destruct (l !! j) as [z|] eqn:Ez; [|discriminate].
  cbn in Hj. inversion Hj; subst. cbn.
  apply list_elem_of_lookup. eauto.
Qed.

Lemma elem_of_in_key_order {V : Type} (m : gmap Z V) (v : V) :
  v ∈ in_key_order m <-> exists k, m !! k = Some v.
Proof.
  unfold in_key_order. rewrite list_elem_of_fmap. split.
  - intros ([k v'] & -> & Hin).
    rewrite (merge_sort_Permutation key_le (map_to_list m)) in Hin.
    apply elem_of_map_to_list in Hin. eauto.
  - intros [k Hk]. exists (k, v). split; [reflexivity|].
    rewrite (merge_sort_Permutation key_le (map_to_list m)).
    apply elem_of_map_to_list, Hk.
Qed.

Section SamplingClaim.
Context `{Collaborators}.

Lemma segments_length graph configs visualizer_config (l : list SceneGraphEdge) :
  Forall (fun e => length (edge_segment graph configs visualizer_config e) = 2%nat) l ->
  length (flat_map (edge_segment graph configs visualizer_config) l) = (2 * length l)%nat.
Proof.
  induction 1 as [|e l He _ IH]; cbn [flat_map length]; [reflexivity|].
  rewrite length_app, He, IH. lia.
Qed.

Lemma qualifying_segment graph configs filter visualizer_config e :
  qualifies graph configs filter e = true ->
  length (edge_segment graph configs visualizer_config e) = 2%nat.
Proof.
  unfold qualifies, edge_segment. intros Hq.
  destruct (configs !! source_layer graph e); [|rewrite andb_false_r in Hq; discriminate].
  destruct (configs !! target_layer graph e); [|rewrite andb_false_r in Hq; discriminate].
  reflexivity.
Qed.


(** C4. Inter-layer edge aggregation, static and dynamic.  Sampling goes by
    source layer: when the builder returns, the batch of a source layer whose
    E qualifying edges are ruled by an insertion skip of k is among the
    markers returned, under the name of the layer and of the target layer of
    its first qualifying edge, and holds every (k+1)-th of these edges,
    beginning with the first: ceil(E / (k+1)) segments, the first of which is
    the first qualifying edge of the layer.  The counter of a layer starts
    at k when its batch is created; an edge that finds the counter at k or
    above is drawn and resets it to 0; any other edge adds one to it and is
    dropped. *)
Theorem interlayer_sampling_draws_ceiling
    (header : Header) (graph : DynamicSceneGraph) (configs : gmap Z LayerConfig)
    (dynamic_configs : gmap Z DynamicLayerConfig)
    (visualizer_config : VisualizerConfig) (ns_prefix : string)
    (filter : FilterFunction) :
  (forall arr l e0 rest sc,
     makeGraphEdgeMarkers header graph configs visualizer_config ns_prefix filter
     = Ok arr ->
     qualifying_from graph configs filter l (interlayer_edges graph) = e0 :: rest ->
     configs !! l = Some sc ->
     let k := interlayer_edge_insertion_skip sc in
     let q := e0 :: rest in
     exists m tail,
       m ∈ arr
       /\ ns m = (ns_prefix ++ to_string l ++ "_"
                  ++ to_string (target_layer graph e0))%string
       /\ points m = flat_map (edge_segment graph configs visualizer_config)
                              (every_nth (k + 1) q)
       /\ length (every_nth (k + 1) q) = ceil_div (length q) (k + 1)
       /\ length (points m) = (2 * ceil_div (length q) (k + 1))%nat
       /\ points m = edge_segment graph configs visualizer_config e0 ++ tail)
  /\ (forall arr l k e0 rest,
       makeDynamicGraphEdgeMarkers header graph configs dynamic_configs
         visualizer_config ns_prefix = Ok arr ->
       dyn_qualifying_from graph configs dynamic_configs l
         (dynamic_interlayer_edges graph) = e0 :: rest ->
       uniform_skip graph configs dynamic_configs l k (dynamic_interlayer_edges graph) ->
       let q := e0 :: rest in
       exists m tail,
         m ∈ arr
         /\ ns m = (ns_prefix ++ to_string l ++ "_"
                    ++ to_string (target_layer graph e0))%string
         /\ points m = flat_map (edge_segment graph configs visualizer_config)
                                (every_nth (k + 1) q)
         /\ length (every_nth (k + 1) q) = ceil_div (length q) (k + 1)
         /\ length (points m) = (2 * ceil_div (length q) (k + 1))%nat
         /\ points m = edge_segment graph configs visualizer_config e0 ++ tail)
  /\ (forall st e,
       qualifies graph configs filter e = true ->
       exists sc tc,
         configs !! source_layer graph e = Some sc
         /\ configs !! target_layer graph e = Some tc
         /\ let l := source_layer graph e in
            let k := interlayer_edge_insertion_skip sc in
            let m0 := default (makeNewEdgeList header sc ns_prefix l (target_layer graph e))
                              (layer_markers st !! l) in
            let c := match layer_markers st !! l with
                     | None => k
                     | Some _ => since st l
                     end in
            graph_edge_step header graph configs visualizer_config ns_prefix filter st e =
              if (k <=? c)%nat then
                col ← edge_color graph sc e;
                Ok {| layer_markers :=
                        <[l := m0 |> push_points [source_point graph visualizer_config sc e]
                                  |> push_points [target_point graph visualizer_config tc e]
                                  |> push_colors [makeColorMsg col (Some (intralayer_edge_alpha sc))]
                                  |> push_colors [makeColorMsg col (Some (intralayer_edge_alpha sc))]]>
                          (layer_markers st);
                      num_since_last_insertion :=
                        <[l := 0%nat]> (num_since_last_insertion st) |}
              else
                Ok {| layer_markers := <[l := m0]> (layer_markers st);
                      num_since_last_insertion :=
                        <[l := S c]> (num_since_last_insertion st) |})
  /\ (forall st e st',
       dyn_qualifies graph configs dynamic_configs e = true ->
       dynamic_edge_step header graph configs dynamic_configs visualizer_config
         ns_prefix st e = Ok st' ->
       exists config,
         dynamic_configs !! config_layer graph e = Some config
         /\ let l := source_layer graph e in
            let k := dyn_interlayer_edge_insertion_skip config in
            let c := match layer_markers st !! l with
                     | None => k
                     | Some _ => since st l
                     end in
            ((k <= c)%nat
             /\ layer_markers st' !! l <> None
             /\ num_since_last_insertion st'
                = <[l := 0%nat]> (num_since_last_insertion st))
            \/ ((c < k)%nat
                /\ layer_markers st' = layer_markers st
                /\ num_since_last_insertion st'
                   = <[l := S c]> (num_since_last_insertion st))).
Proof.
  split; [|split; [|split]].
  3: { intros st e Hq.
       exact (step_qualifying header graph configs visualizer_config ns_prefix filter
                st e Hq). }
  3: { intros st e st' Hq Hstep.
       destruct (dstep_qualifying header graph configs dynamic_configs visualizer_config
                   ns_prefix st e st' Hq Hstep) as (config & Ec & Hs).
       exists config. split; [exact Ec|]. cbv zeta in *.
       destruct Hs as [(Hfull & sc & tc & _ & _ & ->)|(Hnot & _ & ->)].
       - left. split; [exact Hfull|]. cbn [layer_markers num_since_last_insertion].
         rewrite lookup_insert_eq. split; [discriminate | reflexivity].
       - right. split; [exact Hnot|]. split; reflexivity. }
  - intros arr l e0 rest sc Hrun Hq Hsc k q. unfold makeGraphEdgeMarkers in Hrun.
    destruct (graph_edge_pass header graph configs visualizer_config ns_prefix filter
                (interlayer_edges graph)) as [st|x] eqn:Hpass;
      cbn [mbind result_bind] in Hrun; [|discriminate].
    injection Hrun as <-.
    pose proof (pass_state header graph configs visualizer_config ns_prefix filter
                  l _ st Hpass) as Hst.
    unfold batch_state in Hst. cbv zeta in Hst. rewrite Hq in Hst.
    destruct Hst as (m & sc' & Hsc' & Hm & Hp & _ & _ & Hns).
    assert (sc' = sc) by congruence. subst sc'. fold k q in Hp.
    replace (k + 1)%nat with (S k) by lia.
    destruct (every_nth_head (S k) e0 rest) as [drawn Hd].
    exists m, (flat_map (edge_segment graph configs visualizer_config) drawn).
    split; [apply elem_of_in_key_order; eauto|].
    split; [exact Hns|]. split; [exact Hp|].
    split; [apply every_nth_length|].
    split.
    + rewrite Hp, segments_length, every_nth_length; [reflexivity|].
      apply Forall_forall. intros e He. apply every_nth_subset in He.
      unfold q in He. rewrite <- Hq in He.
      apply list_elem_of_filter in He as [[He _] _].
      apply (qualifying_segment graph configs filter), He.
    + rewrite Hp. unfold q. rewrite Hd. reflexivity.
  - intros arr l k e0 rest Hrun Hq Hk q. unfold makeDynamicGraphEdgeMarkers in Hrun.
    destruct (dynamic_edge_pass header graph configs dynamic_configs visualizer_config
                ns_prefix (dynamic_interlayer_edges graph)) as [st|x] eqn:Hpass;
      cbn [mbind result_bind] in Hrun; [|discriminate].
    injection Hrun as <-.
    pose proof (dpass_state header graph configs dynamic_configs visualizer_config
                  ns_prefix l k _ st Hk Hpass) as Hst.
    unfold dyn_batch_state in Hst. cbv zeta in Hst. rewrite Hq in Hst.
    destruct Hst as (m & Hm & Hp & _ & _ & Hns & Hlen). fold q in Hp, Hlen.
    replace (k + 1)%nat with (S k) by lia.
    destruct (every_nth_head (S k) e0 rest) as [drawn Hd].
    exists m, (flat_map (edge_segment graph configs visualizer_config) drawn).
    split; [apply elem_of_in_key_order; eauto|].
    split; [exact Hns|]. split; [exact Hp|].
    split; [apply every_nth_length|].
    split.
    + rewrite Hlen, every_nth_length. reflexivity.
    + rewrite Hp. unfold q. rewrite Hd. reflexivity.
Qed.

End SamplingClaim.

Lemma five_edges_skip_two_draw_two :
  (exists arr m,
     @makeGraphEdgeMarkers sample_collaborators sample_header five_edge_graph
       skip_two_configs sample_visualizer_config "edges_" None = Ok arr
     /\ m ∈ arr
     /\ ns m = "edges_4_3"%string
     /\ length (points m) = 4%nat)
  /\ uniform_skip agent_graph agent_configs agent_dynamic_configs 3 2
       (dynamic_interlayer_edges agent_graph)
  /\ (exists arr m,
        @makeDynamicGraphEdgeMarkers sample_collaborators sample_header agent_graph
          agent_configs agent_dynamic_configs sample_visualizer_config "dynamic_edges_"
        = Ok arr
        /\ m ∈ arr
        /\ ns m = "dynamic_edges_3_2"%string
        /\ length (points m) = 4%nat).
Proof.
  split; [|split].
  - destruct (@makeGraphEdgeMarkers sample_collaborators sample_header five_edge_graph
                skip_two_configs sample_visualizer_config "edges_" None)
      as [arr|x] eqn:E; [|vm_compute in E; discriminate].
    destruct (proj1 (@interlayer_sampling_draws_ceiling sample_collaborators
                       sample_header five_edge_graph skip_two_configs ∅
                       sample_visualizer_config "edges_" None)
                    arr 4%Z _ _ (sample_layer_config true 2) E eq_refl eq_refl)
      as (m & tail & Hin & Hns & _ & _ & Hlen & _).
    exists arr, m. split; [reflexivity|]. split; [exact Hin|].
    split; [exact Hns | exact Hlen].
  - unfold uniform_skip.
    replace (dyn_qualifying_from agent_graph agent_configs agent_dynamic_configs 3
               (dynamic_interlayer_edges agent_graph))
      with (dynamic_interlayer_edges agent_graph) by (vm_compute; reflexivity).
    repeat constructor; intros c Hc; vm_compute in Hc; injection Hc as <-; reflexivity.
  - destruct (@makeDynamicGraphEdgeMarkers sample_collaborators sample_header
                agent_graph agent_configs agent_dynamic_configs
                sample_visualizer_config "dynamic_edges_")
      as [arr|x] eqn:E; [|vm_compute in E; discriminate].
    assert (Hk : uniform_skip agent_graph agent_configs agent_dynamic_configs 3 2
                   (dynamic_interlayer_edges agent_graph)).
    { unfold uniform_skip.
      replace (dyn_qualifying_from agent_graph agent_configs agent_dynamic_configs 3
                 (dynamic_interlayer_edges agent_graph))
        with (dynamic_interlayer_edges agent_graph) by (vm_compute; reflexivity).
      repeat constructor; intros c Hc; vm_compute in Hc; injection Hc as <-;
        reflexivity. }
    destruct (proj1 (proj2 (@interlayer_sampling_draws_ceiling sample_collaborators
                              sample_header agent_graph agent_configs
                              agent_dynamic_configs sample_visualizer_config
                              "dynamic_edges_" None))
                    arr 3%Z 2%nat _ _ E eq_refl Hk)
      as (m & tail & Hin & Hns & _ & _ & Hlen & _).
    exists arr, m. split; [reflexivity|]. split; [exact Hin|].
    split; [exact Hns | exact Hlen].
Defined.

(* the edge to the child in layer 20 is the first and only edge between the
   layers 4 and 20; with a skip of 1 it is dropped, as the edge before it
   left the same layer *)
Lemma far_child_edge_is_sampled_away :
  base.filter
    (fun e => qualifies spread_children_graph skip_one_configs None e = true
              /\ source_layer spread_children_graph e = 4%Z
              /\ target_layer spread_children_graph e = 20%Z)
    (interlayer_edges spread_children_graph) = [far_child_edge]
  /\ exists m,
       @makeGraphEdgeMarkers sample_collaborators sample_header spread_children_graph
         skip_one_configs sample_visualizer_config "edges_" None = Ok [m]
       /\ ns m = "edges_4_3"%string
       /\ length (points m) = 2%nat
       /\ ~ placed_in (@edge_segment sample_collaborators spread_children_graph
                         skip_one_configs sample_visualizer_config far_child_edge) m.
Proof.
  set (e2 := far_child_edge). split; [vm_compute; reflexivity|].
  eexists. split; [vm_compute; reflexivity|].
  split; [reflexivity|]. split; [reflexivity|].
  intros (before & after & Hp).
  assert (Hseg : @edge_segment sample_collaborators spread_children_graph
                   skip_one_configs sample_visualizer_config e2
                 = [ {| px := 0; py := 0; pz := 0 + 0 |};
                     {| px := 0; py := 1; pz := 0 + 0 |} ]%R)
    by (vm_compute; reflexivity).
  rewrite Hseg in Hp. cbn [points] in Hp.
  destruct before as [|b0 before].
  - injection Hp. intros. lra.
  - apply (f_equal length) in Hp. rewrite !length_app in Hp. cbn [length] in Hp. lia.
Qed.

(** ** Batches of inter-layer edges *)

Lemma length_in_key_order {V : Type} (m : gmap Z V) :
  length (in_key_order m) = size m.
Proof.
  unfold in_key_order.
  rewrite length_fmap, (merge_sort_Permutation key_le (map_to_list m)).
  apply length_map_to_list.
Qed.

(** The two edges of [two_children_graph] end in different layers, yet both
    are drawn into the one batch of their source layer. *)
Lemma layer_pairs_share_a_batch :
  ~ @one_batch_per_layer_pair sample_collaborators sample_header two_children_graph
      all_shown_configs sample_visualizer_config "edges_" None.
Proof.
  intros C.
  destruct (@makeGraphEdgeMarkers sample_collaborators sample_header two_children_graph
              all_shown_configs sample_visualizer_config "edges_" None)
    as [arr|x] eqn:E; [|vm_compute in E; discriminate].
  pose (e1 := {| edge_source := 1; edge_target := 2; weight := zero |}%Z).
  pose (e2 := {| edge_source := 1; edge_target := 3; weight := zero |}%Z).
  assert (exists m, arr = [m]
            /\ points m
               = @edge_segment sample_collaborators two_children_graph all_shown_configs
                   sample_visualizer_config e1
                 ++ @edge_segment sample_collaborators two_children_graph
                      all_shown_configs sample_visualizer_config e2) as (m & -> & Hp).
  { vm_compute in E. inversion E. eexists. split; [reflexivity|]. vm_compute. reflexivity. }
  apply (C [m] E e1 e2 ltac:(apply list_elem_of_here) ltac:(apply list_elem_of_further, list_elem_of_here) ltac:(vm_compute; reflexivity) ltac:(vm_compute; reflexivity) ltac:(vm_compute; discriminate) m ltac:(apply list_elem_of_here)).
  split.
  - exists [], (@edge_segment sample_collaborators two_children_graph all_shown_configs
                    sample_visualizer_config e2). exact Hp.
  - exists (@edge_segment sample_collaborators two_children_graph all_shown_configs
              sample_visualizer_config e1), [].
    rewrite app_nil_r. exact Hp.
Qed.

Section BatchClaim.
Context `{Collaborators}.

(** C5, as the code has it.  [makeGraphEdgeMarkers] keeps one batch per
    source layer: the returned collection holds exactly the batches of the
    source layers that have a qualifying edge; the batch of a layer is named
    after that layer and the target layer of its first qualifying edge, has
    its own counter, holds the sampled qualifying edges of that source layer
    whatever their target layers, and is never empty. *)
Theorem one_batch_per_source_layer
    (header : Header) (graph : DynamicSceneGraph) (configs : gmap Z LayerConfig)
    (visualizer_config : VisualizerConfig) (ns_prefix : string)
    (filter : FilterFunction) (arr : MarkerArray) :
  makeGraphEdgeMarkers header graph configs visualizer_config ns_prefix filter = Ok arr ->
  exists st,
    graph_edge_pass header graph configs visualizer_config ns_prefix filter
      (interlayer_edges graph) = Ok st
    /\ arr = in_key_order (layer_markers st)
    /\ (forall m, m ∈ arr <-> exists l, layer_markers st !! l = Some m)
    /\ (forall l, layer_markers st !! l = None
                  <-> qualifying_from graph configs filter l (interlayer_edges graph) = [])
    /\ (forall l m,
          layer_markers st !! l = Some m ->
          exists e0 rest sc,
            qualifying_from graph configs filter l (interlayer_edges graph) = e0 :: rest
            /\ configs !! l = Some sc
            /\ ns m = (ns_prefix ++ to_string l ++ "_"
                       ++ to_string (target_layer graph e0))%string
            /\ points m
               = flat_map (edge_segment graph configs visualizer_config)
                   (every_nth (interlayer_edge_insertion_skip sc + 1) (e0 :: rest))
            /\ since st l
               = ((length (e0 :: rest) - 1) mod (interlayer_edge_insertion_skip sc + 1))%nat
            /\ (2 <= length (points m))%nat).
Proof.
  unfold makeGraphEdgeMarkers. intros Hmake.
  destruct (graph_edge_pass _ _ _ _ _ _ _) as [st|x] eqn:Hpass;
    cbn [mbind result_bind] in Hmake; [|discriminate].
  inversion Hmake; subst arr; clear Hmake.
  exists st. split; [reflexivity|]. split; [reflexivity|].
  split; [intros m; apply elem_of_in_key_order|].
  assert (forall l, batch_state header graph configs visualizer_config ns_prefix filter
                      l (interlayer_edges graph) st) as Hst
    by (intros l; apply pass_state, Hpass).
  split.
  - intros l. specialize (Hst l). unfold batch_state in Hst. cbv zeta in Hst.
    destruct (qualifying_from graph configs filter l (interlayer_edges graph)).
    + split; auto.
    + destruct Hst as (m & sc & _ & Hm & _). rewrite Hm. split; discriminate.
  - intros l m Hm. specialize (Hst l). unfold batch_state in Hst. cbv zeta in Hst.
    destruct (qualifying_from graph configs filter l (interlayer_edges graph))
      as [|e0 rest] eqn:Hq; [congruence|].
    destruct Hst as (m' & sc & Hsc & Hm' & Hp & _ & Hs & Hn).
    assert (m' = m) by congruence. subst m'.
    exists e0, rest, sc. rewrite Nat.add_1_r.
    repeat (split; [assumption || reflexivity|]).
    rewrite Hp. destruct (every_nth_head (S (interlayer_edge_insertion_skip sc)) e0 rest)
      as [drawn ->].
    cbn [flat_map]. rewrite length_app.
    rewrite (qualifying_segment graph configs filter visualizer_config e0); [lia|].
    assert (e0 ∈ qualifying_from graph configs filter l (interlayer_edges graph)) as He
      by (rewrite Hq; apply list_elem_of_here).
    apply list_elem_of_filter in He as [[He _] _]. exact He.
Qed.

End BatchClaim.

(* the one batch carries the name of the first pair *)
Example two_children_batch_name :
  (arr ← @makeGraphEdgeMarkers sample_collaborators sample_header two_children_graph
            all_shown_configs sample_visualizer_config "edges_" None;
   Ok (map (fun m => (ns m, length (points m))) arr))
  = Ok [("edges_4_3"%string, 4%nat)].
Proof. vm_compute. reflexivity. Qed.

Lemma two_children_one_batch :
  exists st,
    @graph_edge_pass sample_collaborators sample_header two_children_graph
      all_shown_configs sample_visualizer_config "edges_" None
      (interlayer_edges two_children_graph) = Ok st
    /\ length (in_key_order (layer_markers st)) = 1%nat.
Proof.
  destruct (@makeGraphEdgeMarkers sample_collaborators sample_header two_children_graph
              all_shown_configs sample_visualizer_config "edges_" None)
    as [arr|x] eqn:E; [|vm_compute in E; discriminate].
  destruct (@one_batch_per_source_layer sample_collaborators sample_header
              two_children_graph all_shown_configs sample_visualizer_config "edges_"
              None arr E) as (st & Hpass & Harr & _).
  exists st. split; [exact Hpass|].
  rewrite <- Harr. vm_compute in E. inversion E. reflexivity.
Defined.

(** ** Intra-layer edges: the loop that may not end *)

Section LayerEdgeLoop.
Context `{Collaborators}.

(* while the edge under the cursor is filtered out the cursor stays where
   it is, and no step budget is enough *)
Lemma layer_edge_loop_stuck config layer visualizer_config color_func filter cursor edge :
  edges layer !! cursor = Some edge ->
  rejects filter (layer_getNode layer (edge_source edge))
  || rejects filter (layer_getNode layer (edge_target edge)) = true ->
  forall steps marker,
    layer_edge_loop steps config layer visualizer_config color_func filter cursor marker
    = StillRunning.
Proof.
  intros Hedge Hrej. induction steps as [|steps IH]; intros marker; [reflexivity|].
  cbn [layer_edge_loop]. rewrite Hedge.
  apply lookup_lt_Some in Hedge as Hlt.
  destruct (Nat.eqb_spec cursor (length (edges layer))) as [E|_]; [lia|].
  rewrite Hrej. apply IH.
Qed.

End LayerEdgeLoop.

(** C6 fails on the code.  With a filter that rejects an end of the first
    edge, the [continue] leaves the iterator where it is: whatever the
    number of steps granted, [makeLayerEdgeMarkers] is still running. *)
Theorem layer_edges_filtered_never_return (steps : nat) :
  @makeLayerEdgeMarkers sample_collaborators steps sample_header
    (sample_layer_config true 0) one_edge_layer sample_visualizer_config "edges"
    plain_edge_color without_node_1
  = StillRunning.
Proof.
  unfold makeLayerEdgeMarkers.
  apply (@layer_edge_loop_stuck sample_collaborators _ one_edge_layer _ _ without_node_1 0%nat
           {| edge_source := 1; edge_target := 2; weight := zero |});
    reflexivity.
Qed.

(* without a filter and with a skip of 0 the same layer is drawn *)
Example layer_edges_unfiltered_return :
  exists m,
    @makeLayerEdgeMarkers sample_collaborators 5 sample_header
      (sample_layer_config true 0) one_edge_layer sample_visualizer_config "edges"
      plain_edge_color None = Returned m
    /\ length (points m) = 2%nat.
Proof. eexists. split; reflexivity. Qed.

(* three edges with a skip of 1: the second advance leaves the sequence *)
Example layer_edges_advance_past_end :
  @makeLayerEdgeMarkers sample_collaborators 5 sample_header
    (sample_layer_config true 1) three_edge_layer sample_visualizer_config "edges"
    plain_edge_color None = AdvancedPastEnd.
Proof. reflexivity. Qed.

(** ** Mesh-connection fans *)

Section MeshFanProperties.
Context `{Collaborators}.

Lemma mesh_fan_loop config visualizer_config mesh center_point node_color :
  forall conns m,
    let st := fold_left
                (mesh_fan_step config visualizer_config mesh center_point node_color)
                conns (0%nat, m) in
    st.1 = length conns
    /\ points st.2
       = points m ++ fan_vertices config visualizer_config mesh center_point conns
    /\ length (colors st.2)
       = (length (colors m)
          + length (fan_vertices config visualizer_config mesh center_point conns))%nat.
Proof.
  induction conns as [|midx conns IH] using rev_ind; intros m; cbv zeta.
  - cbn. rewrite app_nil_r. auto.
  - rewrite fold_left_app. cbn [fold_left].
    destruct (IH m) as (Hi & Hp & Hc). cbv zeta in *.
    destruct (fold_left _ conns (0%nat, m)) as [i marker]. cbn [fst snd] in *. subst i.
    unfold fan_vertices in *. rewrite every_nth_snoc, filter_app, flat_map_app.
    unfold mesh_fan_step. replace (S (length conns) - 1)%nat with (length conns) by lia.
    rewrite length_app. cbn [length].
    destruct (decide (length conns mod (interlayer_edge_insertion_skip config + 1) = 0)%nat)
      as [Hd|Hd].
    + rewrite Hd. cbn [Nat.eqb negb]. rewrite filter_cons, filter_nil.
      destruct (Nat.leb_spec (numVertices mesh) midx) as [Hout|Hin].
      * destruct (decide (midx < numVertices mesh)%nat); [lia|].
        cbn [fst snd flat_map]. rewrite !app_nil_r. split; [lia|]. auto.
      * destruct (decide (midx < numVertices mesh)%nat); [|lia].
        cbn [fst snd flat_map]. unfold mesh_vertex in *.
        destruct (interlayer_edge_use_color config),
                 (negb (collapse_layers visualizer_config));
          autorewrite with marker_fields;
          rewrite ?length_app, Hp, ?Hc, ?length_app, <- ?app_assoc; cbn [length app];
          (split; [lia|]); (split; [reflexivity|lia]).
    + apply Nat.eqb_neq in Hd. rewrite Hd. cbn [negb fst snd].
      rewrite filter_nil. cbn [flat_map]. rewrite !app_nil_r. split; [lia|]. auto.
Qed.

Lemma mesh_edges_node_connected config visualizer_config mesh m node a :
  attrs node = Place2dAttrs a ->
  pcl_mesh_connections a <> [] ->
  exists m',
    mesh_edges_node config visualizer_config mesh m node = Ok m'
    /\ points m'
       = points m
         ++ [fan_centroid config visualizer_config a;
             fan_center config visualizer_config a]
         ++ fan_vertices config visualizer_config mesh
              (fan_center config visualizer_config a) (pcl_mesh_connections a)
    /\ length (colors m')
       = (length (colors m) + 2
          + length (fan_vertices config visualizer_config mesh
                      (fan_center config visualizer_config a)
                      (pcl_mesh_connections a)))%nat.
Proof.
  intros Ha Hne. unfold mesh_edges_node, attributes_Place2d. rewrite Ha.
  cbn [mbind result_bind]. rewrite bool_decide_eq_false_2 by exact Hne.
  eexists. split; [reflexivity|].
  match goal with
  | |- context [fold_left ?f ?l (0%nat, ?m0)] =>
    destruct (mesh_fan_loop config visualizer_config mesh
                (fan_center config visualizer_config a)
                (sem_color (place2d_sem a)) l m0) as (_ & Hp & Hc)
  end.
  cbv zeta in Hp, Hc. unfold fan_center in *. rewrite Hp, Hc.
  destruct (interlayer_edge_use_color config); autorewrite with marker_fields;
    rewrite ?length_app, <- ?app_assoc; cbn [length app]; (split; [reflexivity|lia]).
Qed.

Lemma mesh_edges_node_unconnected config visualizer_config mesh m node a :
  attrs node = Place2dAttrs a ->
  pcl_mesh_connections a = [] ->
  mesh_edges_node config visualizer_config mesh m node = Ok m.
Proof.
  intros Ha He. unfold mesh_edges_node, attributes_Place2d. rewrite Ha.
  cbn [mbind result_bind]. rewrite bool_decide_eq_true_2 by exact He. reflexivity.
Qed.

Lemma fan_vertices_empty_mesh config visualizer_config mesh center_point conns :
  numVertices mesh = 0%nat ->
  fan_vertices config visualizer_config mesh center_point conns = [].
Proof.
  intros Hz. unfold fan_vertices. rewrite Hz.
  induction (every_nth _ conns) as [|x l IH]; [reflexivity|].
  rewrite filter_cons. destruct (decide (x < 0)%nat); [lia|]. exact IH.
Qed.

(** C7. The mesh-connection fan builder on degenerate meshes.  Without a
    mesh it returns the empty line list.  With an empty mesh, a node with
    three mesh connections contributes the segment from its centroid to the
    break point and nothing else.  In general the spokes go to the sampled
    connections that are vertices of the mesh: an index at or beyond the
    vertex count is passed over. *)
Theorem mesh_fan_degenerate_inputs
    (hdr : Header) (config : LayerConfig) (visualizer_config : VisualizerConfig)
    (graph : DynamicSceneGraph) (layer : SceneGraphLayer) (ns_ : string) :
  (graph_mesh graph = None ->
   exists m,
     makeMeshEdgesMarker hdr config visualizer_config graph layer ns_ = Ok m
     /\ points m = [] /\ colors m = []
     /\ type m = LINE_LIST /\ action m = ADD /\ ns m = ns_ /\ header m = hdr)
  /\ (forall mesh node a i1 i2 i3,
        graph_mesh graph = Some mesh ->
        numVertices mesh = 0%nat ->
        nodes layer = [node] ->
        attrs node = Place2dAttrs a ->
        pcl_mesh_connections a = [i1; i2; i3] ->
        exists m,
          makeMeshEdgesMarker hdr config visualizer_config graph layer ns_ = Ok m
          /\ points m = [fan_centroid config visualizer_config a;
                         fan_center config visualizer_config a]
          /\ length (colors m) = 2%nat)
  /\ (forall mesh m0 node a,
        attrs node = Place2dAttrs a ->
        pcl_mesh_connections a <> [] ->
        exists m,
          mesh_edges_node config visualizer_config mesh m0 node = Ok m
          /\ points m
             = points m0
               ++ [fan_centroid config visualizer_config a;
                   fan_center config visualizer_config a]
               ++ flat_map
                    (fun midx => [fan_center config visualizer_config a;
                                  mesh_vertex visualizer_config mesh midx])
                    (base.filter (fun midx => (midx < numVertices mesh)%nat)
                       (every_nth (interlayer_edge_insertion_skip config + 1)
                                  (pcl_mesh_connections a)))).
Proof.
  split; [|split].
  - intros Hnone. unfold makeMeshEdgesMarker. rewrite Hnone.
    eexists. split; [reflexivity|]. repeat split; reflexivity.
  - intros mesh node a i1 i2 i3 Hmesh Hz Hnodes Ha Hconns.
    unfold makeMeshEdgesMarker. rewrite Hmesh, Hnodes. cbn [for_each].
    match goal with
    | |- context [mesh_edges_node _ _ _ ?m0 _] =>
      destruct (mesh_edges_node_connected config visualizer_config mesh m0 node a Ha)
        as (m & E & P & C); [rewrite Hconns; discriminate|]
    end.
    rewrite E. cbn [mbind result_bind]. exists m. split; [reflexivity|].
    rewrite (fan_vertices_empty_mesh _ _ _ _ _ Hz) in P, C.
    rewrite P, C. split; reflexivity.
  - intros mesh m0 node a Ha Hne.
    destruct (mesh_edges_node_connected config visualizer_config mesh m0 node a Ha Hne)
      as (m & E & P & _).
    exists m. split; [exact E | exact P].
Qed.

End MeshFanProperties.

Lemma mesh_fan_of_empty_mesh :
  exists m,
    @makeMeshEdgesMarker sample_collaborators sample_header (sample_layer_config true 0)
      sample_visualizer_config (graph_with_mesh (Some empty_mesh))
      connected_place_layer "mesh_edges" = Ok m
    /\ length (points m) = 2%nat.
Proof.
  destruct (proj1 (proj2 (@mesh_fan_degenerate_inputs sample_collaborators sample_header
              (sample_layer_config true 0) sample_visualizer_config
              (graph_with_mesh (Some empty_mesh)) connected_place_layer "mesh_edges"))
              empty_mesh _ _ 0%nat 7%nat 1%nat eq_refl eq_refl eq_refl eq_refl eq_refl)
    as (m & E & P & _).
  exists m. split; [exact E|]. rewrite P. reflexivity.
Defined.

(* of the connections 0, 7 and 1 into a mesh of two vertices, 7 is passed over *)
Example mesh_fan_skips_out_of_range :
  exists m,
    @makeMeshEdgesMarker sample_collaborators sample_header (sample_layer_config true 0)
      sample_visualizer_config (graph_with_mesh (Some two_vertex_mesh))
      connected_place_layer "mesh_edges" = Ok m
    /\ length (points m) = 6%nat.
Proof. eexists. split; reflexivity. Qed.

(** ** Attribute kinds *)

Section AttributeKinds.
Context `{Collaborators}.

(* the ellipse builder hands the failed cast on to its caller *)
Lemma ellipse_nodes_bad_cast config :
  forall l m,
    ~ Forall is_place2d l -> for_each l (ellipse_node config) m = Raise bad_cast.
Proof.
  induction l as [|n l IH]; intros m Hnot.
  - exfalso. apply Hnot. constructor.
  - cbn [for_each].
    destruct (attrs n) as [p|a|a|a] eqn:Ha;
      try (unfold ellipse_node, attributes_Place2d; rewrite Ha; reflexivity).
    destruct (ellipse_node_place2d config m n a Ha) as (m1 & E1 & _).
    rewrite E1. cbn [mbind result_bind]. apply IH.
    intros Hl. apply Hnot. constructor; [exists a; exact Ha | exact Hl].
Qed.

(* the label builder catches it and falls back on the node symbol *)
Lemma makeTextMarker_plain_node hdr config node visualizer_config ns_ draw p :
  attrs node = BaseAttrs p ->
  text (makeTextMarker hdr config node visualizer_config ns_ draw) = getLabel (node_id node).
Proof.
  intros Ha. unfold makeTextMarker, attributes_Semantic. rewrite Ha.
  destruct (add_label_jitter config); reflexivity.
Qed.

End AttributeKinds.

(** C8 fails on the code.  A layer that holds a node of another attribute
    kind makes [makeLayerEllipseBoundaries] throw: the cast to the 2D-place
    attributes is not guarded, and no batch is returned. *)
Theorem ellipse_boundaries_throw_on_plain_node :
  @makeLayerEllipseBoundaries sample_collaborators sample_header
    (sample_layer_config true 0) mixed_layer sample_visualizer_config "places"
  = Raise bad_cast.
Proof.
  unfold makeLayerEllipseBoundaries.
  apply (@ellipse_nodes_bad_cast sample_collaborators).
  intros Hall. inversion Hall as [|? ? _ Hrest]; subst.
  inversion Hrest as [|? ? [a Ha] _]; subst. discriminate Ha.
Qed.

(** ** The label of a dynamic layer *)

Section DynamicLabel.
Context `{Collaborators}.

Lemma size_t_sub_empty : size_t_sub 0 1 = (2 ^ 64 - 1)%Z.
Proof. reflexivity. Qed.

(** C10. [makeDynamicLabelMarker] reads the position at index
    [numNodes() - 1] in unsigned 64-bit arithmetic.  On a layer without
    nodes the index wraps to 2^64 - 1, where no node is, and no marker is
    returned.  On a layer whose last slot holds a node it returns one text
    marker at the position of that node, raised by the z-offset of the layer
    and the label height.  On a layer that is not empty but whose last slot
    has been vacated the lookup fails as well: that the layer has nodes is
    not enough. *)
Theorem dynamic_label_marker_at_last_node
    (hdr : Header) (config : DynamicLayerConfig) (layer : DynamicSceneGraphLayer)
    (visualizer_config : VisualizerConfig) (ns_ : string) (marker_id : Z) :
  (dyn_nodes layer = [] ->
   size_t_sub (dyn_numNodes layer) 1 = (2 ^ 64 - 1)%Z
   /\ makeDynamicLabelMarker hdr config layer visualizer_config ns_ marker_id
      = Raise out_of_range)
  /\ (forall earlier node,
        dyn_nodes layer = earlier ++ [Some node] ->
        (dyn_numNodes layer < 2 ^ 64)%Z ->
        exists m,
          makeDynamicLabelMarker hdr config layer visualizer_config ns_ marker_id = Ok m
          /\ type m = TEXT_VIEW_FACING
          /\ action m = ADD
          /\ text m = "Agent"%string
          /\ position (pose m)
             = add_z (toPoint (attributes_position node))
                     (getZOffset_scale (z_offset_scale config) visualizer_config
                      + dyn_label_height config)
          /\ points m = [] /\ colors m = [])
  /\ (forall earlier,
        dyn_nodes layer = earlier ++ [None] ->
        (dyn_numNodes layer < 2 ^ 64)%Z ->
        makeDynamicLabelMarker hdr config layer visualizer_config ns_ marker_id
        = Raise out_of_range).
Proof.
  split; [|split].
  - intros Hempty. unfold makeDynamicLabelMarker, getPositionByIndex, dyn_numNodes.
    rewrite Hempty. split; reflexivity.
  - intros earlier node Hnodes Hfits.
    unfold makeDynamicLabelMarker, getPositionByIndex, dyn_numNodes, size_t_sub in *.
    rewrite Hnodes in *. rewrite length_app in *. cbn [length] in *.
    replace (Z.to_nat ((Z.of_nat (length earlier + 1) - 1) mod 2 ^ 64))
      with (length earlier + 0)%nat
      by (rewrite Z.mod_small by lia; lia).
    rewrite lookup_app_r by lia.
    replace (length earlier + 0 - length earlier)%nat with 0%nat by lia.
    cbn [lookup list_lookup mbind result_bind].
    eexists. split; [reflexivity|]. repeat split; reflexivity.
  - intros earlier Hnodes Hfits.
    unfold makeDynamicLabelMarker, getPositionByIndex, dyn_numNodes, size_t_sub in *.
    rewrite Hnodes in *. rewrite length_app in *. cbn [length] in *.
    replace (Z.to_nat ((Z.of_nat (length earlier + 1) - 1) mod 2 ^ 64))
      with (length earlier + 0)%nat
      by (rewrite Z.mod_small by lia; lia).
    rewrite lookup_app_r by lia.
    replace (length earlier + 0 - length earlier)%nat with 0%nat by lia.
    reflexivity.
Qed.

End DynamicLabel.

Lemma dynamic_label_of_sample_trajectory :
  exists m,
    @makeDynamicLabelMarker sample_collaborators sample_header (sample_dynamic_config 0)
      sample_trajectory sample_visualizer_config "agent_label" 0 = Ok m
    /\ position (pose m) = {| px := 1; py := 2; pz := 3 + (0 + 1) |}%R.
Proof.
  destruct (proj1 (proj2 (@dynamic_label_marker_at_last_node sample_collaborators
                            sample_header (sample_dynamic_config 0) sample_trajectory
                            sample_visualizer_config "agent_label" 0%Z))
                  [Some (sample_node 1 2 (BaseAttrs origin)); None]
                  (sample_node 3 2 (BaseAttrs {| vx := 1; vy := 2; vz := 3 |}))
                  eq_refl ltac:(vm_compute; reflexivity))
    as (m & E & _ & _ & _ & P & _).
  exists m. split; [exact E | exact P].
Defined.

(* a trajectory that has a node and whose last slot is vacated: the layer is
   not empty, and the lookup throws *)
Lemma dynamic_label_of_vacated_last_slot :
  dyn_nodes vacated_trajectory <> []
  /\ (0 < length (present_nodes vacated_trajectory))%nat
  /\ @makeDynamicLabelMarker sample_collaborators sample_header (sample_dynamic_config 0)
       vacated_trajectory sample_visualizer_config "agent_label" 0
     = Raise out_of_range.
Proof. split; [discriminate|]. split; [cbn; lia|reflexivity]. Qed.

(* the empty trajectory: the index wraps and the lookup throws *)
Example dynamic_label_of_empty_layer :
  @makeDynamicLabelMarker sample_collaborators sample_header (sample_dynamic_config 0)
    {| dyn_nodes := []; dyn_edges := []; getPosition := fun _ => origin |}
    sample_visualizer_config "agent_label" 0
  = Raise out_of_range.
Proof. reflexivity. Qed.

(** ** Well-formed batches *)

Lemma type_push_points ps m : type (push_points ps m) = type m.
Proof. reflexivity. Qed.
Lemma type_push_colors cs m : type (push_colors cs m) = type m.
Proof. reflexivity. Qed.
#[global] Hint Rewrite type_push_points type_push_colors : marker_fields.

Lemma Ok_inj {A : Type} (a b : A) : Ok a = Ok b -> a = b.
Proof. congruence. Qed.
Lemma Returned_inj (a b : Marker) : Returned a = Returned b -> a = b.
Proof. congruence. Qed.
Lemma Some_inj {A : Type} (a b : A) : Some a = Some b -> a = b.
Proof. congruence. Qed.
Ltac ok_inv E := first [apply Ok_inj in E | apply Returned_inj in E]; subst.
Ltac ok_inv' E := apply Some_inj in E; subst.

Lemma for_each_invariant {A S : Type} (P : S -> Prop) (body : S -> A -> result S)
    (l : list A) :
  (forall s a s', P s -> body s a = Ok s' -> P s') ->
  forall s s', P s -> for_each l body s = Ok s' -> P s'.
Proof.
  intros Hbody. induction l as [|a l IH]; intros s s' Hs Hrun; cbn [for_each] in Hrun.
  - inversion Hrun; subst. exact Hs.
  - destruct (body s a) as [s1|x] eqn:E; cbn [mbind result_bind] in Hrun; [|discriminate].
    apply (IH s1 s' (Hbody s a s1 Hs E) Hrun).
Qed.

Lemma fold_left_invariant {A S : Type} (P : S -> Prop) (f : S -> A -> S) (l : list A) :
  (forall s a, P s -> P (f s a)) -> forall s, P s -> P (fold_left f l s).
Proof.
  intros Hf. induction l as [|a l IH]; intros s Hs; cbn [fold_left]; auto.
Qed.

Lemma colored_pairs_line_list m : colored_pairs m -> line_list_batch m.
Proof.
  intros (Ht & He & Hc). split; [exact Ht|]. split.
  - apply Nat.even_spec, He.
  - right. right. exact Hc.
Qed.

Lemma plain_pairs_line_list m : plain_pairs m -> line_list_batch m.
Proof.
  intros (Ht & He & Hc). split; [exact Ht|]. split.
  - apply Nat.even_spec, He.
  - left. rewrite Hc. reflexivity.
Qed.

(* pushes keep the invariants *)
Ltac pairs :=
  unfold colored_pairs, plain_pairs, color_per_point in *;
  autorewrite with marker_fields;
  rewrite ?length_app, ?repeat_length; cbn [length];
  repeat match goal with H : _ /\ _ |- _ => destruct H end;
  repeat split;
  first [ assumption | congruence | lia
        | rewrite ?Nat.even_add;
          repeat match goal with H : Nat.even _ = true |- _ => rewrite H end;
          reflexivity ].

Section BatchInvariants.
Context `{Collaborators}.

Lemma ellipse_node_pairs config m n m' :
  colored_pairs m -> ellipse_node config m n = Ok m' -> colored_pairs m'.
Proof.
  unfold ellipse_node. intros Hm.
  destruct (attributes_Place2d n) as [a|x]; cbn [mbind result_bind]; [|discriminate].
  destruct (length (boundary a) <=? 1)%nat; intros E; ok_inv E; [exact Hm|].
  apply (fold_left_invariant (fun st => colored_pairs st.1)); [|exact Hm].
  intros [s p] ix Hs. cbn [fst ellipse_step] in *. pairs.
Qed.

Lemma polygon_edges_node_pairs config visualizer_config m n m' :
  colored_pairs m -> polygon_edges_node config visualizer_config m n = Ok m' ->
  colored_pairs m'.
Proof.
  unfold polygon_edges_node. intros Hm.
  destruct (attributes_Place2d n) as [a|x]; cbn [mbind result_bind]; [|discriminate].
  destruct (length (boundary a) <=? 1)%nat; intros E; ok_inv E; [exact Hm|].
  apply (fold_left_invariant colored_pairs); [|exact Hm].
  intros s b Hs. pairs.
Qed.

Lemma polygon_boundary_node_pairs config m n m' :
  colored_pairs m -> polygon_boundary_node config m n = Ok m' -> colored_pairs m'.
Proof.
  unfold polygon_boundary_node. intros Hm.
  destruct (attributes_Place2d n) as [a|x]; cbn [mbind result_bind]; [|discriminate].
  destruct (length (boundary a) <=? 1)%nat; intros E; ok_inv E; [exact Hm|].
  apply (fold_left_invariant (fun st => colored_pairs st.1)); [|exact Hm].
  intros [s p] b Hs. cbn [fst polygon_boundary_step] in *. pairs.
Qed.

Lemma edges_to_bbox_node_pairs config visualizer_config func filter m n m' :
  colored_pairs m ->
  edges_to_bbox_node config visualizer_config func filter m n = Ok m' ->
  colored_pairs m'.
Proof.
  unfold edges_to_bbox_node. intros Hm.
  destruct (rejects filter n); [intros E; ok_inv E; exact Hm|].
  destruct (attributes_Semantic n) as [a|x]; cbn [mbind result_bind]; [|discriminate].
  intros E; ok_inv E. unfold addEdgesToCorners. pairs.
Qed.

Lemma add_wire_pairs corners col c n m :
  colored_pairs m -> colored_pairs (add_wire corners col c n m).
Proof. unfold add_wire. intros Hm. case_bool_decide; [pairs | exact Hm]. Qed.

Lemma addWireframeToMarker_pairs corners col m :
  colored_pairs m -> colored_pairs (addWireframeToMarker corners col m).
Proof.
  unfold addWireframeToMarker. apply fold_left_invariant.
  intros s c Hs. cbv zeta. auto using add_wire_pairs.
Qed.

Lemma wireframe_node_pairs config func filter m n m' :
  colored_pairs m -> wireframe_node config func filter m n = Ok m' -> colored_pairs m'.
Proof.
  unfold wireframe_node. intros Hm.
  destruct (rejects filter n); [intros E; ok_inv E; exact Hm|].
  destruct (attributes_Semantic n) as [a|x]; cbn [mbind result_bind]; [|discriminate].
  intros E; ok_inv E. apply addWireframeToMarker_pairs, Hm.
Qed.

Lemma mesh_edges_node_pairs config visualizer_config mesh m n m' :
  colored_pairs m -> mesh_edges_node config visualizer_config mesh m n = Ok m' ->
  colored_pairs m'.
Proof.
  unfold mesh_edges_node. intros Hm.
  destruct (attributes_Place2d n) as [a|x]; cbn [mbind result_bind]; [|discriminate].
  case_bool_decide; intros E; ok_inv E; [exact Hm|].
  apply (fold_left_invariant (fun st => colored_pairs st.2)).
  - intros [i s] midx Hs. cbn [snd] in Hs. unfold mesh_fan_step.
    destruct (negb _); [exact Hs|].
    destruct (_ <=? _)%nat; [exact Hs|]. cbn [snd].
    destruct (interlayer_edge_use_color config); pairs.
  - cbn [snd]. destruct (interlayer_edge_use_color config); pairs.
Qed.

Lemma layer_edge_loop_pairs config layer visualizer_config color_func filter :
  forall steps cursor m m',
    colored_pairs m ->
    layer_edge_loop steps config layer visualizer_config color_func filter cursor m
    = Returned m' ->
    colored_pairs m'.
Proof.
  induction steps as [|steps IH]; intros cursor m m' Hm; cbn [layer_edge_loop];
    [discriminate|].
  destruct (cursor =? length (edges layer))%nat;
    [intros E; ok_inv E; exact Hm|].
  destruct (edges layer !! cursor) as [edge|]; [|discriminate].
  destruct (rejects filter _ || rejects filter _); [apply IH, Hm|].
  destruct (_ <? _)%nat; [discriminate|].
  apply IH. pairs.
Qed.



Lemma graph_edge_step_pairs hdr graph configs visualizer_config ns_prefix filter st e st' :
  all_colored_pairs st ->
  graph_edge_step hdr graph configs visualizer_config ns_prefix filter st e = Ok st' ->
  all_colored_pairs st'.
Proof.
  intros Hst Hstep.
  destruct (qualifies graph configs filter e) eqn:Hq.
  - destruct (step_qualifying hdr graph configs visualizer_config ns_prefix filter st e Hq)
      as (sc & tc & _ & _ & Hs).
    cbv zeta in Hs. rewrite Hs in Hstep. clear Hs.
    set (l0 := source_layer graph e) in *.
    assert (colored_pairs
              (default (makeNewEdgeList hdr sc ns_prefix l0 (target_layer graph e))
                       (layer_markers st !! l0))) as Hm0.
    { destruct (layer_markers st !! l0) as [m|] eqn:Em; cbn.
      - apply (Hst l0 m Em).
      - repeat split. }
    destruct (_ <=? _)%nat.
    + destruct (edge_color graph sc e) as [col|x]; cbn [mbind result_bind] in Hstep;
        [|discriminate].
      ok_inv Hstep. intros l m. cbn [layer_markers].
      destruct (decide (l0 = l)) as [<-|Hne].
      * rewrite lookup_insert_eq. intros E. ok_inv' E. pairs.
      * rewrite lookup_insert_ne by exact Hne. apply Hst.
    + ok_inv Hstep. intros l m. cbn [layer_markers].
      destruct (decide (l0 = l)) as [<-|Hne].
      * rewrite lookup_insert_eq. intros E. ok_inv' E. exact Hm0.
      * rewrite lookup_insert_ne by exact Hne. apply Hst.
  - rewrite (step_not_qualifying hdr graph configs visualizer_config ns_prefix filter
               st e Hq) in Hstep.
    ok_inv Hstep. exact Hst.
Qed.

Lemma dynamic_edge_step_pairs hdr graph configs dynamic_configs visualizer_config
    ns_prefix st e st' :
  all_plain_pairs st ->
  dynamic_edge_step hdr graph configs dynamic_configs visualizer_config ns_prefix st e
  = Ok st' ->
  all_plain_pairs st'.
Proof.
  intros Hst Hstep.
  destruct (dyn_qualifies graph configs dynamic_configs e) eqn:Hq.
  - destruct (dstep_qualifying hdr graph configs dynamic_configs visualizer_config
                ns_prefix st e st' Hq Hstep) as (config & _ & Hs).
    cbv zeta in Hs. set (l0 := source_layer graph e) in *.
    destruct Hs as [(_ & sc & tc & _ & _ & ->)|(_ & _ & ->)]; [|exact Hst].
    intros l m. cbn [layer_markers].
    destruct (decide (l0 = l)) as [<-|Hne].
    + rewrite lookup_insert_eq. intros E. ok_inv' E.
      assert (plain_pairs
                (default (makeNewEdgeList hdr sc ns_prefix l0 (target_layer graph e)
                          |> set_color (makeColorMsg Color_default
                                                     (Some (edge_alpha config))))
                         (layer_markers st !! l0))) as Hm0.
      { destruct (layer_markers st !! l0) as [m|] eqn:Em; cbn.
        - apply (Hst l0 m Em).
        - repeat split. }
      pairs.
    + rewrite lookup_insert_ne by exact Hne. apply Hst.
  - rewrite (dstep_not_qualifying hdr graph configs dynamic_configs visualizer_config
               ns_prefix st e Hq) in Hstep.
    ok_inv Hstep. exact Hst.
Qed.

Lemma no_edges_pairs : all_colored_pairs no_edges /\ all_plain_pairs no_edges.
Proof. split; intros l m E; cbn in E; rewrite lookup_empty in E; discriminate. Qed.


Lemma color_per_point_fit m : color_per_point m -> colors_fit m.
Proof. intros Hc. right. right. exact Hc. Qed.

(** C9. Whatever a builder of this file hands back is well formed.  The
    line lists (ellipse and polygon boundaries, bounding-box wireframes and
    radial edges, inter-layer and dynamic inter-layer edges, intra-layer
    edges, mesh fans, dynamic edges, GVD edges) have an even number of
    vertices; and every batch has no per-vertex color, one, or as many as it
    has vertices. *)
Theorem produced_batches_are_well_formed
    (hdr : Header) (config : LayerConfig) (dynamic_config : DynamicLayerConfig)
    (visualizer_config : VisualizerConfig) (ns_ : string)
    (layer : SceneGraphLayer) (dynamic_layer : DynamicSceneGraphLayer)
    (graph : DynamicSceneGraph) (configs : gmap Z LayerConfig)
    (dynamic_configs : gmap Z DynamicLayerConfig)
    (func : ColorFunction) (edge_func : EdgeColorFunction)
    (throwing_func : ThrowingColorFunction) (filter : FilterFunction)
    (node : SceneGraphNode) (nh : NodeHandle)
    (col : Color) (scale_ draw : R) (marker_id steps_ : nat) :
  (* line lists *)
  produced line_list_batch
    (makeLayerEllipseBoundaries hdr config layer visualizer_config ns_)
  /\ produced line_list_batch
       (makeLayerPolygonEdges hdr config layer visualizer_config ns_)
  /\ produced line_list_batch
       (makeLayerPolygonBoundaries hdr config layer visualizer_config ns_)
  /\ produced line_list_batch
       (makeEdgesToBoundingBoxes hdr config layer visualizer_config ns_ func filter)
  /\ produced line_list_batch
       (makeLayerWireframeBoundingBoxes hdr config layer visualizer_config ns_ func filter)
  /\ produced (Forall line_list_batch)
       (makeGraphEdgeMarkers hdr graph configs visualizer_config ns_ filter)
  /\ produced (Forall line_list_batch)
       (makeDynamicGraphEdgeMarkers hdr graph configs dynamic_configs
          visualizer_config ns_)
  /\ returned line_list_batch
       (makeLayerEdgeMarkers steps_ hdr config layer visualizer_config ns_ edge_func filter)
  /\ produced line_list_batch
       (makeMeshEdgesMarker hdr config visualizer_config graph layer ns_)
  /\ line_list_batch
       (makeDynamicEdgeMarkers hdr dynamic_config dynamic_layer visualizer_config col ns_
          (Z.of_nat marker_id))
  /\ produced (Forall (fun m => colors_fit m
                               /\ (type m = LINE_LIST -> line_list_batch m)))
       (makeGvdWireframe hdr config layer ns_ throwing_func (Z.of_nat marker_id))
  (* the other batches *)
  /\ colors_fit (makeDeleteMarker hdr (Z.of_nat marker_id) ns_)
  /\ produced colors_fit
       (makeBoundingBoxMarker hdr config node visualizer_config ns_ func)
  /\ colors_fit (makeTextMarker hdr config node visualizer_config ns_ draw)
  /\ produced (fun r => colors_fit r.1) (makeTextMarkerNoHeight hdr config node ns_ nh)
  /\ produced (Forall colors_fit)
       (makeEllipsoidMarkers hdr config layer visualizer_config ns_ func)
  /\ colors_fit (makeCentroidMarkers hdr config layer visualizer_config ns_ func filter)
  /\ produced colors_fit
       (makePlaceCentroidMarkers hdr config layer visualizer_config ns_ func)
  /\ colors_fit
       (makeDynamicCentroidMarkers hdr dynamic_config dynamic_layer scale_
          visualizer_config ns_ func (Z.of_nat marker_id))
  /\ produced colors_fit
       (makeDynamicLabelMarker hdr dynamic_config dynamic_layer visualizer_config ns_
          (Z.of_nat marker_id)).
Proof.
  repeat match goal with |- _ /\ _ => split end.
  - (* ellipse boundaries *)
    unfold makeLayerEllipseBoundaries, produced.
    destruct (for_each _ _ _) as [m|x] eqn:E; [|exact I].
    apply colored_pairs_line_list.
    refine (for_each_invariant colored_pairs _ _ (ellipse_node_pairs config) _ m _ E).
    repeat split.
  - unfold makeLayerPolygonEdges, produced.
    destruct (for_each _ _ _) as [m|x] eqn:E; [|exact I].
    apply colored_pairs_line_list.
    refine (for_each_invariant colored_pairs _ _
              (polygon_edges_node_pairs config visualizer_config) _ m _ E).
    repeat split.
  - unfold makeLayerPolygonBoundaries, produced.
    destruct (for_each _ _ _) as [m|x] eqn:E; [|exact I].
    apply colored_pairs_line_list.
    refine (for_each_invariant colored_pairs _ _ (polygon_boundary_node_pairs config)
              _ m _ E).
    repeat split.
  - unfold makeEdgesToBoundingBoxes, produced.
    destruct (for_each _ _ _) as [m|x] eqn:E; [|exact I].
    apply colored_pairs_line_list.
    refine (for_each_invariant colored_pairs _ _
              (edges_to_bbox_node_pairs config visualizer_config func filter) _ m _ E).
    repeat split.
  - unfold makeLayerWireframeBoundingBoxes, produced.
    destruct (for_each _ _ _) as [m|x] eqn:E; [|exact I].
    apply colored_pairs_line_list.
    refine (for_each_invariant colored_pairs _ _
              (wireframe_node_pairs config func filter) _ m _ E).
    repeat split.
  - (* inter-layer edges *)
    unfold makeGraphEdgeMarkers, graph_edge_pass, produced.
    destruct (for_each _ _ _) as [st|x] eqn:E; cbn [mbind result_bind]; [|exact I].
    pose proof (for_each_invariant all_colored_pairs _ _
                  (graph_edge_step_pairs hdr graph configs visualizer_config ns_ filter)
                  _ st (proj1 no_edges_pairs) E) as Hst.
    apply Forall_forall. intros m Hm.
    apply elem_of_in_key_order in Hm as [l Hl].
    apply colored_pairs_line_list, (Hst l m Hl).
  - unfold makeDynamicGraphEdgeMarkers, dynamic_edge_pass, produced.
    destruct (for_each _ _ _) as [st|x] eqn:E; cbn [mbind result_bind]; [|exact I].
    pose proof (for_each_invariant all_plain_pairs _ _
                  (dynamic_edge_step_pairs hdr graph configs dynamic_configs
                     visualizer_config ns_)
                  _ st (proj2 no_edges_pairs) E) as Hst.
    apply Forall_forall. intros m Hm.
    apply elem_of_in_key_order in Hm as [l Hl].
    apply plain_pairs_line_list, (Hst l m Hl).
  - (* intra-layer edges *)
    unfold makeLayerEdgeMarkers, returned.
    destruct (layer_edge_loop _ _ _ _ _ _ _ _) as [m| |] eqn:E; try exact I.
    apply colored_pairs_line_list.
    refine (layer_edge_loop_pairs _ _ _ _ _ _ _ _ m _ E). repeat split.
  - (* mesh fans *)
    unfold makeMeshEdgesMarker, produced.
    destruct (graph_mesh graph) as [mesh|].
    + destruct (for_each _ _ _) as [m|x] eqn:E; [|exact I].
      apply colored_pairs_line_list.
      refine (for_each_invariant colored_pairs _ _
                (mesh_edges_node_pairs config visualizer_config mesh) _ m _ E).
      repeat split.
    + apply colored_pairs_line_list. repeat split.
  - (* dynamic edges *)
    apply plain_pairs_line_list. unfold makeDynamicEdgeMarkers.
    apply fold_left_invariant; [|repeat split].
    intros s e Hs. pairs.
  - (* GVD wireframe *)
    unfold makeGvdWireframe, produced.
    case_bool_decide; [constructor|].
    destruct (for_each (nodes layer) _ _) as [nm|x] eqn:En; cbn [mbind result_bind];
      [|exact I].
    assert (type nm = SPHERE_LIST /\ color_per_point nm) as [Tn Cn].
    { refine (for_each_invariant (fun m => type m = SPHERE_LIST /\ color_per_point m)
                _ _ _ _ nm _ En); [|split; reflexivity].
      intros s a s' [Ts Hs].
      destruct (throwing_func a) as [c|x]; cbn [mbind result_bind]; [|discriminate].
      intros E. ok_inv E. split; [exact Ts|]. pairs. }
    assert (colors_fit nm /\ (type nm = LINE_LIST -> line_list_batch nm)) as Hn.
    { split; [apply color_per_point_fit, Cn | rewrite Tn; discriminate]. }
    case_bool_decide; [constructor; [exact Hn | constructor]|].
    destruct (for_each (edges layer) _ _) as [em|x] eqn:Ee; cbn [mbind result_bind];
      [|exact I].
    assert (colored_pairs em) as He.
    { refine (for_each_invariant colored_pairs _ _ _ _ em _ Ee); [|repeat split].
      intros s e s' Hs. cbv zeta.
      destruct (throwing_func (layer_getNode layer (edge_source e))) as [c1|x];
        cbn [mbind result_bind]; [|intros ?; discriminate].
      destruct (throwing_func (layer_getNode layer (edge_target e))) as [c2|x];
        cbn [mbind result_bind]; [|intros ?; discriminate].
      intros E. ok_inv E. pairs. }
    apply colored_pairs_line_list in He as Hl.
    constructor; [exact Hn|]. constructor; [|constructor].
    split; [apply Hl | intros _; exact Hl].
  - left. reflexivity.
  - unfold makeBoundingBoxMarker, produced.
    destruct (attributes_Semantic node); cbn [mbind result_bind]; [left; reflexivity|exact I].
  - left. unfold makeTextMarker. destruct (add_label_jitter config); reflexivity.
  - unfold makeTextMarkerNoHeight, produced.
    destruct (attributes_Semantic node) as [a|x]; cbn [mbind result_bind]; [|exact I].
    destruct (match default TypeInvalid (label_names_param nh) with
              | TypeArray items => find_label_name (semantic_label a) items
              | _ => Ok None
              end) as [found|x]; cbn [mbind result_bind]; [left; reflexivity|exact I].
  - (* ellipsoids: one color each *)
    unfold makeEllipsoidMarkers, produced.
    destruct (for_each _ _ _) as [st|x] eqn:E; cbn [mbind result_bind]; [|exact I].
    refine (for_each_invariant (fun st => Forall colors_fit st.2) _ _ _ _ st _ E);
      [|constructor].
    intros [i ms] n [i' ms'] Hs. unfold ellipsoid_node.
    destruct (attributes_Place n) as [a|x]; cbn [mbind result_bind]; [|discriminate].
    destruct (real_place a); intros E'; apply Ok_inj in E'; injection E' as <- <-;
      [exact Hs|].
    cbn [snd] in *. apply Forall_app. split; [exact Hs|].
    constructor; [|constructor]. right. left. reflexivity.
  - apply color_per_point_fit. unfold makeCentroidMarkers.
    apply fold_left_invariant; [|reflexivity].
    intros s n Hs. destruct (rejects filter n); [exact Hs|]. pairs.
  - unfold makePlaceCentroidMarkers, produced.
    destruct (for_each _ _ _) as [m|x] eqn:E; [|exact I].
    apply color_per_point_fit.
    refine (for_each_invariant color_per_point _ _ _ _ m _ E); [|reflexivity].
    intros s n s' Hs. unfold place_centroid_node.
    destruct (attributes_Place n) as [a|x]; cbn [mbind result_bind]; [|discriminate].
    destruct (negb (real_place a)); intros E'; ok_inv E'; [exact Hs|]. pairs.
  - apply color_per_point_fit. unfold makeDynamicCentroidMarkers.
    apply fold_left_invariant; [|reflexivity].
    intros s [n|] Hs; [pairs | exact Hs].
  - unfold makeDynamicLabelMarker, produced.
    destruct (getPositionByIndex _ _); cbn [mbind result_bind]; [left; reflexivity|exact I].
Qed.

End BatchInvariants.

Lemma sample_ellipse_batch_is_well_formed :
  exists m,
    @makeLayerEllipseBoundaries sample_collaborators sample_header
      (sample_layer_config true 0) three_places sample_visualizer_config "places" = Ok m
    /\ line_list_batch m.
Proof.
  pose proof (proj1 (@produced_batches_are_well_formed sample_collaborators sample_header
                       (sample_layer_config true 0) (sample_dynamic_config 0)
                       sample_visualizer_config "places" three_places sample_trajectory
                       five_edge_graph skip_two_configs agent_dynamic_configs
                       (fun _ => Color_default) plain_edge_color
                       (fun _ => Ok Color_default) None
                       (sample_node 1 20 (BaseAttrs origin))
                       {| label_names_param := None |} Color_default 0%R 0%R 0%nat 0%nat))
    as P.
  destruct (@makeLayerEllipseBoundaries sample_collaborators sample_header
              (sample_layer_config true 0) three_places sample_visualizer_config "places")
    as [m|x] eqn:E; [|vm_compute in E; discriminate].
  exists m. split; [reflexivity | exact P].
Defined.

(** ** Passes that return *)

Section Returns.
Context `{Collaborators}.

(* one turn of the loop *)
Lemma layer_edge_loop_unfold steps config layer visualizer_config color_func filter
    cursor marker :
  layer_edge_loop (S steps) config layer visualizer_config color_func filter cursor marker
  = if (cursor =? length (edges layer))%nat then Returned marker
    else match edges layer !! cursor with
    | None => AdvancedPastEnd
    | Some edge =>
      let source_node := layer_getNode layer (edge_source edge) in
      let target_node := layer_getNode layer (edge_target edge) in
      if rejects filter source_node || rejects filter target_node then
        layer_edge_loop steps config layer visualizer_config color_func filter
                        cursor marker
      else
        let marker :=
          marker
          |> push_points [add_z (toPoint (attributes_position source_node))
                                (getZOffset config visualizer_config)]
          |> push_points [add_z (toPoint (attributes_position target_node))
                                (getZOffset config visualizer_config)]
          |> push_colors [makeColorMsg (color_func source_node target_node edge true)
                                       (Some (intralayer_edge_alpha config))]
          |> push_colors [makeColorMsg (color_func source_node target_node edge false)
                                       (Some (intralayer_edge_alpha config))] in
        let cursor := (cursor + (intralayer_edge_insertion_skip config + 1))%nat in
        if (length (edges layer) <? cursor)%nat then AdvancedPastEnd
        else layer_edge_loop steps config layer visualizer_config color_func filter
                             cursor marker
    end.
Proof. reflexivity. Qed.

(* without a filter, and when the stride divides the number of edges, the
   loop returns after one step per accepted edge, two vertices each *)
Lemma layer_edge_loop_returns config layer visualizer_config color_func n :
  length (edges layer) = (n * (intralayer_edge_insertion_skip config + 1))%nat ->
  forall r j m,
    (j + r = n)%nat ->
    exists m',
      layer_edge_loop (S r) config layer visualizer_config color_func None
        (j * (intralayer_edge_insertion_skip config + 1)) m = Returned m'
      /\ length (points m') = (length (points m) + 2 * r)%nat.
Proof.
  intros Hlen. set (s := (intralayer_edge_insertion_skip config + 1)%nat) in *.
  induction r as [|r IH]; intros j m Hj.
  - exists m. rewrite layer_edge_loop_unfold. replace j with n by lia.
    rewrite Hlen, Nat.eqb_refl. split; [reflexivity | lia].
  - rewrite layer_edge_loop_unfold.
    assert (j * s < length (edges layer))%nat as Hlt by (rewrite Hlen; nia).
    destruct (Nat.eqb_spec (j * s) (length (edges layer))) as [E|_]; [lia|].
    destruct (lookup_lt_is_Some_2 _ _ Hlt) as [edge ->].
    cbn [rejects orb]. cbv zeta. fold s.
    destruct (Nat.ltb_spec (length (edges layer)) (j * s + s)) as [Hpast|_];
      [rewrite Hlen in Hpast; nia|].
    replace (j * s + s)%nat with (S j * s)%nat by lia.
    match goal with
    | |- context [layer_edge_loop _ _ _ _ _ _ _ ?m1] =>
      destruct (IH (S j) m1 ltac:(lia)) as (m' & E & L)
    end.
    exists m'. split; [exact E|]. rewrite L.
    autorewrite with marker_fields. rewrite !length_app. cbn [length]. lia.
Qed.

(* the static pass returns as long as the color casts of its edges do *)
Lemma graph_edge_pass_returns hdr graph configs visualizer_config ns_prefix filter es :
  (forall e sc, e ∈ es -> configs !! source_layer graph e = Some sc ->
                exists col, edge_color graph sc e = Ok col) ->
  exists st,
    graph_edge_pass hdr graph configs visualizer_config ns_prefix filter es = Ok st.
Proof.
  induction es as [|e es IH] using rev_ind; intros Hcol.
  - eexists. reflexivity.
  - destruct IH as [st Hst].
    { intros e' sc He'. apply Hcol, elem_of_app. left. exact He'. }
    rewrite graph_edge_pass_snoc, Hst. cbn [mbind result_bind].
    destruct (qualifies graph configs filter e) eqn:Hq.
    + destruct (step_qualifying hdr graph configs visualizer_config ns_prefix filter
                  st e Hq) as (sc & tc & Es & _ & Hs).
      cbv zeta in Hs. rewrite Hs.
      destruct (Hcol e sc) as [col Hc]; [apply elem_of_app; right; apply list_elem_of_here
                                        | exact Es |].
      rewrite Hc. cbn [mbind result_bind].
      destruct (_ <=? _)%nat; eexists; reflexivity.
    + rewrite (step_not_qualifying hdr graph configs visualizer_config ns_prefix filter
                 st e Hq).
      eexists. reflexivity.
Qed.

End Returns.

(* five edges from places to one agent, a skip of 2: two are drawn *)
Example dynamic_five_edges_skip_two :
  (st ← @dynamic_edge_pass sample_collaborators sample_header agent_graph agent_configs
          agent_dynamic_configs sample_visualizer_config "dynamic_edges_"
          (dynamic_interlayer_edges agent_graph);
   Ok ((fun m => length (points m)) <$> layer_markers st !! 3%Z))
  = Ok (Some 4%nat).
Proof. vm_compute. reflexivity. Qed.


(** * Further properties of the builders *)

(** ** Loops that collect vertices *)

Lemma for_each_collect {A : Type} (body : Marker -> A -> result Marker)
    (cp : A -> list Point) (cc : A -> list ColorRGBA) (l : list A) :
  (forall m n, n ∈ l ->
     exists m', body m n = Ok m'
                /\ points m' = points m ++ cp n /\ colors m' = colors m ++ cc n) ->
  forall m,
    exists m', for_each l body m = Ok m'
               /\ points m' = points m ++ flat_map cp l
               /\ colors m' = colors m ++ flat_map cc l.
Proof.
  induction l as [|n l IH]; intros Hbody m.
  - exists m. cbn. rewrite !app_nil_r. auto.
  - destruct (Hbody m n) as (m1 & E1 & P1 & C1); [apply list_elem_of_here|].
    destruct (IH (fun m n Hn => Hbody m n (list_elem_of_further _ _ _ Hn)) m1)
      as (m2 & E2 & P2 & C2).
    exists m2. cbn [for_each flat_map]. rewrite E1. cbn [mbind result_bind].
    rewrite P2, C2, P1, C1, <- !app_assoc. auto.
Qed.

Lemma fold_left_collect {A : Type} (f : Marker -> A -> Marker)
    (cp : A -> list Point) (cc : A -> list ColorRGBA) (l : list A) :
  (forall m n, points (f m n) = points m ++ cp n /\ colors (f m n) = colors m ++ cc n) ->
  forall m,
    points (fold_left f l m) = points m ++ flat_map cp l
    /\ colors (fold_left f l m) = colors m ++ flat_map cc l.
Proof.
  intros Hf. induction l as [|n l IH]; intros m; cbn [fold_left flat_map].
  - rewrite !app_nil_r. auto.
  - destruct (IH (f m n)) as [P C]. destruct (Hf m n) as [P1 C1].
    rewrite P, C, P1, C1, <- !app_assoc. auto.
Qed.

Lemma flat_map_places_with_boundary {B : Type} (f : Place2dNodeAttributes -> list B)
    (l : list SceneGraphNode) :
  flat_map f (places_with_boundary l)
  = flat_map (fun n => match attrs n with
                       | Place2dAttrs a =>
                         if (length (boundary a) <=? 1)%nat then [] else f a
                       | _ => []
                       end) l.
Proof.
  unfold places_with_boundary. induction l as [|n l IH]; cbn [flat_map]; [reflexivity|].
  rewrite flat_map_app, IH. f_equal.
  destruct (attrs n) as [| | |a]; try reflexivity.
  destruct (_ <=? _)%nat; cbn [flat_map]; rewrite ?app_nil_r; reflexivity.
Qed.

Lemma length_flat_map_pairs {A B : Type} (f : A -> list B) (k : nat) (l : list A) :
  (forall a, a ∈ l -> length (f a) = k) ->
  length (flat_map f l) = (k * length l)%nat.
Proof.
  induction l as [|a l IH]; intros Hk; cbn [flat_map length]; [lia|].
  rewrite length_app, IH, Hk; [lia|apply list_elem_of_here|].
  intros b Hb. apply Hk, list_elem_of_further, Hb.
Qed.

Lemma flat_map_nested {A B C : Type} (f : A -> list B) (g : B -> list C) (l : list A) :
  flat_map g (flat_map f l) = flat_map (fun a => flat_map g (f a)) l.
Proof.
  induction l as [|a l IH]; cbn [flat_map]; [reflexivity|].
  rewrite flat_map_app, IH. reflexivity.
Qed.

(** ** Polygons *)

Section PolygonProperties.
Context `{Collaborators}.

Lemma polygon_boundary_loop z col (bs : list Vector3d) :
  forall m p,
    points (fst (fold_left (polygon_boundary_step z col) bs (m, p)))
    = points m ++ segment_vertices
                    (zip (p :: map (fun b => set_z (toPoint b) z) bs)
                         (map (fun b => set_z (toPoint b) z) bs))
    /\ colors (fst (fold_left (polygon_boundary_step z col) bs (m, p)))
       = colors m ++ flat_map (fun _ => [col; col]) bs.
Proof.
  induction bs as [|b bs IH]; intros m p; cbn [fold_left map zip zip_with fst].
  - cbn. rewrite !app_nil_r. auto.
  - unfold polygon_boundary_step at 2 4.
    destruct (IH (m |> push_points [p] |> push_colors [col]
                    |> push_points [set_z (toPoint b) z] |> push_colors [col])
                 (set_z (toPoint b) z)) as [P C].
    rewrite P, C. autorewrite with marker_fields.
    unfold segment_vertices. cbn [flat_map fst snd app].
    rewrite <- !app_assoc. auto.
Qed.

Lemma last_map_default {A B : Type} (f : A -> B) (l : list A) (d : A) :
  l <> [] -> last (map f l) = Some (f (List.last l d)).
Proof.
  induction l as [|a l IH]; intros Hne; [congruence|].
  destruct l as [|b l]; [reflexivity|].
  change (List.last (a :: b :: l) d) with (List.last (b :: l) d).
  change (last (map f (a :: b :: l))) with (last (map f (b :: l))).
  apply IH. discriminate.
Qed.

Lemma polygon_boundary_node_place2d config m n a :
  attrs n = Place2dAttrs a ->
  exists m',
    polygon_boundary_node config m n = Ok m'
    /\ points m'
       = points m ++ (if (length (boundary a) <=? 1)%nat then []
                      else segment_vertices (polygon_sides (polygon_points a)))
    /\ colors m'
       = colors m ++ (if (length (boundary a) <=? 1)%nat then []
                      else flat_map
                             (fun _ =>
                                let col :=
                                  makeColorMsg
                                    (if boundary_use_node_color config
                                     then sem_color (place2d_sem a) else Color_default)
                                    (Some (boundary_alpha config)) in
                                [col; col]) (boundary a)).
Proof.
  intros Ha. unfold polygon_boundary_node, attributes_Place2d. rewrite Ha.
  cbn [mbind result_bind].
  destruct (length (boundary a) <=? 1)%nat eqn:Hlen.
  - exists m. rewrite !app_nil_r. auto.
  - eexists. split; [reflexivity|].
    match goal with
    | |- context [fold_left (polygon_boundary_step ?z ?col) ?bs (?m0, ?p)] =>
      destruct (polygon_boundary_loop z col bs m0 p) as [P C]
    end.
    rewrite P, C. split.
    + f_equal. f_equal. unfold polygon_sides, polygon_points.
      rewrite (last_map_default _ _ (sem_position (place2d_sem a))); [reflexivity|].
      intros E. rewrite E in Hlen. discriminate.
    + f_equal. destruct (boundary_use_node_color config); reflexivity.
Qed.

Lemma polygon_sides_closed (ps : list Point) :
  ps <> [] -> closed_chain (polygon_sides ps).
Proof.
  intros Hne. unfold polygon_sides.
  destruct (last ps) as [p|] eqn:Hlast; [|apply last_None in Hlast; contradiction].
  split.
  - intros i s t Hs Ht.
    apply lookup_zip_with_Some in Hs as (x & y & -> & _ & Hy).
    apply lookup_zip_with_Some in Ht as (x' & y' & -> & Hx' & _).
    change ((p :: ps) !! S i) with (ps !! i) in Hx'. cbn [fst snd]. congruence.
  - destruct ps as [|q ps]; [contradiction|].
    exists (p, q).
    assert (Hlen : length (zip (p :: q :: ps) (q :: ps)) = length (q :: ps)).
    { rewrite length_zip_with. cbn [length]. lia. }
    destruct (last (zip (p :: q :: ps) (q :: ps))) as [final|] eqn:Hfin.
    + exists final. split; [reflexivity|]. split; [reflexivity|].
      rewrite last_lookup, Hlen in Hfin.
      apply lookup_zip_with_Some in Hfin as (x & y & -> & _ & Hy).
      rewrite last_lookup in Hlast. cbn in *. congruence.
    + apply last_None in Hfin. discriminate.
Qed.

Lemma length_polygon_sides (ps : list Point) :
  length (polygon_sides ps) = length ps.
Proof.
  unfold polygon_sides. destruct (last ps) as [p|] eqn:Hlast.
  - rewrite length_zip_with. cbn [length]. lia.
  - apply last_None in Hlast. subst. reflexivity.
Qed.

(** X1.  On a layer of 2D places, [makeLayerPolygonBoundaries] returns the
    outline of every place that has more than one boundary point, one place
    after the other in node order: the sides of the polygon through the
    boundary points at the height of the node, the first side running from
    the last boundary point to the first.  Every outline is a closed chain,
    the batch holds one color per vertex, and it holds two vertices for
    every boundary point drawn. *)
Theorem polygon_boundaries_are_closed_outlines
    (hdr : Header) (config : LayerConfig) (layer : SceneGraphLayer)
    (visualizer_config : VisualizerConfig) (ns_ : string) :
  Forall is_place2d (nodes layer) ->
  exists m,
    makeLayerPolygonBoundaries hdr config layer visualizer_config ns_ = Ok m
    /\ points m
       = segment_vertices
           (flat_map (fun a => polygon_sides (polygon_points a))
                     (places_with_boundary (nodes layer)))
    /\ Forall (fun a => closed_chain (polygon_sides (polygon_points a)))
              (places_with_boundary (nodes layer))
    /\ length (points m) = (2 * boundary_points_drawn (nodes layer))%nat
    /\ length (colors m) = length (points m).
Proof.
  intros Hall. unfold makeLayerPolygonBoundaries.
  match goal with
  | |- context [for_each _ _ ?m0] => set (start := m0)
  end.
  destruct (for_each_collect (polygon_boundary_node config)
              (fun n => match attrs n with
                        | Place2dAttrs a =>
                          if (length (boundary a) <=? 1)%nat then []
                          else segment_vertices (polygon_sides (polygon_points a))
                        | _ => []
                        end)
              (fun n => match attrs n with
                        | Place2dAttrs a =>
                          if (length (boundary a) <=? 1)%nat then []
                          else flat_map
                                 (fun _ =>
                                    let col :=
                                      makeColorMsg
                                        (if boundary_use_node_color config
                                         then sem_color (place2d_sem a)
                                         else Color_default)
                                        (Some (boundary_alpha config)) in
                                    [col; col]) (boundary a)
                        | _ => []
                        end)
              (nodes layer)) with (m := start) as (m & E & P & C).
  { intros m0 n Hn. rewrite Forall_forall in Hall.
    destruct (Hall n Hn) as [a Ha].
    destruct (polygon_boundary_node_place2d config m0 n a Ha) as (m' & E' & P' & C').
    exists m'. rewrite Ha. auto. }
  exists m. split; [exact E|].
  change (points start) with (@nil Point) in P.
  change (colors start) with (@nil ColorRGBA) in C. cbn [app] in P, C.
  assert (Hpoints :
    points m = segment_vertices
                 (flat_map (fun a => polygon_sides (polygon_points a))
                           (places_with_boundary (nodes layer)))).
  { rewrite P. unfold segment_vertices.
    rewrite flat_map_nested, flat_map_places_with_boundary. reflexivity. }
  assert (Hcount :
    forall l, length (flat_map (fun a => polygon_sides (polygon_points a))
                               (places_with_boundary l)) = boundary_points_drawn l).
  { intros l. unfold boundary_points_drawn.
    induction (places_with_boundary l) as [|a q IH]; cbn [flat_map sum_list_with];
      [reflexivity|].
    rewrite length_app, IH, length_polygon_sides. unfold polygon_points.
    rewrite length_map. reflexivity. }
  split; [exact Hpoints|]. split; [|split].
  - apply Forall_forall. intros a Ha. apply polygon_sides_closed.
    unfold places_with_boundary in Ha. apply list_elem_of_In in Ha.
    apply in_flat_map in Ha as (n & _ & Hn).
    destruct (attrs n) as [| | |a']; try contradiction.
    destruct (length (boundary a') <=? 1)%nat eqn:Hlen; [contradiction|].
    destruct Hn as [<-|[]]. unfold polygon_points.
    destruct (boundary a'); [discriminate|discriminate].
  - rewrite Hpoints, length_segment_vertices, Hcount. reflexivity.
  - rewrite Hpoints, length_segment_vertices, Hcount, C.
    rewrite <- (flat_map_places_with_boundary
                  (fun a => flat_map
                              (fun _ =>
                                 let col :=
                                   makeColorMsg
                                     (if boundary_use_node_color config
                                      then sem_color (place2d_sem a) else Color_default)
                                     (Some (boundary_alpha config)) in
                                 [col; col]) (boundary a))).
    unfold boundary_points_drawn. clear P C E Hpoints Hcount.
    induction (places_with_boundary (nodes layer)) as [|a q IH];
      cbn [flat_map sum_list_with]; [reflexivity|].
    rewrite length_app, (length_flat_map_pairs _ 2); [|reflexivity].
    rewrite IH. lia.
Qed.

End PolygonProperties.

Lemma polygon_boundaries_of_square :
  Forall is_place2d (nodes square_places)
  /\ exists m,
       @makeLayerPolygonBoundaries sample_collaborators sample_header
         (sample_layer_config true 0) square_places sample_visualizer_config "outlines"
       = Ok m
       /\ length (points m) = 8%nat.
Proof.
  assert (Hall : Forall is_place2d (nodes square_places)).
  { repeat constructor; eexists; reflexivity. }
  split; [exact Hall|].
  destruct (@polygon_boundaries_are_closed_outlines sample_collaborators sample_header
              (sample_layer_config true 0) square_places sample_visualizer_config
              "outlines" Hall) as (m & E & _ & _ & L & _).
  exists m. split; [exact E|]. rewrite L. reflexivity.
Defined.

Section PolygonSpokes.
Context `{Collaborators}.

Lemma polygon_edges_node_place2d config visualizer_config m n a :
  attrs n = Place2dAttrs a ->
  exists m',
    polygon_edges_node config visualizer_config m n = Ok m'
    /\ points m'
       = points m ++ (if (length (boundary a) <=? 1)%nat then []
                      else flat_map
                             (fun p => [p; place_anchor config visualizer_config a])
                             (polygon_points a))
    /\ colors m'
       = colors m ++ (if (length (boundary a) <=? 1)%nat then []
                      else repeat (makeColorMsg (sem_color (place2d_sem a))
                                                (Some (boundary_alpha config)))
                                  (2 * length (boundary a))).
Proof.
  intros Ha. unfold polygon_edges_node, attributes_Place2d. rewrite Ha.
  cbn [mbind result_bind].
  destruct (length (boundary a) <=? 1)%nat eqn:Hlen.
  - exists m. rewrite !app_nil_r. auto.
  - eexists. split; [reflexivity|].
    unfold polygon_points, place_anchor.
    generalize (boundary a) as bs. intros bs. revert m.
    induction bs as [|b bs IH]; intros m; cbn [fold_left map flat_map length].
    + rewrite !app_nil_r. auto.
    + destruct (IH (m |> push_points [set_z (toPoint b) (vz (sem_position (place2d_sem a)))]
                      |> push_colors [makeColorMsg (sem_color (place2d_sem a))
                                                   (Some (boundary_alpha config))]
                      |> push_points [add_z (toPoint (sem_position (place2d_sem a)))
                                            (getZOffset config visualizer_config)]
                      |> push_colors [makeColorMsg (sem_color (place2d_sem a))
                                                   (Some (boundary_alpha config))]))
        as [P C].
      rewrite P, C. autorewrite with marker_fields. rewrite <- !app_assoc.
      replace (2 * S (length bs))%nat with (S (S (2 * length bs))) by lia.
      auto.
Qed.

(** X2.  On a layer of 2D places, [makeLayerPolygonEdges] joins every
    boundary point of every place that has more than one boundary point to
    the place itself: the boundary point at the height of the node first,
    then the position of the node lifted by the offset of the layer.  Each
    such segment carries the color of its place on both ends, and the batch
    holds two vertices for every boundary point drawn. *)
Theorem polygon_edges_join_boundary_to_node
    (hdr : Header) (config : LayerConfig) (layer : SceneGraphLayer)
    (visualizer_config : VisualizerConfig) (ns_ : string) :
  Forall is_place2d (nodes layer) ->
  exists m,
    makeLayerPolygonEdges hdr config layer visualizer_config ns_ = Ok m
    /\ points m
       = flat_map
           (fun a => flat_map (fun p => [p; place_anchor config visualizer_config a])
                              (polygon_points a))
           (places_with_boundary (nodes layer))
    /\ colors m
       = flat_map
           (fun a =>
              repeat (makeColorMsg (sem_color (place2d_sem a))
                                   (Some (boundary_alpha config)))
                     (2 * length (boundary a)))
           (places_with_boundary (nodes layer))
    /\ length (points m) = (2 * boundary_points_drawn (nodes layer))%nat.
Proof.
  intros Hall. unfold makeLayerPolygonEdges.
  match goal with
  | |- context [for_each _ _ ?m0] => set (start := m0)
  end.
  destruct (for_each_collect (polygon_edges_node config visualizer_config)
              (fun n => match attrs n with
                        | Place2dAttrs a =>
                          if (length (boundary a) <=? 1)%nat then []
                          else flat_map
                                 (fun p => [p; place_anchor config visualizer_config a])
                                 (polygon_points a)
                        | _ => []
                        end)
              (fun n => match attrs n with
                        | Place2dAttrs a =>
                          if (length (boundary a) <=? 1)%nat then []
                          else repeat (makeColorMsg (sem_color (place2d_sem a))
                                                    (Some (boundary_alpha config)))
                                      (2 * length (boundary a))
                        | _ => []
                        end)
              (nodes layer)) with (m := start) as (m & E & P & C).
  { intros m0 n Hn. rewrite Forall_forall in Hall.
    destruct (Hall n Hn) as [a Ha].
    destruct (polygon_edges_node_place2d config visualizer_config m0 n a Ha)
      as (m' & E' & P' & C').
    exists m'. rewrite Ha. auto. }
  exists m. split; [exact E|].
  change (points start) with (@nil Point) in P.
  change (colors start) with (@nil ColorRGBA) in C. cbn [app] in P, C.
  rewrite !flat_map_places_with_boundary. split; [exact P|]. split; [exact C|].
  rewrite P, <- flat_map_places_with_boundary. unfold boundary_points_drawn.
  induction (places_with_boundary (nodes layer)) as [|a q IH];
    cbn [flat_map sum_list_with]; [reflexivity|].
  rewrite length_app, IH, (length_flat_map_pairs _ 2); [|reflexivity].
  unfold polygon_points. rewrite length_map. lia.
Qed.

End PolygonSpokes.

Lemma polygon_edges_of_square :
  Forall is_place2d (nodes square_places)
  /\ exists m,
       @makeLayerPolygonEdges sample_collaborators sample_header
         (sample_layer_config true 0) square_places sample_visualizer_config "spokes"
       = Ok m
       /\ length (points m) = 8%nat.
Proof.
  assert (Hall : Forall is_place2d (nodes square_places)).
  { repeat constructor; eexists; reflexivity. }
  split; [exact Hall|].
  destruct (@polygon_edges_join_boundary_to_node sample_collaborators sample_header
              (sample_layer_config true 0) square_places sample_visualizer_config
              "spokes" Hall) as (m & E & _ & _ & L).
  exists m. split; [exact E|]. rewrite L. reflexivity.
Defined.

(** ** Nodes that pass the filter *)

Lemma flat_map_accepted {B : Type} (f : SceneGraphNode -> list B) (filter : FilterFunction)
    (l : list SceneGraphNode) :
  flat_map f (accepted filter l)
  = flat_map (fun n => if rejects filter n then [] else f n) l.
Proof.
  unfold accepted. induction l as [|n l IH]; [reflexivity|].
  rewrite filter_cons. cbn [flat_map].
  destruct (decide (rejects filter n = false)) as [E|E].
  - rewrite E. cbn [flat_map]. rewrite IH. reflexivity.
  - destruct (rejects filter n); [|congruence]. exact IH.
Qed.

Lemma flat_map_singleton {A B : Type} (f : A -> B) (l : list A) :
  flat_map (fun a => [f a]) l = map f l.
Proof. induction l as [|a l IH]; cbn [flat_map map app]; congruence. Qed.

Lemma accepted_no_filter (l : list SceneGraphNode) : accepted None l = l.
Proof.
  unfold accepted. induction l as [|n l IH]; [reflexivity|].
  rewrite filter_cons_True; [f_equal; exact IH|reflexivity].
Qed.

Lemma elem_of_accepted filter n l :
  n ∈ l -> rejects filter n = false -> n ∈ accepted filter l.
Proof. intros Hn Hr. apply list_elem_of_filter. auto. Qed.

Lemma semantic_position n a :
  attributes_Semantic n = Ok a -> attributes_position n = sem_position a.
Proof.
  unfold attributes_Semantic, attributes_position.
  destruct (attrs n); intros E; try discriminate; apply Ok_inj in E; subst; reflexivity.
Qed.

(** ** Bounding boxes of a layer *)

Section LayerBoundingBoxes.
Context `{Collaborators}.

Lemma edges_to_bbox_node_semantic config visualizer_config func filter m n :
  (rejects filter n = false -> is_semantic n) ->
  exists m',
    edges_to_bbox_node config visualizer_config func filter m n = Ok m'
    /\ points m'
       = points m ++ (if rejects filter n then []
                      else segment_vertices (bbox_spokes config visualizer_config n))
    /\ colors m'
       = colors m ++ (if rejects filter n then []
                      else repeat (bbox_color config func n) 10).
Proof.
  intros Hsem. unfold edges_to_bbox_node.
  destruct (rejects filter n) eqn:Hr.
  - exists m. rewrite !app_nil_r. auto.
  - destruct (Hsem eq_refl) as [a Ha]. rewrite Ha. cbn [mbind result_bind].
    eexists. split; [reflexivity|].
    unfold addEdgesToCorners. autorewrite with marker_fields.
    unfold bbox_spokes, segment_vertices, node_anchor, break_point, bbox_corner,
      bbox_color.
    rewrite Ha, (semantic_position n a Ha). cbn [map flat_map fst snd app repeat].
    rewrite <- !app_assoc. cbn [app]. auto.
Qed.

(** X3.  When every node that the filter lets through has semantic
    attributes, [makeEdgesToBoundingBoxes] returns five segments for each of
    them and nothing for the others: one from the node, lifted by the offset
    of its layer, to the break point below it, and four from the break point
    to the corners 4, 5, 7 and 6 of the node's bounding box, in this order.
    The ten vertices of a node carry the node's color. *)
Theorem bounding_box_edges_five_per_node
    (hdr : Header) (config : LayerConfig) (layer : SceneGraphLayer)
    (visualizer_config : VisualizerConfig) (ns_ : string) (func : ColorFunction)
    (filter : FilterFunction) :
  Forall is_semantic (accepted filter (nodes layer)) ->
  exists m,
    makeEdgesToBoundingBoxes hdr config layer visualizer_config ns_ func filter = Ok m
    /\ points m
       = segment_vertices
           (flat_map (bbox_spokes config visualizer_config)
                     (accepted filter (nodes layer)))
    /\ colors m
       = flat_map (fun n => repeat (bbox_color config func n) 10)
                  (accepted filter (nodes layer))
    /\ length (points m) = (10 * length (accepted filter (nodes layer)))%nat.
Proof.
  intros Hall. unfold makeEdgesToBoundingBoxes.
  match goal with
  | |- context [for_each _ _ ?m0] => set (start := m0)
  end.
  destruct (for_each_collect
              (edges_to_bbox_node config visualizer_config func filter)
              (fun n => if rejects filter n then []
                        else segment_vertices (bbox_spokes config visualizer_config n))
              (fun n => if rejects filter n then []
                        else repeat (bbox_color config func n) 10)
              (nodes layer)) with (m := start) as (m & E & P & C).
  { intros m0 n Hn. apply edges_to_bbox_node_semantic. intros Hr.
    rewrite Forall_forall in Hall. apply Hall, elem_of_accepted; assumption. }
  exists m. split; [exact E|].
  change (points start) with (@nil Point) in P.
  change (colors start) with (@nil ColorRGBA) in C. cbn [app] in P, C.
  assert (Hpoints :
    points m = segment_vertices
                 (flat_map (bbox_spokes config visualizer_config)
                           (accepted filter (nodes layer)))).
  { rewrite P. unfold segment_vertices at 2.
    rewrite flat_map_nested, flat_map_accepted. reflexivity. }
  split; [exact Hpoints|]. split.
  - rewrite C, flat_map_accepted. reflexivity.
  - rewrite Hpoints, length_segment_vertices, (length_flat_map_pairs _ 5); [lia|].
    reflexivity.
Qed.

Lemma wireframe_node_semantic config func filter m n :
  (rejects filter n = false -> is_semantic n) ->
  exists m',
    wireframe_node config func filter m n = Ok m'
    /\ points m'
       = points m ++ (if rejects filter n then []
                      else flat_map (segment_points (node_corners n))
                                    (wireframe_pairs 8))
    /\ colors m'
       = colors m ++ (if rejects filter n then []
                      else repeat (bbox_color config func n) 24).
Proof.
  intros Hsem. unfold wireframe_node.
  destruct (rejects filter n) eqn:Hr.
  - exists m. rewrite !app_nil_r. auto.
  - destruct (Hsem eq_refl) as [a Ha]. rewrite Ha. cbn [mbind result_bind].
    eexists. split; [reflexivity|].
    rewrite addWireframeToMarker_points, addWireframeToMarker_colors.
    unfold node_corners, bbox_color. rewrite Ha. cbn [cols fillCornersFromBbox new_corners].
    split; [reflexivity|]. f_equal.
Qed.

(** X4.  When every node that the filter lets through has semantic
    attributes, [makeLayerWireframeBoundingBoxes] returns the wireframes of
    their bounding boxes one after the other in node order, and nothing for
    the nodes that the filter turns down: for each node the twelve segments
    of the box over its own corner matrix, 24 vertices, every one of them in
    the node's color. *)
Theorem layer_wireframes_twelve_edges_per_node
    (hdr : Header) (config : LayerConfig) (layer : SceneGraphLayer)
    (visualizer_config : VisualizerConfig) (ns_ : string) (func : ColorFunction)
    (filter : FilterFunction) :
  Forall is_semantic (accepted filter (nodes layer)) ->
  exists m,
    makeLayerWireframeBoundingBoxes hdr config layer visualizer_config ns_ func filter
    = Ok m
    /\ points m
       = flat_map (fun n => flat_map (segment_points (node_corners n))
                                     (wireframe_pairs 8))
                  (accepted filter (nodes layer))
    /\ colors m
       = flat_map (fun n => repeat (bbox_color config func n) 24)
                  (accepted filter (nodes layer))
    /\ length (points m) = (24 * length (accepted filter (nodes layer)))%nat.
Proof.
  intros Hall. unfold makeLayerWireframeBoundingBoxes.
  match goal with
  | |- context [for_each _ _ ?m0] => set (start := m0)
  end.
  destruct (for_each_collect
              (wireframe_node config func filter)
              (fun n => if rejects filter n then []
                        else flat_map (segment_points (node_corners n))
                                      (wireframe_pairs 8))
              (fun n => if rejects filter n then []
                        else repeat (bbox_color config func n) 24)
              (nodes layer)) with (m := start) as (m & E & P & C).
  { intros m0 n Hn. apply wireframe_node_semantic. intros Hr.
    rewrite Forall_forall in Hall. apply Hall, elem_of_accepted; assumption. }
  exists m. split; [exact E|].
  change (points start) with (@nil Point) in P.
  change (colors start) with (@nil ColorRGBA) in C. cbn [app] in P, C.
  rewrite !flat_map_accepted. split; [exact P|]. split; [exact C|].
  rewrite P, <- flat_map_accepted.
  apply length_flat_map_pairs. intros n _.
  rewrite (length_flat_map_pairs _ 2); [|reflexivity].
  reflexivity.
Qed.

(** X5.  [makeCentroidMarkers] draws the nodes that the filter lets through,
    in node order and nothing else: one point for each, the position of the
    node lifted by the offset of the layer, and one color for each, the
    color that the color function gives the node.  Without a filter the
    batch holds as many points as the layer has nodes. *)
Theorem centroid_markers_one_point_per_accepted_node
    (hdr : Header) (config : LayerConfig) (layer : SceneGraphLayer)
    (visualizer_config : VisualizerConfig) (ns_ : string) (color_func : ColorFunction)
    (filter : FilterFunction) :
  let m := makeCentroidMarkers hdr config layer visualizer_config ns_ color_func filter in
  points m = map (node_anchor config visualizer_config) (accepted filter (nodes layer))
  /\ colors m
     = map (fun n => makeColorMsg (color_func n) (Some (marker_alpha config)))
           (accepted filter (nodes layer))
  /\ length (points
               (makeCentroidMarkers hdr config layer visualizer_config ns_ color_func
                                    None))
     = numNodes layer.
Proof.
  assert (Hgen : forall f,
    let m := makeCentroidMarkers hdr config layer visualizer_config ns_ color_func f in
    points m = map (node_anchor config visualizer_config) (accepted f (nodes layer))
    /\ colors m
       = map (fun n => makeColorMsg (color_func n) (Some (marker_alpha config)))
             (accepted f (nodes layer))).
  { intros f. cbv zeta. unfold makeCentroidMarkers.
    match goal with
    | |- context [fold_left ?g _ _] =>
      destruct (fold_left_collect g
                  (fun n => if rejects f n then []
                            else [node_anchor config visualizer_config n])
                  (fun n => if rejects f n then []
                            else [makeColorMsg (color_func n)
                                               (Some (marker_alpha config))])
                  (nodes layer)) with (m := centroid_base hdr config ns_) as [P C]
    end.
    { intros m0 n. destruct (rejects f n); autorewrite with marker_fields;
        rewrite ?app_nil_r; auto. }
    rewrite P, C. change (points (centroid_base hdr config ns_)) with (@nil Point).
    change (colors (centroid_base hdr config ns_)) with (@nil ColorRGBA).
    cbn [app]. rewrite <- !flat_map_singleton, !flat_map_accepted. split.
    - apply flat_map_ext. intros n. destruct (rejects f n); reflexivity.
    - apply flat_map_ext. intros n. destruct (rejects f n); reflexivity. }
  cbv zeta. destruct (Hgen filter) as [P C]. split; [exact P|]. split; [exact C|].
  destruct (Hgen None) as [P0 _]. rewrite P0, length_map, accepted_no_filter.
  reflexivity.
Qed.

End LayerBoundingBoxes.

Lemma bounding_box_edges_of_objects :
  Forall is_semantic (accepted objects_only (nodes object_layer))
  /\ exists m,
       @makeEdgesToBoundingBoxes sample_collaborators sample_header
         (sample_layer_config true 0) object_layer sample_visualizer_config "bbox_edges"
         (fun _ => Color_default) objects_only
       = Ok m
       /\ length (points m) = 20%nat.
Proof.
  assert (Hall : Forall is_semantic (accepted objects_only (nodes object_layer))).
  { repeat constructor; eexists; reflexivity. }
  split; [exact Hall|].
  destruct (@bounding_box_edges_five_per_node sample_collaborators sample_header
              (sample_layer_config true 0) object_layer sample_visualizer_config
              "bbox_edges" (fun _ => Color_default) objects_only Hall)
    as (m & E & _ & _ & L).
  exists m. split; [exact E|]. rewrite L. reflexivity.
Defined.

Lemma layer_wireframes_of_objects :
  Forall is_semantic (accepted objects_only (nodes object_layer))
  /\ exists m,
       @makeLayerWireframeBoundingBoxes sample_collaborators sample_header
         (sample_layer_config true 0) object_layer sample_visualizer_config "bbox"
         (fun _ => Color_default) objects_only
       = Ok m
       /\ length (points m) = 48%nat.
Proof.
  assert (Hall : Forall is_semantic (accepted objects_only (nodes object_layer))).
  { repeat constructor; eexists; reflexivity. }
  split; [exact Hall|].
  destruct (@layer_wireframes_twelve_edges_per_node sample_collaborators sample_header
              (sample_layer_config true 0) object_layer sample_visualizer_config
              "bbox" (fun _ => Color_default) objects_only Hall)
    as (m & E & _ & _ & L).
  exists m. split; [exact E|]. rewrite L. reflexivity.
Defined.


(** ** Places and frontiers *)

Lemma to_int32_small (n : Z) :
  (0 <= n < 2 ^ 31)%Z -> to_int32 n = n.
Proof.
  intros Hn. unfold to_int32. rewrite Z.mod_small; lia.
Qed.

Lemma to_int32_congruent (a b : Z) :
  to_int32 a = to_int32 b <-> (a mod 2 ^ 32 = b mod 2 ^ 32)%Z.
Proof.
  unfold to_int32. split; intros E.
  - assert (E' : ((a + 2 ^ 31) mod 2 ^ 32 = (b + 2 ^ 31) mod 2 ^ 32)%Z) by lia.
    transitivity (((a + 2 ^ 31) mod 2 ^ 32 - 2 ^ 31 mod 2 ^ 32) mod 2 ^ 32)%Z.
    + rewrite <- Zminus_mod. f_equal. lia.
    + rewrite E', <- Zminus_mod. f_equal. lia.
  - rewrite (Zplus_mod a), (Zplus_mod b), E. reflexivity.
Qed.

Lemma to_int32_injective_below (a b : Z) :
  (0 <= a < 2 ^ 32)%Z -> (0 <= b < 2 ^ 32)%Z -> to_int32 a = to_int32 b -> a = b.
Proof.
  intros Ha Hb E. apply to_int32_congruent in E.
  rewrite !Z.mod_small in E; assumption.
Qed.

Lemma filter_partition_length {A : Type} (f : A -> bool) (l : list A) :
  (length (base.filter (fun a => f a = true) l)
   + length (base.filter (fun a => f a = false) l))%nat = length l.
Proof.
  induction l as [|a l IH]; [reflexivity|].
  rewrite !filter_cons. destruct (f a) eqn:E.
  - rewrite decide_True, decide_False by congruence. cbn [length]. lia.
  - rewrite decide_False, decide_True by congruence. cbn [length]. lia.
Qed.

Section PlaceProperties.
Context `{Collaborators}.

Lemma place_centroid_nodes config visualizer_config color_func :
  forall l m,
    Forall is_place l ->
    exists m',
      for_each l (place_centroid_node config visualizer_config color_func) m = Ok m'
      /\ points m' = points m ++ map (node_anchor config visualizer_config) (real_places l)
      /\ colors m'
         = colors m ++ map (fun n => makeColorMsg (color_func n)
                                                  (Some (marker_alpha config)))
                           (real_places l).
Proof.
  intros l m Hall.
  destruct (for_each_collect (place_centroid_node config visualizer_config color_func)
              (fun n => if place_is_real n
                        then [node_anchor config visualizer_config n] else [])
              (fun n => if place_is_real n
                        then [makeColorMsg (color_func n) (Some (marker_alpha config))]
                        else [])
              l) with (m := m) as (m' & E & P & C).
  { intros m0 n Hn. rewrite Forall_forall in Hall. destruct (Hall n Hn) as [a Ha].
    unfold place_centroid_node, attributes_Place, place_is_real, node_anchor,
      attributes_position.
    rewrite Ha. cbn [mbind result_bind].
    destruct (real_place a); cbn [negb]; eexists; (split; [reflexivity|]);
      autorewrite with marker_fields; rewrite ?app_nil_r; auto. }
  exists m'. split; [exact E|]. rewrite P, C. unfold real_places.
  split; f_equal.
  - clear. induction l as [|n l IH]; [reflexivity|].
    rewrite filter_cons. cbn [flat_map].
    destruct (place_is_real n); [rewrite decide_True by reflexivity
                                |rewrite decide_False by discriminate];
      cbn [map app]; congruence.
  - clear. induction l as [|n l IH]; [reflexivity|].
    rewrite filter_cons. cbn [flat_map].
    destruct (place_is_real n); [rewrite decide_True by reflexivity
                                |rewrite decide_False by discriminate];
      cbn [map app]; congruence.
Qed.

Lemma ellipsoid_nodes hdr config visualizer_config ns_ color_func :
  forall l i ms,
    Forall is_place l ->
    exists ms',
      for_each l (ellipsoid_node hdr config visualizer_config ns_ color_func) (i, ms)
      = Ok ((i + Z.of_nat (length ms'))%Z, ms ++ ms')
      /\ map marker_position ms'
         = map (node_anchor config visualizer_config) (frontier_places l)
      /\ map id ms' = map (fun j => to_int32 (i + Z.of_nat j)) (seq 0 (length ms'))
      /\ Forall (fun k => type k = SPHERE /\ ns k = ns_) ms'.
Proof.
  induction l as [|n l IH]; intros i ms Hall.
  - exists []. cbn [for_each length Z.of_nat map seq]. rewrite Z.add_0_r, app_nil_r.
    split; [reflexivity|]. repeat split. constructor.
  - inversion Hall as [|? ? [a Ha] Hrest]; subst.
    pose proof (eq_refl (ellipsoid_node hdr config visualizer_config ns_ color_func
                           (i, ms) n)) as Hstep.
    unfold ellipsoid_node at 2, attributes_Place in Hstep. rewrite Ha in Hstep.
    cbn [mbind result_bind] in Hstep.
    assert (Hfront : frontier_places (n :: l)
                     = if real_place a then frontier_places l
                       else n :: frontier_places l).
    { assert (Hr : place_is_real n = real_place a).
      { unfold place_is_real. rewrite Ha. reflexivity. }
      unfold frontier_places. rewrite filter_cons.
      destruct (real_place a);
        [rewrite decide_False by (rewrite Hr; discriminate)
        |rewrite decide_True by exact Hr];
        reflexivity. }
    rewrite Hfront. clear Hfront.
    destruct (real_place a) eqn:Hreal.
    + destruct (IH i ms Hrest) as (ms' & E & P & I & T).
      exists ms'. cbn [for_each]. rewrite Hstep. cbn [mbind result_bind]. auto.
    + match type of Hstep with
      | _ = Ok (_, ms ++ [?k]) =>
        destruct (IH (i + 1)%Z (ms ++ [k]) Hrest) as (ms' & E & P & I & T);
        exists (k :: ms')
      end.
      cbn [for_each]. rewrite Hstep. cbn [mbind result_bind].
      rewrite E. cbn [length]. rewrite <- app_assoc. cbn [app]. split.
      { f_equal. f_equal. lia. }
      split.
      { cbn [map]. rewrite P. f_equal.
        unfold node_anchor, attributes_position. rewrite Ha. reflexivity. }
      split.
      { cbn [map seq]. rewrite I, <- seq_shift, map_map, Z.add_0_r. f_equal.
        apply map_ext. intros j. f_equal. lia. }
      constructor; [split; reflexivity|exact T].
Qed.

(** X6.  On a layer of places, [makePlaceCentroidMarkers] and
    [makeEllipsoidMarkers] share the nodes between them: the first draws one
    point for every real place, the second returns one sphere for every
    other place, each at the position of its node lifted by the offset of
    the layer, so that points and spheres together are as many as the layer
    has nodes.  The spheres are numbered 0, 1, 2, ... in node order, and as
    long as the layer has no more than 2^32 nodes no two of them share an
    id. *)
Theorem places_split_into_centroids_and_ellipsoids
    (hdr : Header) (config : LayerConfig) (layer : SceneGraphLayer)
    (visualizer_config : VisualizerConfig) (ns_ : string) (color_func : ColorFunction) :
  Forall is_place (nodes layer) ->
  (Z.of_nat (numNodes layer) <= 2 ^ 32)%Z ->
  exists m ms,
    makePlaceCentroidMarkers hdr config layer visualizer_config ns_ color_func = Ok m
    /\ makeEllipsoidMarkers hdr config layer visualizer_config ns_ color_func = Ok ms
    /\ points m
       = map (node_anchor config visualizer_config) (real_places (nodes layer))
    /\ map marker_position ms
       = map (node_anchor config visualizer_config) (frontier_places (nodes layer))
    /\ (length (points m) + length ms)%nat = numNodes layer
    /\ map id ms = map (fun j => to_int32 (Z.of_nat j)) (seq 0 (length ms))
    /\ NoDup (map id ms).
Proof.
  intros Hall Hsmall.
  unfold makePlaceCentroidMarkers, makeEllipsoidMarkers.
  destruct (place_centroid_nodes config visualizer_config color_func (nodes layer)
              (centroid_base hdr config ns_) Hall) as (m & E & P & _).
  destruct (ellipsoid_nodes hdr config visualizer_config ns_ color_func (nodes layer)
              0%Z [] Hall) as (ms & E' & P' & I & _).
  exists m, ms. rewrite E, E'. cbn [mbind result_bind snd app].
  change (points (centroid_base hdr config ns_)) with (@nil Point) in P.
  cbn [app] in P.
  assert (Hlen : (length (points m) + length ms)%nat = numNodes layer).
  { rewrite P, length_map.
    rewrite <- (length_map marker_position ms), P', length_map.
    apply filter_partition_length. }
  repeat (split; [first [reflexivity | assumption]|]).
  rewrite I. apply NoDup_fmap_2_strong; [|apply NoDup_seq].
  intros x y Hx Hy Exy. apply elem_of_seq in Hx, Hy.
  apply to_int32_injective_below in Exy; lia.
Qed.

End PlaceProperties.

Lemma places_and_frontiers_split :
  Forall is_place (nodes places_and_frontiers)
  /\ (Z.of_nat (numNodes places_and_frontiers) <= 2 ^ 32)%Z
  /\ exists m ms,
       @makePlaceCentroidMarkers sample_collaborators sample_header
         (sample_layer_config true 0) places_and_frontiers sample_visualizer_config
         "places" (fun _ => Color_default) = Ok m
       /\ @makeEllipsoidMarkers sample_collaborators sample_header
            (sample_layer_config true 0) places_and_frontiers sample_visualizer_config
            "places" (fun _ => Color_default) = Ok ms
       /\ (length (points m) + length ms)%nat = 4%nat.
Proof.
  assert (Hall : Forall is_place (nodes places_and_frontiers)).
  { repeat constructor; eexists; reflexivity. }
  assert (Hsmall : (Z.of_nat (numNodes places_and_frontiers) <= 2 ^ 32)%Z).
  { cbn. lia. }
  split; [exact Hall|]. split; [exact Hsmall|].
  destruct (@places_split_into_centroids_and_ellipsoids sample_collaborators
              sample_header (sample_layer_config true 0) places_and_frontiers
              sample_visualizer_config "places" (fun _ => Color_default) Hall Hsmall)
    as (m & ms & E & E' & _ & _ & L & _).
  exists m, ms. auto.
Defined.

(** ** Labels *)

Section LabelProperties.
Context `{Collaborators}.

Lemma find_label_name_first_match lab s item :
  names_label item lab s ->
  forall pre post,
    Forall (passed_over lab) pre ->
    find_label_name lab (pre ++ item :: post) = Ok (Some s).
Proof.
  intros (members & -> & Hl & Hn) pre post Hpre.
  induction Hpre as [|it pre Hit _ IH]; cbn [app find_label_name].
  - rewrite Hl, Hn. cbn [as_int as_string mbind result_bind]. rewrite Z.eqb_refl.
    reflexivity.
  - destruct it as [| | | |ms|]; try exact IH.
    cbn [passed_over] in Hit.
    destruct (member "label" ms) as [l|]; [|exact IH].
    destruct (member "name" ms) as [n|]; [|exact IH].
    destruct Hit as (z & s' & -> & -> & Hz).
    cbn [as_int as_string mbind result_bind].
    destruct (Z.eqb_spec z lab); [contradiction|exact IH].
Qed.

Lemma find_label_name_wrongly_typed lab item :
  wrongly_typed item ->
  forall pre post,
    Forall (passed_over lab) pre ->
    find_label_name lab (pre ++ item :: post) = Raise xmlrpc_error.
Proof.
  intros (members & l & n & -> & Hl & Hn & Hbad) pre post Hpre.
  induction Hpre as [|it pre Hit _ IH]; cbn [app find_label_name].
  - rewrite Hl, Hn.
    destruct l; try contradiction; try reflexivity.
    destruct n; try contradiction; reflexivity.
  - destruct it as [| | | |ms|]; try exact IH.
    cbn [passed_over] in Hit.
    destruct (member "label" ms) as [l'|]; [|exact IH].
    destruct (member "name" ms) as [n'|]; [|exact IH].
    destruct Hit as (z & s' & -> & -> & Hz).
    cbn [as_int as_string mbind result_bind].
    destruct (Z.eqb_spec z lab); [contradiction|exact IH].
Qed.


(** X8.  [makeTextMarkerNoHeight] names a node after the first entry of
    /label_names that carries the node's semantic label: when the entries
    before it are stepped over, the text of the marker is the name of that
    entry followed by the node's identifier in brackets, and the name is
    what is stored under /semantic_labels/<identifier>.  What comes after
    that entry is not looked at. *)
Theorem label_text_is_first_matching_name
    (hdr : Header) (config : LayerConfig) (node : SceneGraphNode) (ns_ : string)
    (nh : NodeHandle) (a : SemanticNodeAttributes)
    (pre post : list XmlRpcValue) (item : XmlRpcValue) (s : string) :
  attributes_Semantic node = Ok a ->
  label_names_param nh = Some (TypeArray (pre ++ item :: post)) ->
  Forall (passed_over (semantic_label a)) pre ->
  names_label item (semantic_label a) s ->
  exists m,
    makeTextMarkerNoHeight hdr config node ns_ nh
    = Ok (m, ("/semantic_labels/" ++ unique_id_of a, s)%string)
    /\ text m = (s ++ "(" ++ unique_id_of a ++ ")")%string.
Proof.
  intros Ha Hparam Hpre Hitem. unfold makeTextMarkerNoHeight.
  rewrite Ha, Hparam. cbn [mbind result_bind default from_option Datatypes.id].
  rewrite (find_label_name_first_match _ s item Hitem pre post Hpre).
  cbn [mbind result_bind default from_option Datatypes.id].
  eexists. split; reflexivity.
Qed.

(** X9.  [makeTextMarkerNoHeight] throws when the search through
    /label_names comes to an entry with a label and a name of which the label
    is no integer, or the label is an integer and the name no string, before
    it has found the node's label: such an entry is converted before its
    label is compared, so it need not carry the node's label to stop the
    builder. *)
Theorem label_text_throws_on_wrongly_typed_entry
    (hdr : Header) (config : LayerConfig) (node : SceneGraphNode) (ns_ : string)
    (nh : NodeHandle) (a : SemanticNodeAttributes)
    (pre post : list XmlRpcValue) (item : XmlRpcValue) :
  attributes_Semantic node = Ok a ->
  label_names_param nh = Some (TypeArray (pre ++ item :: post)) ->
  Forall (passed_over (semantic_label a)) pre ->
  wrongly_typed item ->
  makeTextMarkerNoHeight hdr config node ns_ nh = Raise xmlrpc_error.
Proof.
  intros Ha Hparam Hpre Hitem. unfold makeTextMarkerNoHeight.
  rewrite Ha, Hparam. cbn [mbind result_bind default from_option Datatypes.id].
  rewrite (find_label_name_wrongly_typed _ item Hitem pre post Hpre).
  reflexivity.
Qed.


End LabelProperties.

Lemma chair_is_named_after_third_entry :
  exists m,
    @makeTextMarkerNoHeight sample_collaborators sample_header
      (sample_layer_config true 0) (sample_node 1 2 (SemanticAttrs boxed_object))
      "labels" {| label_names_param := Some sample_label_names |}
    = Ok (m, ("/semantic_labels/O(7)", "chair")%string)
    /\ text m = "chair(O(7))"%string.
Proof.
  apply (@label_text_is_first_matching_name sample_collaborators sample_header
           (sample_layer_config true 0) (sample_node 1 2 (SemanticAttrs boxed_object))
           "labels" {| label_names_param := Some sample_label_names |} boxed_object
           [TypeString "comment"; label_entry 5 "table"]
           [TypeStruct [("label"%string, TypeInt 9); ("name"%string, TypeInt 9)]]
           (label_entry 3 "chair") "chair").
  - reflexivity.
  - reflexivity.
  - repeat constructor. exists 5%Z, "table"%string. repeat split. discriminate.
  - eexists. repeat split.
Defined.

Lemma number_for_a_name_throws :
  @makeTextMarkerNoHeight sample_collaborators sample_header
    (sample_layer_config true 0) (sample_node 1 2 (SemanticAttrs boxed_object))
    "labels" {| label_names_param := Some bad_label_names |}
  = Raise xmlrpc_error.
Proof.
  apply (@label_text_throws_on_wrongly_typed_entry sample_collaborators sample_header
           (sample_layer_config true 0) (sample_node 1 2 (SemanticAttrs boxed_object))
           "labels" {| label_names_param := Some bad_label_names |} boxed_object
           [] [label_entry 3 "chair"]
           (TypeStruct [("label"%string, TypeInt 9); ("name"%string, TypeInt 9)])).
  - reflexivity.
  - reflexivity.
  - constructor.
  - eexists _, _, _. repeat split.
Defined.



(** ** Inter-layer edges: what is returned, and in which order *)

Lemma in_key_order_empty {V : Type} : in_key_order (∅ : gmap Z V) = [].
Proof. unfold in_key_order. rewrite map_to_list_empty. reflexivity. Qed.

#[local] Instance key_le_total {V : Type} : Total (@key_le V).
Proof. intros a b. unfold key_le. lia. Qed.
#[local] Instance key_le_transitive {V : Type} : Transitive (@key_le V).
Proof. intros a b c. unfold key_le. lia. Qed.

Lemma sorted_keys {V : Type} (m : gmap Z V) :
  StronglySorted Z.lt ((merge_sort key_le (map_to_list m)).*1).
Proof.
  assert (Hs : StronglySorted Z.le ((merge_sort key_le (map_to_list m)).*1)).
  { apply StronglySorted_fmap with (R1 := key_le);
      [|apply StronglySorted_merge_sort; apply _].
    intros a b Hab. exact Hab. }
  assert (Hn : NoDup ((merge_sort key_le (map_to_list m)).*1)).
  { rewrite (merge_sort_Permutation key_le (map_to_list m)).
    apply NoDup_fst_map_to_list. }
  induction Hs as [|k ks Hs IH Hk]; [constructor|].
  apply NoDup_cons in Hn as [Hnotin Hn].
  constructor; [apply IH, Hn|].
  rewrite Forall_forall in Hk |- *. intros k' Hk'.
  specialize (Hk k' Hk'). assert (k <> k') by (intros ->; contradiction). lia.
Qed.

Lemma elem_of_sorted_keys {V : Type} (m : gmap Z V) (k : Z) :
  k ∈ (merge_sort key_le (map_to_list m)).*1 <-> is_Some (m !! k).
Proof.
  rewrite list_elem_of_fmap. split.
  - intros ([k' v] & -> & Hin).
    rewrite (merge_sort_Permutation key_le (map_to_list m)) in Hin.
    apply elem_of_map_to_list in Hin. eauto.
  - intros [v Hv]. exists (k, v). split; [reflexivity|].
    rewrite (merge_sort_Permutation key_le (map_to_list m)).
    apply elem_of_map_to_list, Hv.
Qed.

Lemma keys_with_values {V : Type} (m : gmap Z V) :
  Forall2 (fun k v => m !! k = Some v)
          ((merge_sort key_le (map_to_list m)).*1) (in_key_order m).
Proof.
  unfold in_key_order. apply Forall2_fmap, Forall_Forall2_diag, Forall_forall.
  intros [k v] Hin. rewrite (merge_sort_Permutation key_le (map_to_list m)) in Hin.
  apply elem_of_map_to_list in Hin. exact Hin.
Qed.

Section InterlayerReturns.
Context `{Collaborators}.

Lemma graph_pass_nothing_qualifies hdr graph configs visualizer_config ns_prefix filter es :
  (forall e, e ∈ es -> qualifies graph configs filter e = false) ->
  graph_edge_pass hdr graph configs visualizer_config ns_prefix filter es = Ok no_edges.
Proof.
  unfold graph_edge_pass. induction es as [|e es IH]; intros Hq; [reflexivity|].
  cbn [for_each].
  rewrite (step_not_qualifying hdr graph configs visualizer_config ns_prefix filter);
    [|apply Hq, list_elem_of_here].
  cbn [mbind result_bind]. apply IH. intros e' He'.
  apply Hq, list_elem_of_further, He'.
Qed.

Lemma dynamic_pass_nothing_qualifies hdr graph configs dynamic_configs visualizer_config
    ns_prefix es :
  (forall e, e ∈ es -> dyn_qualifies graph configs dynamic_configs e = false) ->
  dynamic_edge_pass hdr graph configs dynamic_configs visualizer_config ns_prefix es
  = Ok no_edges.
Proof.
  unfold dynamic_edge_pass. induction es as [|e es IH]; intros Hq; [reflexivity|].
  cbn [for_each].
  rewrite (dstep_not_qualifying hdr graph configs dynamic_configs visualizer_config
             ns_prefix); [|apply Hq, list_elem_of_here].
  cbn [mbind result_bind]. apply IH. intros e' He'.
  apply Hq, list_elem_of_further, He'.
Qed.

(** X11.  When no inter-layer edge has both ends accepted and in layers
    that are configured and shown, [makeGraphEdgeMarkers] returns no marker
    at all, and so does [makeDynamicGraphEdgeMarkers] when no dynamic
    inter-layer edge has both ends in layers that are to be shown: a batch
    exists only once an edge has qualified for it. *)
Theorem no_qualifying_edge_no_batch
    (hdr : Header) (graph : DynamicSceneGraph) (configs : gmap Z LayerConfig)
    (dynamic_configs : gmap Z DynamicLayerConfig)
    (visualizer_config : VisualizerConfig) (ns_prefix : string) (filter : FilterFunction) :
  (forall e, e ∈ interlayer_edges graph -> qualifies graph configs filter e = false) ->
  (forall e, e ∈ dynamic_interlayer_edges graph ->
             dyn_qualifies graph configs dynamic_configs e = false) ->
  makeGraphEdgeMarkers hdr graph configs visualizer_config ns_prefix filter = Ok []
  /\ makeDynamicGraphEdgeMarkers hdr graph configs dynamic_configs visualizer_config
       ns_prefix = Ok [].
Proof.
  intros Hq Hd. unfold makeGraphEdgeMarkers, makeDynamicGraphEdgeMarkers.
  rewrite (graph_pass_nothing_qualifies _ _ _ _ _ _ _ Hq).
  rewrite (dynamic_pass_nothing_qualifies _ _ _ _ _ _ _ Hd).
  cbn [mbind result_bind no_edges layer_markers]. rewrite !in_key_order_empty. auto.
Qed.

(** X12.  [makeGraphEdgeMarkers] returns its batches in ascending order of
    source layer: there is one batch for every layer that a qualifying edge
    leaves and none for any other, and each batch is named after its source
    layer and the target layer of the first qualifying edge that leaves
    it. *)
Theorem interlayer_batches_ascend_by_source_layer
    (hdr : Header) (graph : DynamicSceneGraph) (configs : gmap Z LayerConfig)
    (visualizer_config : VisualizerConfig) (ns_prefix : string) (filter : FilterFunction)
    (arr : MarkerArray) :
  makeGraphEdgeMarkers hdr graph configs visualizer_config ns_prefix filter = Ok arr ->
  exists ls : list Z,
    StronglySorted Z.lt ls
    /\ (forall l, l ∈ ls
                  <-> qualifying_from graph configs filter l (interlayer_edges graph) <> [])
    /\ Forall2
         (fun l m =>
            exists e0,
              head (qualifying_from graph configs filter l (interlayer_edges graph))
              = Some e0
              /\ ns m = (ns_prefix ++ to_string l ++ "_"
                         ++ to_string (target_layer graph e0))%string)
         ls arr.
Proof.
  unfold makeGraphEdgeMarkers. intros Hrun.
  destruct (graph_edge_pass hdr graph configs visualizer_config ns_prefix filter
              (interlayer_edges graph)) as [st|x] eqn:Hpass;
    cbn [mbind result_bind] in Hrun; [|discriminate].
  apply Ok_inj in Hrun. subst arr.
  assert (Hstate : forall l,
    batch_state hdr graph configs visualizer_config ns_prefix filter l
                (interlayer_edges graph) st).
  { intros l. apply pass_state, Hpass. }
  exists ((merge_sort key_le (map_to_list (layer_markers st))).*1).
  split; [apply sorted_keys|]. split.
  - intros l. rewrite elem_of_sorted_keys. specialize (Hstate l).
    unfold batch_state in Hstate. cbv zeta in Hstate.
    destruct (qualifying_from graph configs filter l (interlayer_edges graph))
      as [|e0 q].
    + rewrite Hstate. split; [intros [? ?]; discriminate|congruence].
    + destruct Hstate as (m & sc & _ & Hm & _). rewrite Hm.
      split; [discriminate|eauto].
  - eapply Forall2_impl; [apply keys_with_values|].
    intros l m Hm. specialize (Hstate l).
    unfold batch_state in Hstate. cbv zeta in Hstate.
    destruct (qualifying_from graph configs filter l (interlayer_edges graph))
      as [|e0 q]; [congruence|].
    destruct Hstate as (m' & sc & _ & Hm' & _ & _ & _ & Hns).
    exists e0. split; [reflexivity|]. congruence.
Qed.

(** X13.  In every batch that [makeGraphEdgeMarkers] returns, the two ends
    of a segment carry the same color: the colors of the batch are one color
    per drawn edge, each one twice, and there are as many of them as the
    batch has vertices. *)
Theorem interlayer_segments_have_one_color
    (hdr : Header) (graph : DynamicSceneGraph) (configs : gmap Z LayerConfig)
    (visualizer_config : VisualizerConfig) (ns_prefix : string) (filter : FilterFunction)
    (arr : MarkerArray) (m : Marker) :
  makeGraphEdgeMarkers hdr graph configs visualizer_config ns_prefix filter = Ok arr ->
  m ∈ arr ->
  exists cs,
    colors m = both_ends cs /\ length (points m) = (2 * length cs)%nat.
Proof.
  unfold makeGraphEdgeMarkers. intros Hrun Hin.
  destruct (graph_edge_pass hdr graph configs visualizer_config ns_prefix filter
              (interlayer_edges graph)) as [st|x] eqn:Hpass;
    cbn [mbind result_bind] in Hrun; [|discriminate].
  apply Ok_inj in Hrun. subst arr.
  apply elem_of_in_key_order in Hin as [l Hl].
  revert l m Hl.
  apply (for_each_invariant
           (fun st => forall l m, layer_markers st !! l = Some m ->
                        exists cs, colors m = both_ends cs
                                   /\ length (points m) = (2 * length cs)%nat)
           (graph_edge_step hdr graph configs visualizer_config ns_prefix filter)
           (interlayer_edges graph)) with (s := no_edges); [| |exact Hpass].
  - intros st0 e st1 Hinv Hstep l m Hm.
    destruct (qualifies graph configs filter e) eqn:Hq.
    + destruct (step_qualifying hdr graph configs visualizer_config ns_prefix filter
                  st0 e Hq) as (sc & tc & _ & _ & Hs).
      cbv zeta in Hs. rewrite Hs in Hstep. clear Hs.
      assert (Hm0 : exists cs,
        colors (default (makeNewEdgeList hdr sc ns_prefix (source_layer graph e)
                                         (target_layer graph e))
                        (layer_markers st0 !! source_layer graph e)) = both_ends cs
        /\ length (points (default (makeNewEdgeList hdr sc ns_prefix
                                      (source_layer graph e) (target_layer graph e))
                                   (layer_markers st0 !! source_layer graph e)))
           = (2 * length cs)%nat).
      { destruct (layer_markers st0 !! source_layer graph e) as [m0|] eqn:E0.
        - apply (Hinv _ _ E0).
        - exists []. split; reflexivity. }
      destruct Hm0 as (cs0 & C0 & P0).
      destruct (_ <=? _)%nat.
      * destruct (edge_color graph sc e) as [col|x]; cbn [mbind result_bind] in Hstep;
          [|discriminate].
        apply Ok_inj in Hstep. subst st1. cbn [layer_markers] in Hm.
        destruct (decide (source_layer graph e = l)) as [<-|Hne].
        -- rewrite lookup_insert_eq in Hm. apply Some_inj in Hm. subst m.
           exists (cs0 ++ [makeColorMsg col (Some (intralayer_edge_alpha sc))]).
           autorewrite with marker_fields. rewrite C0, !length_app, P0.
           unfold both_ends. rewrite flat_map_app, <- app_assoc. cbn [flat_map app length].
           split; [reflexivity|lia].
        -- rewrite lookup_insert_ne in Hm by exact Hne. apply (Hinv _ _ Hm).
      * apply Ok_inj in Hstep. subst st1. cbn [layer_markers] in Hm.
        destruct (decide (source_layer graph e = l)) as [<-|Hne].
        -- rewrite lookup_insert_eq in Hm. apply Some_inj in Hm. subst m. eauto.
        -- rewrite lookup_insert_ne in Hm by exact Hne. apply (Hinv _ _ Hm).
    + rewrite (step_not_qualifying hdr graph configs visualizer_config ns_prefix filter
                 st0 e Hq) in Hstep.
      apply Ok_inj in Hstep. subst st1. apply (Hinv _ _ Hm).
  - intros l m Hm. cbn in Hm. rewrite lookup_empty in Hm. discriminate.
Qed.

End InterlayerReturns.

Lemma hidden_layers_have_no_batches :
  (forall e, e ∈ interlayer_edges five_edge_graph ->
             @qualifies five_edge_graph hidden_configs None e = false)
  /\ (forall e, e ∈ dynamic_interlayer_edges five_edge_graph ->
                dyn_qualifies five_edge_graph hidden_configs ∅ e = false)
  /\ @makeGraphEdgeMarkers sample_collaborators sample_header five_edge_graph
       hidden_configs sample_visualizer_config "edges_" None = Ok []
  /\ @makeDynamicGraphEdgeMarkers sample_collaborators sample_header five_edge_graph
       hidden_configs ∅ sample_visualizer_config "edges_" = Ok [].
Proof.
  assert (Hq : forall e, e ∈ interlayer_edges five_edge_graph ->
                         @qualifies five_edge_graph hidden_configs None e = false).
  { intros e He. cbn in He.
    repeat (apply elem_of_cons in He as [->|He]; [vm_compute; reflexivity|]).
    apply elem_of_nil in He. contradiction. }
  assert (Hd : forall e, e ∈ dynamic_interlayer_edges five_edge_graph ->
                         dyn_qualifies five_edge_graph hidden_configs ∅ e = false).
  { intros e He. cbn in He. apply elem_of_nil in He. contradiction. }
  split; [exact Hq|]. split; [exact Hd|].
  apply (@no_qualifying_edge_no_batch sample_collaborators sample_header five_edge_graph
           hidden_configs ∅ sample_visualizer_config "edges_" None Hq Hd).
Defined.

Lemma five_edge_batches_ascend :
  exists arr,
    @makeGraphEdgeMarkers sample_collaborators sample_header five_edge_graph
      skip_two_configs sample_visualizer_config "edges_" None = Ok arr
    /\ exists ls : list Z,
         StronglySorted Z.lt ls
         /\ (forall l, l ∈ ls
                       <-> qualifying_from five_edge_graph skip_two_configs None l
                             (interlayer_edges five_edge_graph) <> [])
         /\ Forall2
              (fun l m =>
                 exists e0,
                   head (qualifying_from five_edge_graph skip_two_configs None l
                           (interlayer_edges five_edge_graph)) = Some e0
                   /\ ns m = ("edges_" ++ @to_string sample_collaborators l ++ "_"
                              ++ @to_string sample_collaborators
                                   (target_layer five_edge_graph e0))%string)
              ls arr.
Proof.
  assert (E : exists arr,
    @makeGraphEdgeMarkers sample_collaborators sample_header five_edge_graph
      skip_two_configs sample_visualizer_config "edges_" None = Ok arr).
  { vm_compute. eexists. reflexivity. }
  destruct E as [arr E]. exists arr. split; [exact E|].
  apply (@interlayer_batches_ascend_by_source_layer sample_collaborators sample_header
           five_edge_graph skip_two_configs sample_visualizer_config "edges_" None arr E).
Defined.

Lemma five_edge_batch_has_one_color_per_segment :
  exists arr m,
    @makeGraphEdgeMarkers sample_collaborators sample_header five_edge_graph
      skip_two_configs sample_visualizer_config "edges_" None = Ok arr
    /\ m ∈ arr
    /\ exists cs, colors m = both_ends cs /\ length (points m) = (2 * length cs)%nat.
Proof.
  assert (E : exists m,
    @makeGraphEdgeMarkers sample_collaborators sample_header five_edge_graph
      skip_two_configs sample_visualizer_config "edges_" None = Ok [m]).
  { vm_compute. eexists. reflexivity. }
  destruct E as [m E]. exists [m], m. split; [exact E|].
  split; [apply list_elem_of_here|].
  apply (@interlayer_segments_have_one_color sample_collaborators sample_header
           five_edge_graph skip_two_configs sample_visualizer_config "edges_" None
           [m] m E (list_elem_of_here _ _)).
Defined.

(** ** Dynamic inter-layer edges: when the builder throws *)

Section DynamicThrows.
Context `{Collaborators}.
Context (hdr : Header) (graph : DynamicSceneGraph) (configs : gmap Z LayerConfig)
  (dynamic_configs : gmap Z DynamicLayerConfig)
  (visualizer_config : VisualizerConfig) (ns_prefix : string).

Lemma map_at_raises {V : Type} (m : gmap Z V) k x :
  map_at m k = Raise x -> x = out_of_range.
Proof. unfold map_at. destruct (m !! k); congruence. Qed.

Lemma dynamic_step_raises st e x :
  dynamic_edge_step hdr graph configs dynamic_configs visualizer_config ns_prefix st e
  = Raise x -> x = out_of_range.
Proof.
  unfold dynamic_edge_step.
  destruct (shouldVisualize graph (getNode graph (edge_source e)) _ _);
    cbn [negb]; [|discriminate].
  destruct (shouldVisualize graph (getNode graph (edge_target e)) _ _);
    cbn [negb]; [|discriminate].
  destruct (map_at dynamic_configs _) as [config|y] eqn:Ec; cbn [mbind result_bind];
    [|intros E; apply map_at_raises in Ec; congruence].
  destruct (bool_decide _).
  - destruct (map_at configs (node_layer (getNode graph (edge_source e))))
      as [sc|y] eqn:Es; cbn [mbind result_bind];
      [|intros E; apply map_at_raises in Es; congruence].
    destruct (_ <=? _)%nat; [|discriminate].
    destruct (map_at (layer_markers _) _) as [m|y] eqn:Em; cbn [mbind result_bind];
      [|intros E; apply map_at_raises in Em; congruence].
    destruct (map_at configs (node_layer (getNode graph (edge_target e))))
      as [tc|y] eqn:Et; cbn [mbind result_bind];
      [discriminate|intros E; apply map_at_raises in Et; congruence].
  - cbn [mbind result_bind].
    destruct (_ <=? _)%nat; [|discriminate].
    destruct (map_at (layer_markers _) _) as [m|y] eqn:Em; cbn [mbind result_bind];
      [|intros E; apply map_at_raises in Em; congruence].
    destruct (map_at configs (node_layer (getNode graph (edge_source e))))
      as [sc|y] eqn:Es; cbn [mbind result_bind];
      [|intros E; apply map_at_raises in Es; congruence].
    destruct (map_at configs (node_layer (getNode graph (edge_target e))))
      as [tc|y] eqn:Et; cbn [mbind result_bind];
      [discriminate|intros E; apply map_at_raises in Et; congruence].
Qed.

Lemma dynamic_loop_raises es st x :
  for_each es
    (dynamic_edge_step hdr graph configs dynamic_configs visualizer_config ns_prefix) st
  = Raise x -> x = out_of_range.
Proof.
  revert st. induction es as [|e es IH]; intros st; cbn [for_each]; [discriminate|].
  destruct (dynamic_edge_step _ _ _ _ _ _ st e) as [st'|y] eqn:E;
    cbn [mbind result_bind].
  - apply IH.
  - intros E'. apply dynamic_step_raises in E. congruence.
Qed.

Lemma dynamic_step_batches_configured st e st' :
  batches_configured configs st ->
  dynamic_edge_step hdr graph configs dynamic_configs visualizer_config ns_prefix st e
  = Ok st' ->
  batches_configured configs st'.
Proof.
  intros Hinv Hstep l Hl.
  destruct (dyn_qualifies graph configs dynamic_configs e) eqn:Hq.
  - destruct (dstep_qualifying hdr graph configs dynamic_configs visualizer_config
                ns_prefix st e st' Hq Hstep) as (config & _ & Hcase).
    cbv zeta in Hcase.
    destruct Hcase as [(_ & sc & tc & Hsc & _ & ->)|(_ & _ & ->)];
      cbn [layer_markers] in Hl.
    + destruct (decide (source_layer graph e = l)) as [<-|Hne].
      * eauto.
      * rewrite lookup_insert_ne in Hl by exact Hne. apply Hinv, Hl.
    + apply Hinv, Hl.
  - rewrite (dstep_not_qualifying hdr graph configs dynamic_configs visualizer_config
               ns_prefix st e Hq) in Hstep.
    apply Ok_inj in Hstep. subst st'. apply Hinv, Hl.
Qed.

Lemma dynamic_step_unconfigured_source st e :
  dyn_qualifies graph configs dynamic_configs e = true ->
  configs !! source_layer graph e = None ->
  layer_markers st !! source_layer graph e = None ->
  dynamic_edge_step hdr graph configs dynamic_configs visualizer_config ns_prefix st e
  = Raise out_of_range.
Proof.
  unfold dyn_qualifies, source_layer, dynamic_edge_step. intros Hq Hc Hm.
  apply andb_true_iff in Hq as [-> ->]. cbn [negb].
  destruct (map_at dynamic_configs _) as [config|y] eqn:Ec; cbn [mbind result_bind];
    [|apply map_at_raises in Ec; congruence].
  rewrite bool_decide_eq_true_2 by exact Hm.
  assert (Hat : map_at configs (node_layer (getNode graph (edge_source e)))
                = Raise out_of_range).
  { unfold map_at. rewrite Hc. reflexivity. }
  rewrite Hat. reflexivity.
Qed.

(** X14.  [makeDynamicGraphEdgeMarkers] throws std::out_of_range as soon
    as one dynamic inter-layer edge that is to be shown leaves a layer
    without a static configuration: the batch of an edge is set up from the
    static configuration of its source layer, whichever layer rules the
    edge. *)
Theorem dynamic_edges_throw_without_source_config (e : SceneGraphEdge) :
  e ∈ dynamic_interlayer_edges graph ->
  dyn_qualifies graph configs dynamic_configs e = true ->
  configs !! source_layer graph e = None ->
  makeDynamicGraphEdgeMarkers hdr graph configs dynamic_configs visualizer_config
    ns_prefix = Raise out_of_range.
Proof.
  intros Hin Hq Hc. unfold makeDynamicGraphEdgeMarkers, dynamic_edge_pass.
  apply list_elem_of_split in Hin as (pre & post & ->).
  rewrite for_each_app.
  destruct (for_each pre _ no_edges) as [st|x] eqn:Hpre; cbn [mbind result_bind].
  - assert (Hinv : batches_configured configs st).
    { apply (for_each_invariant (batches_configured configs)
               (dynamic_edge_step hdr graph configs dynamic_configs visualizer_config
                                  ns_prefix) pre) with (s := no_edges);
        [|intros l [m Hm]; cbn in Hm; rewrite lookup_empty in Hm; discriminate
         |exact Hpre].
      intros s a s' Hs Hstep. apply (dynamic_step_batches_configured s a s' Hs Hstep). }
    cbn [for_each].
    rewrite dynamic_step_unconfigured_source; [reflexivity|exact Hq|exact Hc|].
    destruct (layer_markers st !! source_layer graph e) as [m|] eqn:Em; [|reflexivity].
    destruct (Hinv (source_layer graph e)) as [sc Hsc]; [eauto|congruence].
  - apply dynamic_loop_raises in Hpre. subst x. reflexivity.
Qed.

Lemma dynamic_step_returns st e :
  (dyn_qualifies graph configs dynamic_configs e = true ->
   has_dynamic_end graph e = true
   /\ is_Some (configs !! source_layer graph e)
   /\ is_Some (configs !! target_layer graph e)) ->
  exists st',
    dynamic_edge_step hdr graph configs dynamic_configs visualizer_config ns_prefix st e
    = Ok st'.
Proof.
  intros Hok.
  destruct (dyn_qualifies graph configs dynamic_configs e) eqn:Hq;
    [|rewrite (dstep_not_qualifying hdr graph configs dynamic_configs visualizer_config
                 ns_prefix st e Hq); eauto].
  destruct (Hok eq_refl) as (Hdyn & [sc Hsc] & [tc Htc]). clear Hok.
  unfold dyn_qualifies, has_dynamic_end, source_layer, target_layer in *.
  apply andb_true_iff in Hq as [Hs Ht].
  unfold dynamic_edge_step. rewrite Hs, Ht. cbn [negb].
  assert (Hconfig : is_Some (dynamic_configs
                               !! getConfigLayer graph (getNode graph (edge_source e))
                                    (getNode graph (edge_target e)))).
  { unfold getConfigLayer, shouldVisualize in *.
    destruct (isDynamic graph (node_id (getNode graph (edge_source e)))).
    - destruct (dynamic_configs !! node_layer (getNode graph (edge_source e)));
        [eauto|discriminate].
    - cbn [orb] in Hdyn. rewrite Hdyn in Ht.
      destruct (dynamic_configs !! node_layer (getNode graph (edge_target e)));
        [eauto|discriminate]. }
  destruct Hconfig as [config Hconfig].
  assert (Hat : forall {V : Type} (m : gmap Z V) k v, m !! k = Some v -> map_at m k = Ok v).
  { intros V m k v E. unfold map_at. rewrite E. reflexivity. }
  rewrite (Hat _ _ _ _ Hconfig), (Hat _ _ _ _ Hsc), (Hat _ _ _ _ Htc).
  cbn [mbind result_bind].
  destruct (bool_decide _) eqn:Hb; cbn [mbind result_bind].
  - destruct (_ <=? _)%nat; [|eauto].
    cbn [set_since set_marker layer_markers].
    rewrite (Hat _ _ _ _ (lookup_insert_eq _ _ _)).
    cbn [mbind result_bind]. eauto.
  - destruct (_ <=? _)%nat; [|eauto].
    cbn [set_since layer_markers].
    apply bool_decide_eq_false in Hb.
    destruct (layer_markers st !! node_layer (getNode graph (edge_source e)))
      as [m|] eqn:Em; [|contradiction].
    rewrite (Hat _ _ _ _ Em). cbn [mbind result_bind]. eauto.
Qed.

(** X15.  [makeDynamicGraphEdgeMarkers] returns when every dynamic
    inter-layer edge that is to be shown has an end in a dynamic layer and
    joins two layers that both have a static configuration: the lookup of
    the dynamic configuration that rules such an edge cannot fail. *)
Theorem dynamic_edges_return_when_layers_are_configured :
  (forall e, e ∈ dynamic_interlayer_edges graph ->
             dyn_qualifies graph configs dynamic_configs e = true ->
             has_dynamic_end graph e = true
             /\ is_Some (configs !! source_layer graph e)
             /\ is_Some (configs !! target_layer graph e)) ->
  exists arr,
    makeDynamicGraphEdgeMarkers hdr graph configs dynamic_configs visualizer_config
      ns_prefix = Ok arr.
Proof.
  intros Hall. unfold makeDynamicGraphEdgeMarkers, dynamic_edge_pass.
  assert (Hrun : forall es st,
    (forall e, e ∈ es -> e ∈ dynamic_interlayer_edges graph) ->
    exists st',
      for_each es
        (dynamic_edge_step hdr graph configs dynamic_configs visualizer_config ns_prefix)
        st = Ok st').
  { induction es as [|e es IH]; intros st Hsub; cbn [for_each]; [eauto|].
    destruct (dynamic_step_returns st e) as [st1 E1].
    { apply Hall, Hsub, list_elem_of_here. }
    rewrite E1. cbn [mbind result_bind]. apply IH.
    intros e' He'. apply Hsub, list_elem_of_further, He'. }
  destruct (Hrun (dynamic_interlayer_edges graph) no_edges) as [st E]; [auto|].
  rewrite E. cbn [mbind result_bind]. eauto.
Qed.

End DynamicThrows.

Lemma agent_as_source_throws :
  @makeDynamicGraphEdgeMarkers sample_collaborators sample_header agent_source_graph
    places_only_configs agent_dynamic_configs sample_visualizer_config "dynamic_edges_"
  = Raise out_of_range.
Proof.
  apply (@dynamic_edges_throw_without_source_config sample_collaborators sample_header
           agent_source_graph places_only_configs agent_dynamic_configs
           sample_visualizer_config "dynamic_edges_"
           {| edge_source := 100; edge_target := 1; weight := zero |}).
  - apply list_elem_of_here.
  - vm_compute. reflexivity.
  - vm_compute. reflexivity.
Defined.

Lemma agent_edges_return :
  exists arr,
    @makeDynamicGraphEdgeMarkers sample_collaborators sample_header agent_graph
      agent_configs agent_dynamic_configs sample_visualizer_config "dynamic_edges_"
    = Ok arr.
Proof.
  apply (@dynamic_edges_return_when_layers_are_configured sample_collaborators
           sample_header agent_graph agent_configs agent_dynamic_configs
           sample_visualizer_config "dynamic_edges_").
  intros e He _. cbn in He.
  repeat (apply elem_of_cons in He as [->|He];
          [split; [vm_compute; reflexivity|];
           split; eexists; vm_compute; reflexivity|]).
  apply elem_of_nil in He. contradiction.
Defined.


(** ** Distances that are no numbers *)

Section NonFiniteDistances.
Context `{Collaborators}.

Lemma sub_not_finite (v lo : double) :
  isfinite v = false -> isfinite (sub v lo) = false.
Proof.
  unfold sub, SFsub. destruct v as [s|s| |s m e]; try discriminate; intros _.
  - destruct lo as [s'|s'| |s' m' e']; try reflexivity.
    destruct s, s'; reflexivity.
  - destruct lo; reflexivity.
Qed.

Lemma div_not_finite (a b : double) :
  isfinite a = false -> isfinite (div a b) = false.
Proof.
  unfold div, SFdiv. destruct a as [s|s| |s m e]; try discriminate; intros _.
  - destruct b as [s'|s'| |s' m' e']; reflexivity.
  - destruct b; reflexivity.
Qed.

Lemma getRatio_not_finite (lo hi d : double) :
  isfinite d = false -> getRatio lo hi d = zero.
Proof.
  intros Hd. unfold getRatio.
  rewrite (div_not_finite _ _ (sub_not_finite d lo Hd)). reflexivity.
Qed.

(** X16.  A distance that is infinite or not a number is colored like the
    smallest distance: [getRatio] maps it to 0 whatever the bounds are, so
    that [getDistanceColor] returns the color at the lower end of the color
    map, or the default color when the upper bound is not above the lower
    one. *)
Theorem distance_color_of_non_finite_distance
    (config : VisualizerConfig) (colors : ColormapConfig) (d : double) :
  isfinite d = false ->
  getRatio (places_colormap_min_distance config) (places_colormap_max_distance config) d
  = zero
  /\ getDistanceColor config colors d
     = if leb (places_colormap_max_distance config) (places_colormap_min_distance config)
       then Color_default
       else interpolateColorMap colors zero.
Proof.
  intros Hd. unfold getDistanceColor. rewrite (getRatio_not_finite _ _ d Hd). auto.
Qed.

End NonFiniteDistances.

Lemma infinite_distance_is_colored_as_nearest :
  isfinite infinity = false
  /\ @getRatio (places_colormap_min_distance sample_visualizer_config)
       (places_colormap_max_distance sample_visualizer_config) infinity = zero.
Proof.
  split; [reflexivity|].
  apply (@distance_color_of_non_finite_distance sample_collaborators
           sample_visualizer_config tt infinity eq_refl).
Defined.

(** ** GVD wireframes *)

Section GvdProperties.
Context `{Collaborators}.

Lemma for_each_raises {A S : Type} (body : S -> A -> result S) (x : exn) (a : A)
    (l : list A) :
  a ∈ l ->
  (forall s, body s a = Raise x) ->
  (forall s b y, body s b = Raise y -> y = x) ->
  forall s, for_each l body s = Raise x.
Proof.
  intros Hin Ha Hall. induction l as [|b l IH]; intros s.
  - apply elem_of_nil in Hin. contradiction.
  - cbn [for_each]. destruct (body s b) as [s'|y] eqn:E; cbn [mbind result_bind].
    + apply elem_of_cons in Hin as [->|Hin]; [rewrite Ha in E; discriminate|].
      apply IH, Hin.
    + apply Hall in E. congruence.
Qed.

(** X17.  With a color function that does not throw, [makeGvdWireframe]
    returns nothing for a layer without nodes, whatever its edges, one
    marker when the layer has nodes and no edges, and two markers otherwise.
    The first marker, in the namespace <ns>_nodes, holds one point and one
    color for every node, at the position of the node with no offset; the
    second, in the namespace <ns>_edges, holds the two ends of every edge
    with one color each.  Both carry the same id. *)
Theorem gvd_wireframe_markers
    (hdr : Header) (config : LayerConfig) (layer : SceneGraphLayer) (ns_ : string)
    (color_func : ThrowingColorFunction) (marker_id : Z) :
  (forall n, exists c, color_func n = Ok c) ->
  exists nm em,
    makeGvdWireframe hdr config layer ns_ color_func marker_id
    = Ok (if bool_decide (nodes layer = []) then []
          else if bool_decide (edges layer = []) then [nm] else [nm; em])
    /\ points nm = map (fun n => toPoint (attributes_position n)) (nodes layer)
    /\ length (colors nm) = numNodes layer
    /\ points em = flat_map (gvd_segment layer) (edges layer)
    /\ length (colors em) = (2 * length (edges layer))%nat
    /\ ns nm = (ns_ ++ "_nodes")%string /\ ns em = (ns_ ++ "_edges")%string
    /\ id nm = id em /\ type nm = SPHERE_LIST /\ type em = LINE_LIST.
Proof.
  intros Htotal. unfold makeGvdWireframe.
  match goal with
  | |- context [for_each (nodes layer) ?body ?m0] =>
    assert (Hn : forall l m, exists m',
      for_each l body m = Ok m'
      /\ points m' = points m ++ map (fun n => toPoint (attributes_position n)) l
      /\ length (colors m') = (length (colors m) + length l)%nat
      /\ ns m' = ns m /\ id m' = id m /\ type m' = type m);
    [|destruct (Hn (nodes layer) m0) as (nm & En & Pn & Cn & Nn & In & Tn)]
  end.
  { induction l as [|n l IH]; intros m; cbn [for_each map length].
    - exists m. rewrite app_nil_r. repeat split; lia.
    - destruct (Htotal n) as [c Hc]. rewrite Hc. cbn [mbind result_bind].
      match goal with
      | |- context [for_each l _ ?m1] =>
        destruct (IH m1) as (m' & E & P & C & N & I & T)
      end.
      exists m'. rewrite E, P, C, N, I, T. autorewrite with marker_fields.
      rewrite <- app_assoc, length_app. cbn [app length].
      repeat split; lia. }
  match goal with
  | |- context [for_each (edges layer) ?body ?m0] =>
    assert (He : forall l m, exists m',
      for_each l body m = Ok m'
      /\ points m' = points m ++ flat_map (gvd_segment layer) l
      /\ length (colors m') = (length (colors m) + 2 * length l)%nat
      /\ ns m' = ns m /\ id m' = id m /\ type m' = type m);
    [|destruct (He (edges layer) m0) as (em & Ee & Pe & Ce & Ne & Ie & Te)]
  end.
  { induction l as [|e l IH]; intros m; cbn [for_each flat_map length].
    - exists m. rewrite app_nil_r. repeat split; lia.
    - destruct (Htotal (layer_getNode layer (edge_source e))) as [c1 Hc1].
      destruct (Htotal (layer_getNode layer (edge_target e))) as [c2 Hc2].
      rewrite Hc1. cbn [mbind result_bind]. rewrite Hc2. cbn [mbind result_bind].
      match goal with
      | |- context [for_each l _ ?m1] =>
        destruct (IH m1) as (m' & E & P & C & N & I & T)
      end.
      exists m'. rewrite E, P, C, N, I, T. autorewrite with marker_fields.
      rewrite <- !app_assoc, !length_app. cbn [app length gvd_segment].
      repeat split; lia. }
  exists nm, em. rewrite En. cbn [mbind result_bind]. rewrite Ee.
  cbn [mbind result_bind].
  split.
  { destruct (bool_decide (nodes layer = [])); [reflexivity|].
    destruct (bool_decide (edges layer = [])); reflexivity. }
  rewrite Pn, Cn, Pe, Ce, Nn, Ne, In, Ie, Tn, Te.
  repeat split.
Qed.

(** X18.  The overload of [makeGvdWireframe] that colors by distance throws
    std::bad_cast when the layer holds a node that is no place: the color of
    every node is read from its place attributes, and nothing catches the
    failed cast. *)
Theorem gvd_wireframe_by_distance_throws_on_other_nodes
    (hdr : Header) (config : LayerConfig) (visualizer_config : VisualizerConfig)
    (layer : SceneGraphLayer) (ns_ : string) (colors : ColormapConfig) (marker_id : Z)
    (n : SceneGraphNode) :
  n ∈ nodes layer ->
  attributes_Place n = Raise bad_cast ->
  makeGvdWireframe_cmap hdr config visualizer_config layer ns_ colors marker_id
  = Raise bad_cast.
Proof.
  intros Hin Hn. unfold makeGvdWireframe_cmap, makeGvdWireframe.
  rewrite bool_decide_eq_false_2.
  2:{ intros E. rewrite E in Hin. apply elem_of_nil in Hin. exact Hin. }
  rewrite (for_each_raises _ bad_cast n (nodes layer) Hin); [reflexivity| |].
  - intros s. rewrite Hn. reflexivity.
  - intros s b y. unfold attributes_Place. destruct (attrs b); cbn; congruence.
Qed.

End GvdProperties.

Lemma gvd_wireframe_of_two_places :
  (forall n : SceneGraphNode, exists c, (fun _ => Ok Color_default) n = Ok c)
  /\ exists nm em,
       @makeGvdWireframe sample_collaborators sample_header (sample_layer_config true 0)
         two_place_layer "gvd" (fun _ => Ok Color_default) 7 = Ok [nm; em]
       /\ length (points nm) = 2%nat /\ length (points em) = 2%nat.
Proof.
  assert (Htotal : forall n : SceneGraphNode,
            exists c, (fun _ : SceneGraphNode => Ok Color_default) n = Ok c).
  { intros n. eexists. reflexivity. }
  split; [exact Htotal|].
  destruct (@gvd_wireframe_markers sample_collaborators sample_header
              (sample_layer_config true 0) two_place_layer "gvd"
              (fun _ => Ok Color_default) 7%Z Htotal)
    as (nm & em & E & Pn & _ & Pe & _).
  exists nm, em. split; [exact E|]. rewrite Pn, Pe. split; reflexivity.
Defined.

Lemma gvd_wireframe_of_plain_nodes_throws :
  @makeGvdWireframe_cmap sample_collaborators sample_header (sample_layer_config true 0)
    sample_visualizer_config one_edge_layer "gvd" tt 7 = Raise bad_cast.
Proof.
  apply (@gvd_wireframe_by_distance_throws_on_other_nodes sample_collaborators
           sample_header (sample_layer_config true 0) sample_visualizer_config
           one_edge_layer "gvd" tt 7%Z (sample_node 1 3 (BaseAttrs origin))).
  - apply list_elem_of_here.
  - reflexivity.
Defined.

(** ** Dynamic layers *)

Section DynamicLayerProperties.
Context `{Collaborators}.

Lemma dynamic_centroid_marker_fields hdr config layer layer_offset_scale
    visualizer_config ns_ color_func marker_id :
  let m := makeDynamicCentroidMarkers hdr config layer layer_offset_scale
             visualizer_config ns_ color_func marker_id in
  points m = map (dynamic_anchor layer_offset_scale visualizer_config)
                 (present_nodes layer)
  /\ colors m = map (fun n => makeColorMsg (color_func n) (Some (node_alpha config)))
                    (present_nodes layer).
Proof.
  cbv zeta. unfold makeDynamicCentroidMarkers, present_nodes.
  match goal with
  | |- context [fold_left ?g _ ?m0] =>
    destruct (fold_left_collect g
                (fun n => match n with
                          | Some n => [dynamic_anchor layer_offset_scale
                                         visualizer_config n]
                          | None => []
                          end)
                (fun n => match n with
                          | Some n => [makeColorMsg (color_func n)
                                                    (Some (node_alpha config))]
                          | None => []
                          end)
                (dyn_nodes layer)) with (m := m0) as [P C];
      [|change (points m0) with (@nil Point) in P;
        change (colors m0) with (@nil ColorRGBA) in C]
  end.
  { intros m0 [n|]; autorewrite with marker_fields; rewrite ?app_nil_r; auto. }
  cbn [app] in P, C. rewrite P, C.
  assert (Hmap : forall {B : Type} (f : SceneGraphNode -> B) l,
    flat_map (fun n : option SceneGraphNode =>
                match n with Some n => [f n] | None => [] end) l
    = map f (omap Datatypes.id l)).
  { intros B f l. induction l as [|[n|] l IH]; cbn [flat_map omap list_omap map app];
      [reflexivity| |exact IH].
    cbn. rewrite IH. reflexivity. }
  rewrite !Hmap. split; reflexivity.
Qed.

(** X19.  [makeDynamicCentroidMarkers] draws the nodes that a dynamic layer
    still holds and steps over the slots that are vacated: one point for
    every node that is there, in the order of the slots, at the position of
    the node lifted by the offset that belongs to the given scale, and one
    color for every point.  The batch never holds more points than the layer
    has slots. *)
Theorem dynamic_centroids_skip_vacated_slots
    (hdr : Header) (config : DynamicLayerConfig) (layer : DynamicSceneGraphLayer)
    (layer_offset_scale : R) (visualizer_config : VisualizerConfig) (ns_ : string)
    (color_func : ColorFunction) (marker_id : Z) :
  let m := makeDynamicCentroidMarkers hdr config layer layer_offset_scale
             visualizer_config ns_ color_func marker_id in
  points m = map (dynamic_anchor layer_offset_scale visualizer_config)
                 (present_nodes layer)
  /\ colors m = map (fun n => makeColorMsg (color_func n) (Some (node_alpha config)))
                    (present_nodes layer)
  /\ (length (points m) <= length (dyn_nodes layer))%nat.
Proof.
  cbv zeta.
  destruct (dynamic_centroid_marker_fields hdr config layer layer_offset_scale
              visualizer_config ns_ color_func marker_id) as [P C].
  rewrite P, C. repeat split.
  rewrite length_map. unfold present_nodes. clear.
  induction (dyn_nodes layer) as [|[n|] l IH]; cbn; lia.
Qed.

(** X20.  [makeDynamicEdgeMarkers] draws every edge of a dynamic layer: the
    batch holds the two ends of each edge, in the order of the edges, both
    lifted by the offset of the layer, and no color per vertex, as all edges
    of the batch have the color of the marker. *)
Theorem dynamic_edges_two_vertices_each
    (hdr : Header) (config : DynamicLayerConfig) (layer : DynamicSceneGraphLayer)
    (visualizer_config : VisualizerConfig) (col : Color) (ns_ : string) (marker_id : Z) :
  let m := makeDynamicEdgeMarkers hdr config layer visualizer_config col ns_ marker_id in
  points m = flat_map (dynamic_segment config layer visualizer_config) (dyn_edges layer)
  /\ length (points m) = (2 * length (dyn_edges layer))%nat
  /\ colors m = []
  /\ color m = makeColorMsg col (Some (edge_alpha config)).
Proof.
  cbv zeta. unfold makeDynamicEdgeMarkers.
  match goal with
  | |- context [fold_left ?g _ ?m0] =>
    assert (Hloop : forall l m,
      points (fold_left g l m)
      = points m ++ flat_map (dynamic_segment config layer visualizer_config) l
      /\ colors (fold_left g l m) = colors m
      /\ color (fold_left g l m) = color m);
    [|destruct (Hloop (dyn_edges layer) m0) as (P & C & K)]
  end.
  { induction l as [|e l IH]; intros m; cbn [fold_left flat_map].
    - rewrite app_nil_r. auto.
    - match goal with
      | |- context [fold_left _ l ?m1] => destruct (IH m1) as (P & C & K)
      end.
      rewrite P, C, K. autorewrite with marker_fields.
      rewrite <- !app_assoc. auto. }
  rewrite P, C, K. cbn [app]. repeat split.
  apply (length_flat_map_pairs _ 2). reflexivity.
Qed.

End DynamicLayerProperties.

(** ** Marker ids *)

Section MarkerIds.
Context `{Collaborators}.

(** X21.  The id of the label of a node is the id of the node cut down to
    a signed number of 32 bits, and [makeDeleteMarker] cuts the id that it
    is given in the same way: the delete marker made from the id of a node
    names the label of that node, and two nodes get the same label id
    exactly when their ids agree in the lower 32 bits.  An id below 2^31 is
    kept as it is. *)
Theorem marker_ids_are_node_ids_modulo_2_32
    (hdr : Header) (config : LayerConfig) (visualizer_config : VisualizerConfig)
    (ns_ : string) (draw : R) (n1 n2 : SceneGraphNode) :
  let label := fun n => makeTextMarker hdr config n visualizer_config ns_ draw in
  let deleted := makeDeleteMarker hdr (node_id n1) ns_ in
  (id deleted = id (label n1) /\ ns deleted = ns (label n1) /\ action deleted = DELETE)
  /\ (id (label n1) = id (label n2)
      <-> (node_id n1 mod 2 ^ 32 = node_id n2 mod 2 ^ 32)%Z)
  /\ (-2 ^ 31 <= id (label n1) < 2 ^ 31)%Z
  /\ ((0 <= node_id n1 < 2 ^ 31)%Z -> id (label n1) = node_id n1).
Proof.
  cbv beta zeta.
  assert (Hid : forall n,
            id (makeTextMarker hdr config n visualizer_config ns_ draw)
            = to_int32 (node_id n)).
  { intros n. unfold makeTextMarker. destruct (add_label_jitter config); reflexivity. }
  assert (Hns : forall n,
            ns (makeTextMarker hdr config n visualizer_config ns_ draw) = ns_).
  { intros n. unfold makeTextMarker. destruct (add_label_jitter config); reflexivity. }
  rewrite !Hid, Hns. split; [repeat split|]. split; [apply to_int32_congruent|].
  split.
  - unfold to_int32.
    pose proof (Z.mod_pos_bound (node_id n1 + 2 ^ 31) (2 ^ 32) ltac:(lia)). lia.
  - apply to_int32_small.
Qed.

End MarkerIds.

(** ** Intra-layer edges without a filter *)

Lemma every_nth_block {A : Type} (s q : nat) (l : list A) (e : A) (b : list A) :
  length l = (q * s)%nat -> (length b < s)%nat ->
  every_nth s (l ++ e :: b) = every_nth s l ++ [e].
Proof.
  intros Hl. induction b as [|x b IH] using rev_ind; intros Hb.
  - rewrite every_nth_snoc. rewrite decide_True; [reflexivity|].
    rewrite Hl. apply Nat.Div0.mod_mul.
  - rewrite length_app in Hb. cbn [length] in Hb.
    change (l ++ e :: b ++ [x]) with (l ++ (e :: b) ++ [x]).
    rewrite app_assoc, every_nth_snoc, IH by lia.
    rewrite decide_False; [rewrite app_nil_r; reflexivity|].
    rewrite length_app, Hl. cbn [length].
    rewrite Nat.add_comm, Nat.Div0.mod_add, Nat.mod_small by lia. lia.
Qed.

Section UnfilteredLayerEdges.
Context `{Collaborators}.

Lemma layer_edge_loop_unfiltered config layer visualizer_config color_func q rem :
  let s := (intralayer_edge_insertion_skip config + 1)%nat in
  length (edges layer) = (q * s + rem)%nat ->
  (rem < s)%nat ->
  forall fuel j m,
    (j <= q)%nat -> (q - j < fuel)%nat ->
    points m = flat_map (layer_segment config layer visualizer_config)
                        (every_nth s (take (j * s) (edges layer))) ->
    length (colors m) = length (points m) ->
    (rem = 0%nat ->
     exists m',
       layer_edge_loop fuel config layer visualizer_config color_func None (j * s) m
       = Returned m'
       /\ points m' = flat_map (layer_segment config layer visualizer_config)
                               (every_nth s (edges layer))
       /\ length (colors m') = length (points m'))
    /\ (rem <> 0%nat ->
        layer_edge_loop fuel config layer visualizer_config color_func None (j * s) m
        = AdvancedPastEnd).
Proof.
  intros s Hn Hrem. induction fuel as [|fuel IH]; intros j m Hj Hfuel Hp Hc; [lia|].
  rewrite layer_edge_loop_unfold.
  destruct (Nat.eqb_spec (j * s) (length (edges layer))) as [Hend|Hmore].
  - assert (rem = 0%nat /\ j = q) as [-> ->] by nia.
    split; [|congruence]. intros _. exists m. split; [reflexivity|].
    rewrite Hend, firstn_all in Hp. auto.
  - assert (Hlt : (j * s < length (edges layer))%nat) by nia.
    destruct (lookup_lt_is_Some_2 (edges layer) (j * s) Hlt) as [e He].
    rewrite He. cbn [rejects orb]. cbv zeta.
    fold s.
    replace (j * s + s)%nat with (S j * s)%nat by lia.
    destruct (Nat.ltb_spec (length (edges layer)) (S j * s)) as [Hpast|Hfits].
    + assert (rem <> 0%nat) by nia. split; [contradiction|reflexivity].
    + assert (Hj' : (S j <= q)%nat) by nia.
      apply IH; [exact Hj'|lia| |].
      * autorewrite with marker_fields. rewrite Hp.
        assert (Htake : take (S j * s) (edges layer)
                        = take (j * s) (edges layer)
                          ++ e :: take (s - 1) (drop (S (j * s)) (edges layer))).
        { replace (S j * s)%nat with (j * s + S (s - 1))%nat by (unfold s; lia).
          rewrite <- take_take_drop. f_equal.
          rewrite (drop_S _ _ _ He). reflexivity. }
        rewrite Htake, (every_nth_block s j).
        -- rewrite flat_map_app, <- app_assoc. reflexivity.
        -- rewrite length_take. lia.
        -- rewrite length_take. unfold s. lia.
      * autorewrite with marker_fields. rewrite !length_app, Hc. cbn [length]. lia.
Qed.

(** X22.  Without a filter, when the stride, the insertion skip plus one,
    divides the number of edges of the layer and the steps are enough to go
    through the edges, [makeLayerEdgeMarkers] returns, and what it returns
    holds the edges at the positions 0, stride, 2 stride, ... and no others,
    with two vertices and two colors each. *)
Theorem layer_edges_return_when_stride_divides
    (steps : nat) (hdr : Header) (config : LayerConfig) (layer : SceneGraphLayer)
    (visualizer_config : VisualizerConfig) (ns_ : string)
    (color_func : EdgeColorFunction) :
  (length (edges layer) < steps)%nat ->
  let stride := (intralayer_edge_insertion_skip config + 1)%nat in
  (length (edges layer) mod stride = 0)%nat ->
  exists m,
    makeLayerEdgeMarkers steps hdr config layer visualizer_config ns_ color_func None
    = Returned m
    /\ points m = flat_map (layer_segment config layer visualizer_config)
                           (every_nth stride (edges layer))
    /\ length (colors m) = length (points m).
Proof.
  intros Hsteps stride Hdivides. unfold makeLayerEdgeMarkers.
  assert (Hs : stride <> 0%nat) by (unfold stride; lia).
  pose proof (Nat.div_mod_eq (length (edges layer)) stride) as Hdiv.
  pose proof (Nat.mod_upper_bound (length (edges layer)) stride Hs) as Hrem.
  assert (Hq : (length (edges layer) / stride <= length (edges layer))%nat).
  { apply Nat.Div0.div_le_upper_bound. nia. }
  match goal with
  | |- context [layer_edge_loop _ _ _ _ _ _ 0 ?m0] =>
    apply (layer_edge_loop_unfiltered config layer visualizer_config color_func
             (length (edges layer) / stride) (length (edges layer) mod stride)
             ltac:(fold stride; lia) Hrem steps 0%nat m0)
  end; [lia|lia|reflexivity|reflexivity|exact Hdivides].
Qed.

End UnfilteredLayerEdges.

Lemma three_edges_stride_three_return :
  (length (edges three_edge_layer) < 5)%nat
  /\ (length (edges three_edge_layer)
      mod (intralayer_edge_insertion_skip (sample_layer_config true 2) + 1) = 0)%nat
  /\ exists m,
       @makeLayerEdgeMarkers sample_collaborators 5 sample_header
         (sample_layer_config true 2) three_edge_layer sample_visualizer_config
         "layer_edges" plain_edge_color None
       = Returned m
       /\ length (points m) = 2%nat.
Proof.
  assert (Hsteps : (length (edges three_edge_layer) < 5)%nat) by (cbn; lia).
  split; [exact Hsteps|]. split; [reflexivity|].
  destruct (@layer_edges_return_when_stride_divides sample_collaborators 5 sample_header
              (sample_layer_config true 2) three_edge_layer sample_visualizer_config
              "layer_edges" plain_edge_color Hsteps eq_refl) as (m & E & P & _).
  exists m. split; [exact E|]. rewrite P. reflexivity.
Defined.


(** ** Inter-layer edges: colors that cannot be resolved *)

Section EdgeColors.
Context `{Collaborators}.
Context (hdr : Header) (graph : DynamicSceneGraph) (configs : gmap Z LayerConfig)
  (visualizer_config : VisualizerConfig) (ns_prefix : string) (filter : FilterFunction).

Lemma edge_color_resolves sc e :
  (interlayer_edge_use_color sc = true -> is_semantic (color_source graph sc e)) ->
  exists col, edge_color graph sc e = Ok col.
Proof.
  unfold edge_color, color_source. intros Hsem.
  destruct (interlayer_edge_use_color sc); [|eauto].
  destruct (Hsem eq_refl) as [a Ha].
  destruct (use_edge_source sc); rewrite Ha; cbn [mbind result_bind]; eauto.
Qed.

Lemma edge_color_raises sc e x : edge_color graph sc e = Raise x -> x = bad_cast.
Proof.
  unfold edge_color, attributes_Semantic.
  destruct (interlayer_edge_use_color sc); [|discriminate].
  destruct (use_edge_source sc).
  - destruct (attrs (getNode graph (edge_source e))); cbn; congruence.
  - destruct (attrs (getNode graph (edge_target e))); cbn; congruence.
Qed.

Lemma graph_step_raises st e x :
  graph_edge_step hdr graph configs visualizer_config ns_prefix filter st e = Raise x ->
  x = bad_cast.
Proof.
  intros Hstep. destruct (qualifies graph configs filter e) eqn:Hq.
  - destruct (step_qualifying hdr graph configs visualizer_config ns_prefix filter
                st e Hq) as (sc & tc & _ & _ & Hs).
    cbv zeta in Hs. rewrite Hs in Hstep. clear Hs.
    destruct (_ <=? _)%nat; [|discriminate].
    destruct (edge_color graph sc e) as [col|y] eqn:Ec; cbn [mbind result_bind] in Hstep;
      [discriminate|].
    apply edge_color_raises in Ec. congruence.
  - rewrite (step_not_qualifying hdr graph configs visualizer_config ns_prefix filter
               st e Hq) in Hstep. discriminate.
Qed.

Lemma graph_loop_raises es st x :
  for_each es (graph_edge_step hdr graph configs visualizer_config ns_prefix filter) st
  = Raise x -> x = bad_cast.
Proof.
  revert st. induction es as [|e es IH]; intros st; cbn [for_each]; [discriminate|].
  destruct (graph_edge_step _ _ _ _ _ _ st e) as [st'|y] eqn:E; cbn [mbind result_bind].
  - apply IH.
  - intros E'. apply graph_step_raises in E. congruence.
Qed.

(** X23.  [makeGraphEdgeMarkers] returns when the color of every
    inter-layer edge can be resolved: when edges are not colored after their
    nodes, or when the node that gives an edge its color, the source or the
    target as the configuration of the source layer says, has semantic
    attributes. *)
Theorem interlayer_edges_return_when_colors_resolve :
  colors_resolve graph configs (interlayer_edges graph) ->
  exists arr,
    makeGraphEdgeMarkers hdr graph configs visualizer_config ns_prefix filter = Ok arr.
Proof.
  intros Hres. unfold makeGraphEdgeMarkers.
  destruct (graph_edge_pass_returns hdr graph configs visualizer_config ns_prefix filter
              (interlayer_edges graph)) as [st Hst].
  { intros e sc He Hsc. apply edge_color_resolves. intros Huse.
    apply (Hres e sc He Hsc Huse). }
  rewrite Hst. cbn [mbind result_bind]. eauto.
Qed.

(** X24.  [makeGraphEdgeMarkers] throws std::bad_cast when the first
    qualifying edge that leaves a layer is to take its color from a node
    without semantic attributes: the first edge of a batch is always drawn,
    and the cast of its node is not guarded. *)
Theorem interlayer_edges_throw_on_unresolved_color
    (pre post : list SceneGraphEdge) (e : SceneGraphEdge) (sc : LayerConfig) :
  interlayer_edges graph = pre ++ e :: post ->
  qualifies graph configs filter e = true ->
  qualifying_from graph configs filter (source_layer graph e) pre = [] ->
  configs !! source_layer graph e = Some sc ->
  interlayer_edge_use_color sc = true ->
  ~ is_semantic (color_source graph sc e) ->
  makeGraphEdgeMarkers hdr graph configs visualizer_config ns_prefix filter
  = Raise bad_cast.
Proof.
  intros Hes Hq Hfirst Hsc Huse Hnot. unfold makeGraphEdgeMarkers, graph_edge_pass.
  rewrite Hes, for_each_app.
  destruct (for_each pre _ no_edges) as [st|x] eqn:Hpre; cbn [mbind result_bind].
  - pose proof (pass_state hdr graph configs visualizer_config ns_prefix filter
                  (source_layer graph e) pre st Hpre) as Hst.
    unfold batch_state in Hst. cbv zeta in Hst. rewrite Hfirst in Hst.
    cbn [for_each].
    destruct (step_qualifying hdr graph configs visualizer_config ns_prefix filter
                st e Hq) as (sc' & tc & Hsc' & _ & Hs).
    cbv zeta in Hs. rewrite Hs. clear Hs.
    assert (sc' = sc) by congruence. subst sc'.
    rewrite Hst, Nat.leb_refl.
    assert (Hcol : edge_color graph sc e = Raise bad_cast).
    { destruct (edge_color graph sc e) as [col|x] eqn:Ec.
      - exfalso. apply Hnot. unfold edge_color in Ec. unfold color_source.
        rewrite Huse in Ec.
        destruct (use_edge_source sc);
          [destruct (attributes_Semantic (getNode graph (edge_source e))) eqn:Ea
          |destruct (attributes_Semantic (getNode graph (edge_target e))) eqn:Ea];
          cbn [mbind result_bind] in Ec; try discriminate; eexists; exact Ea.
      - apply edge_color_raises in Ec. congruence. }
    rewrite Hcol. reflexivity.
  - apply graph_loop_raises in Hpre. subst x. reflexivity.
Qed.

End EdgeColors.

Lemma plain_edges_without_colors_return :
  colors_resolve five_edge_graph skip_two_configs (interlayer_edges five_edge_graph)
  /\ exists arr,
       @makeGraphEdgeMarkers sample_collaborators sample_header five_edge_graph
         skip_two_configs sample_visualizer_config "edges_" None = Ok arr.
Proof.
  assert (Hres : colors_resolve five_edge_graph skip_two_configs
                   (interlayer_edges five_edge_graph)).
  { intros e sc He Hsc Huse. exfalso. cbn in He.
    repeat (apply elem_of_cons in He as [->|He];
            [vm_compute in Hsc; apply Some_inj in Hsc; subst sc; discriminate|]).
    apply elem_of_nil in He. exact He. }
  split; [exact Hres|].
  apply (@interlayer_edges_return_when_colors_resolve sample_collaborators sample_header
           five_edge_graph skip_two_configs sample_visualizer_config "edges_" None Hres).
Defined.

Lemma plain_edges_with_colors_throw :
  @makeGraphEdgeMarkers sample_collaborators sample_header five_edge_graph
    colored_edge_configs sample_visualizer_config "edges_" None
  = Raise bad_cast.
Proof.
  apply (@interlayer_edges_throw_on_unresolved_color sample_collaborators sample_header
           five_edge_graph colored_edge_configs sample_visualizer_config "edges_" None
           [] (map (fun i => {| edge_source := i; edge_target := (i + 5)%Z;
                                weight := zero |}) [2; 3; 4; 5]%Z)
           {| edge_source := 1; edge_target := 6; weight := zero |}
           colored_edge_config).
  - reflexivity.
  - vm_compute. reflexivity.
  - reflexivity.
  - vm_compute. reflexivity.
  - reflexivity.
  - intros [a Ha]. vm_compute in Ha. discriminate.
Defined.

(** ** Mesh fans of a layer *)

Section LayerFans.
Context `{Collaborators}.

Lemma length_fan_vertices config visualizer_config mesh center_point conns :
  (length (fan_vertices config visualizer_config mesh center_point conns)
   <= 2 * ceil_div (length conns) (interlayer_edge_insertion_skip config + 1))%nat.
Proof.
  unfold fan_vertices. rewrite (length_flat_map_pairs _ 2) by reflexivity.
  apply Nat.mul_le_mono_l.
  etransitivity; [apply length_filter|].
  rewrite Nat.add_1_r, every_nth_length. reflexivity.
Qed.

(** X25.  With a mesh, on a layer of 2D places, [makeMeshEdgesMarker]
    returns the fans of the places that have mesh connections, one after the
    other in node order: for each the stem from the place to its break point
    and then its spokes.  The batch holds one color per vertex, and a place
    with n connections and an insertion skip of k takes part with at most
    the stem and the ceiling of n / (k + 1) spokes. *)
Theorem mesh_fans_of_a_layer
    (hdr : Header) (config : LayerConfig) (visualizer_config : VisualizerConfig)
    (graph : DynamicSceneGraph) (layer : SceneGraphLayer) (ns_ : string) (mesh : Mesh) :
  graph_mesh graph = Some mesh ->
  Forall is_place2d (nodes layer) ->
  exists m,
    makeMeshEdgesMarker hdr config visualizer_config graph layer ns_ = Ok m
    /\ points m
       = flat_map (fan_of config visualizer_config mesh) (connected_places (nodes layer))
    /\ length (colors m) = length (points m)
    /\ Forall
         (fun a =>
            (2 <= length (fan_of config visualizer_config mesh a)
             <= 2 + 2 * ceil_div (length (pcl_mesh_connections a))
                                 (interlayer_edge_insertion_skip config + 1))%nat)
         (connected_places (nodes layer)).
Proof.
  intros Hmesh Hall. unfold makeMeshEdgesMarker. rewrite Hmesh.
  match goal with
  | |- context [for_each _ _ ?m0] => set (start := m0)
  end.
  assert (Hloop : forall l m,
    Forall is_place2d l ->
    exists m',
      for_each l (mesh_edges_node config visualizer_config mesh) m = Ok m'
      /\ points m'
         = points m ++ flat_map (fan_of config visualizer_config mesh)
                                (connected_places l)
      /\ length (colors m')
         = (length (colors m)
            + length (flat_map (fan_of config visualizer_config mesh)
                               (connected_places l)))%nat).
  { induction l as [|n l IH]; intros m Hl.
    - exists m. cbn. rewrite app_nil_r. auto.
    - inversion Hl as [|? ? [a Ha] Hrest]; subst.
      unfold connected_places. cbn [flat_map]. rewrite Ha.
      fold (connected_places l). cbn [for_each].
      destruct (decide (pcl_mesh_connections a = [])) as [Hc|Hc].
      + rewrite (mesh_edges_node_unconnected config visualizer_config mesh m n a Ha Hc).
        cbn [mbind result_bind]. rewrite bool_decide_eq_true_2 by exact Hc.
        cbn [app]. apply IH, Hrest.
      + destruct (mesh_edges_node_connected config visualizer_config mesh m n a Ha Hc)
          as (m1 & E1 & P1 & C1).
        rewrite E1. cbn [mbind result_bind]. rewrite bool_decide_eq_false_2 by exact Hc.
        destruct (IH m1 Hrest) as (m2 & E2 & P2 & C2).
        exists m2. split; [exact E2|]. cbn [flat_map app].
        rewrite P2, C2, P1, C1. unfold fan_of at 1 3.
        rewrite <- !app_assoc. split; [reflexivity|].
        rewrite !length_app.
        assert (Hlen : length (fan_of config visualizer_config mesh a)
                       = (2 + length (fan_vertices config visualizer_config mesh
                                        (fan_center config visualizer_config a)
                                        (pcl_mesh_connections a)))%nat)
          by reflexivity.
        rewrite Hlen. lia. }
  destruct (Hloop (nodes layer) start Hall) as (m & E & P & C).
  exists m. split; [exact E|].
  change (points start) with (@nil Point) in P.
  change (colors start) with (@nil ColorRGBA) in C. cbn [app length] in P, C.
  split; [exact P|]. split; [rewrite C, P; reflexivity|].
  apply Forall_forall. intros a _. unfold fan_of. rewrite length_app. cbn [length].
  pose proof (length_fan_vertices config visualizer_config mesh
                (fan_center config visualizer_config a) (pcl_mesh_connections a)).
  lia.
Qed.

End LayerFans.

Lemma mesh_fan_of_connected_place :
  graph_mesh (graph_with_mesh (Some two_vertex_mesh)) = Some two_vertex_mesh
  /\ Forall is_place2d (nodes connected_place_layer)
  /\ exists m,
       @makeMeshEdgesMarker sample_collaborators sample_header
         (sample_layer_config true 0) sample_visualizer_config
         (graph_with_mesh (Some two_vertex_mesh)) connected_place_layer "mesh_edges"
       = Ok m
       /\ length (points m) = 6%nat.
Proof.
  assert (Hall : Forall is_place2d (nodes connected_place_layer)).
  { repeat constructor; eexists; reflexivity. }
  split; [reflexivity|]. split; [exact Hall|].
  destruct (@mesh_fans_of_a_layer sample_collaborators sample_header
              (sample_layer_config true 0) sample_visualizer_config
              (graph_with_mesh (Some two_vertex_mesh)) connected_place_layer
              "mesh_edges" two_vertex_mesh eq_refl Hall) as (m & E & P & _).
  exists m. split; [exact E|]. rewrite P. vm_compute. reflexivity.
Defined.


(** ** The overloads that take one color *)

Section OneColor.
Context `{Collaborators}.

Lemma layer_edge_loop_colors (Q : ColorRGBA -> Prop) config layer visualizer_config
    color_func filter :
  (forall s t e b,
     Q (makeColorMsg (color_func s t e b) (Some (intralayer_edge_alpha config)))) ->
  forall steps cursor m m',
    Forall Q (colors m) ->
    layer_edge_loop steps config layer visualizer_config color_func filter cursor m
    = Returned m' ->
    Forall Q (colors m').
Proof.
  intros HQ.
  induction steps as [|steps IH]; intros cursor m m' Hm; cbn [layer_edge_loop];
    [discriminate|].
  destruct (cursor =? length (edges layer))%nat;
    [intros E; apply Returned_inj in E; subst; exact Hm|].
  destruct (edges layer !! cursor) as [edge|]; [|discriminate].
  destruct (rejects filter _ || rejects filter _); [apply IH, Hm|].
  destruct (_ <? _)%nat; [discriminate|].
  apply IH. autorewrite with marker_fields.
  rewrite !Forall_app. repeat split; [exact Hm| |]; repeat constructor; apply HQ.
Qed.

(** X26.  The overloads that take one color use no other: every color of
    the batch that [makeLayerEdgeMarkers] returns for a given color is that
    color with the alpha of the intra-layer edges, whatever the filter and
    the insertion skip, and the batch that [makeDynamicCentroidMarkers]
    builds for a given color holds that color with the alpha of the nodes
    once for every node that is there, at the offset that belongs to the
    scale of the configuration. *)
Theorem one_color_overloads_use_that_color
    (steps : nat) (hdr : Header) (config : LayerConfig) (layer : SceneGraphLayer)
    (visualizer_config : VisualizerConfig) (col : Color) (ns_ : string)
    (filter : FilterFunction)
    (dynamic_config : DynamicLayerConfig) (dynamic_layer : DynamicSceneGraphLayer)
    (marker_id : Z) :
  returned
    (fun m => Forall (eq (makeColorMsg col (Some (intralayer_edge_alpha config))))
                     (colors m))
    (makeLayerEdgeMarkers_color steps hdr config layer visualizer_config col ns_ filter)
  /\ let m := makeDynamicCentroidMarkers_color hdr dynamic_config dynamic_layer
                visualizer_config col ns_ marker_id in
     colors m = repeat (makeColorMsg col (Some (node_alpha dynamic_config)))
                       (length (present_nodes dynamic_layer))
     /\ points m = map (dynamic_anchor (z_offset_scale dynamic_config) visualizer_config)
                       (present_nodes dynamic_layer).
Proof.
  split.
  - unfold makeLayerEdgeMarkers_color, makeLayerEdgeMarkers.
    match goal with
    | |- returned _ ?o => destruct o as [m| |] eqn:E; cbn [returned]; [|exact I|exact I]
    end.
    revert E. apply layer_edge_loop_colors; [reflexivity|constructor].
  - cbv zeta. unfold makeDynamicCentroidMarkers_color.
    destruct (dynamic_centroid_marker_fields hdr dynamic_config dynamic_layer
                (z_offset_scale dynamic_config) visualizer_config ns_ (fun _ => col)
                marker_id) as (P & C).
    rewrite P, C. split; [|reflexivity]. clear P C.
    induction (present_nodes dynamic_layer) as [|n l IH]; cbn [map length repeat];
      [reflexivity|rewrite IH; reflexivity].
Qed.

End OneColor.
